(** * Orbiton Agent: session core

    A shallow embedding of the session concurrency core of the Orbiton
    terminal agent and the properties proved about it:

    - [agents/factory.py]    : [AgentSession], the single-flight execution gate
                               and its life cycle; [AgentFactory]
                               ([create_agent], [_create_mcp_tools]);
    - [state/session.py]     : [ConversationMessage], [ToolExecution],
                               [SessionState], [SessionManager];
    - [state/persistence.py] : [SessionPersistence] (save, load, export,
                               automatic save, the list of sessions);
    - [config/manager.py]    : [ConfigManager] (paths, merge, environment,
                               loading, validation);
    - [console/commands.py]  : [CommandHandler], its table of commands and
                               the commands that touch the session;
    - [console/app.py], [console/app_tui.py], [console/keybindings.py] :
                               a round of the main loop, the wrapper of the
                               TUI, the escape key;
    - [console/renderer.py]  : [SectionManager].

    Python objects are mutated in place; here every method takes the object
    and returns the updated one.  A Python call either returns a value or
    raises: [outcome] below.  Readings of [datetime.now()] are explicit
    arguments of the methods that take them. *)

From Stdlib Require Import ZArith String Ascii List Bool Lia DecimalString.
From Stdlib Require DecimalNat Sorted.
From stdpp Require Import base option list strings gmap.

Local Open Scope string_scope.

(** ** Python exceptions *)

(** The exception classes that the modelled code raises, catches or lets
    through, with their place in the class hierarchy.  [OtherException] is any
    further class deriving from [Exception], [OtherBaseException] any further
    class deriving from [BaseException] only.  Since Python 3.8
    [asyncio.CancelledError] derives from [BaseException] directly (the source
    needs at least 3.9: it subscripts [list] and [dict] in annotations). *)
Inductive exc_class :=
  | KeyboardInterrupt
  | SystemExit
  | GeneratorExit
  | CancelledError
  | OtherBaseException (name : string)
  | Exception
  | RuntimeError
  | KeyError
  | ValueError
  | TypeError
  | AttributeError
  | FileNotFoundError
  | JSONDecodeError
  | OtherException (name : string).

(** An exception object: its class and [str(e)]. *)
Record exception := mk_exception { exc_cls : exc_class; exc_str : string }.

(** [isinstance(e, Exception)]. *)
Definition is_Exception (e : exception) : bool :=
  match exc_cls e with
  | KeyboardInterrupt | SystemExit | GeneratorExit | CancelledError
  | OtherBaseException _ => false
  | _ => true
  end.

(** [isinstance(e, KeyboardInterrupt)]. *)
Definition is_KeyboardInterrupt (e : exception) : bool :=
  match exc_cls e with
  | KeyboardInterrupt => true
  | _ => false
  end.

(** The outcome of a Python call. *)
Inductive outcome (A : Type) :=
  | Ok (a : A)
  | Raise (e : exception).
Arguments Ok {A} a.
Arguments Raise {A} e.

#[global] Instance outcome_ret : MRet outcome := fun A a => Ok a.
#[global] Instance outcome_bind : MBind outcome := fun A B f m =>
  match m with
  | Ok a => f a
  | Raise e => Raise e
  end.

(** The list that a call returned, and the empty list if it raised. *)
Definition returned_list {A} (o : outcome (list A)) : list A :=
  match o with
  | Ok l => l
  | Raise _ => []
  end.

(** ** Methods: state passing with exceptions *)

(** A method of an object of type [S] returning an [A]: it returns or raises,
    and leaves the object in a new state either way. *)
Definition SE (S A : Type) : Type := S -> outcome A * S.

Section StateExc.
Context {S : Type}.

Definition ret {A} (a : A) : SE S A := fun s => (Ok a, s).
Definition bind {A B} (m : SE S A) (k : A -> SE S B) : SE S B := fun s =>
  match m s with
  | (Ok a, s') => k a s'
  | (Raise e, s') => (Raise e, s')
  end.
Definition raise {A} (e : exception) : SE S A := fun s => (Raise e, s).
Definition get {A} (f : S -> A) : SE S A := fun s => (Ok (f s), s).
Definition modify (f : S -> S) : SE S unit := fun s => (Ok tt, f s).

(** [try: body / except ...: handler]: [handler e] is [None] when no
    [except] clause matches [e], which then propagates. *)
Definition try_except {A} (body : SE S A) (handler : exception -> option (SE S A))
  : SE S A := fun s =>
  match body s with
  | (Ok a, s') => (Ok a, s')
  | (Raise e, s') =>
      match handler e with
      | Some h => h s'
      | None => (Raise e, s')
      end
  end.

(** [try: body / finally: fin]: [fin] runs on every path; the outcome of
    [body] stands unless [fin] itself raises. *)
Definition try_finally {A} (body : SE S A) (fin : SE S unit) : SE S A := fun s =>
  match body s with
  | (r, s') =>
      match fin s' with
      | (Ok _, s'') => (r, s'')
      | (Raise e, s'') => (Raise e, s'')
      end
  end.
End StateExc.

Notation "x <- m ;; k" := (bind m (fun x => k))
  (at level 100, m at next level, right associativity).
Notation "m ;;; k" := (bind m (fun _ => k))
  (at level 100, right associativity).

(** ** The execution gate: [AgentSession] ([agents/factory.py]) *)

Module Gate.

(** What [await self.agent.run(user_input)] does to the awaiting coroutine
    while the event loop runs: it resumes with the response, or an exception
    is thrown at the [await], or the coroutine is still waiting there when
    the loop stops running, [later] being what the awaited call does once
    the loop runs again. *)
Inductive agent_run :=
  | Returns (response : string)
  | Throws (e : exception)
  | Waits (later : agent_run).

(** The external agent executor. *)
Definition Agent := string -> agent_run.

(** A call of [execute_async] that is suspended at its [await]: its input
    and what the awaited call does from now on. *)
Record pending_call := mk_pending {
  pending_input : string;
  pending_run : agent_run;
}.

(** The session's private event loop, as far as [execute] depends on it.
    Modelled from asyncio.  A loop that does not run is idle, or closed, or
    it still holds the tasks of the calls that were left suspended in it:
    [LoopPending calls], oldest first. *)
Inductive loop_state :=
  | LoopIdle
  | LoopRunning
  | LoopClosed
  | LoopPending (calls : list pending_call).

(** [agent_calls] is a ghost field: the inputs for which [agent.run] was
    started, oldest first.  The Python object has no queue of pending inputs,
    and neither has the record. *)
Record AgentSession := mk_session {
  executing : bool;
  interrupted : bool;
  _enable_debug_logging : bool;
  _event_loop : loop_state;
  agent_calls : list string;
}.

Definition set_executing (b : bool) (s : AgentSession) : AgentSession :=
  mk_session b (interrupted s) (_enable_debug_logging s) (_event_loop s) (agent_calls s).
Definition set_interrupted (b : bool) (s : AgentSession) : AgentSession :=
  mk_session (executing s) b (_enable_debug_logging s) (_event_loop s) (agent_calls s).
Definition set_event_loop (l : loop_state) (s : AgentSession) : AgentSession :=
  mk_session (executing s) (interrupted s) (_enable_debug_logging s) l (agent_calls s).
Definition record_call (input : string) (s : AgentSession) : AgentSession :=
  mk_session (executing s) (interrupted s) (_enable_debug_logging s) (_event_loop s)
             (agent_calls s ++ [input]).

(** Methods of the session. *)
Definition M (A : Type) : Type := SE AgentSession A.

(** A coroutine of the session, as far as the loop has run it when it stops
    running: the coroutine has ended, returning or raising, or it is
    suspended at its [await]. *)
Inductive progress (A : Type) :=
  | Ended (o : outcome A)
  | Suspended (call : pending_call).
Arguments Ended {A} o.
Arguments Suspended {A} call.
Coercion Ended : outcome >-> progress.

Definition Co (A : Type) : Type := AgentSession -> progress A * AgentSession.

(** Statements without an [await]. *)
Definition co {A} (m : M A) : Co A := fun s =>
  let '(o, s') := m s in (Ended o, s').

(** Sequence, [try]/[except] and [try]/[finally] in a coroutine: a
    coroutine that is suspended inside a statement is suspended, and neither
    a handler nor a [finally] clause runs until it is resumed. *)
Definition co_bind {A B} (m : Co A) (k : A -> Co B) : Co B := fun s =>
  match m s with
  | (Ended (Ok a), s') => k a s'
  | (Ended (Raise e), s') => (Ended (Raise e), s')
  | (Suspended call, s') => (Suspended call, s')
  end.

Definition co_try_except {A} (body : Co A) (handler : exception -> option (Co A))
  : Co A := fun s =>
  match body s with
  | (Ended (Ok a), s') => (Ended (Ok a), s')
  | (Ended (Raise e), s') =>
      match handler e with
      | Some h => h s'
      | None => (Ended (Raise e), s')
      end
  | (Suspended call, s') => (Suspended call, s')
  end.

Definition co_try_finally {A} (body : Co A) (fin : M unit) : Co A := fun s =>
  match body s with
  | (Ended r, s') =>
      match fin s' with
      | (Ok _, s'') => (Ended r, s'')
      | (Raise e, s'') => (Ended (Raise e), s'')
      end
  | (Suspended call, s') => (Suspended call, s')
  end.

Notation "x <~ m ;; k" := (co_bind m (fun x => k))
  (at level 100, m at next level, right associativity).
Notation "m ;;~ k" := (co_bind m (fun _ => k))
  (at level 100, right associativity).

(** The [await] on the call of the agent for [user_input], [run] being what
    the call does from here on. *)
Definition await (user_input : string) (run : agent_run) : Co string :=
  match run with
  | Returns response => co (ret response)
  | Throws e => co (raise e)
  | Waits later => fun s => (Suspended (mk_pending user_input later), s)
  end.

(** [await self.agent.run(user_input)]: the call is made and awaited. *)
Definition await_agent_run (agent : Agent) (user_input : string) : Co string :=
  co (modify (record_call user_input)) ;;~
  await user_input (agent user_input).

Definition already_executing : exception :=
  mk_exception RuntimeError "Agent is already executing".

(** The exception raised by the [except Exception as e] clause. *)
Definition agent_execution_failed (e : exception) : exception :=
  mk_exception Exception ("Agent execution failed: " ++ exc_str e).

(** The [try] statement of [execute_async], around the [await] of the
    agent.  The calls to [self.logger] under [_enable_debug_logging] only
    write to the log and are left out. *)
Definition guarded (awaited : Co string) : Co string :=
  co_try_finally
    (co_try_except
       (response <~ awaited ;;
        co (ret response))
       (fun e =>
          if is_KeyboardInterrupt e then
            Some (co (modify (set_interrupted true) ;;; raise e))
          else if is_Exception e then
            Some (co (raise (agent_execution_failed e)))
          else None))
    (modify (set_executing false)).

(** [AgentSession.execute_async]. *)
Definition execute_async (agent : Agent) (user_input : string) : Co string :=
  busy <~ co (get executing) ;;
  if (busy : bool) then co (raise already_executing)
  else
    co (modify (set_executing true)) ;;~
    co (modify (set_interrupted false)) ;;~
    guarded (await_agent_run agent user_input).

(** A suspended call when the loop runs its task again: the coroutine goes
    on from its [await], inside the [try] statement. *)
Definition resume (call : pending_call) : Co string :=
  guarded (await (pending_input call) (pending_run call)).

(** The exceptions that a task lets out of the loop when its coroutine
    raises them: asyncio stores every other exception in the task. *)
Definition leaves_loop (e : exception) : bool :=
  match exc_cls e with
  | KeyboardInterrupt | SystemExit => true
  | _ => false
  end.

(** The [KeyboardInterrupt] that the interpreter raises on [Ctrl-C]. *)
Definition keyboard_interrupt : exception := mk_exception KeyboardInterrupt "".

(** The tasks that a loop holds while it does not run, and the loop that
    holds given tasks. *)
Definition held (l : loop_state) : list pending_call :=
  match l with
  | LoopPending calls => calls
  | _ => []
  end.

Definition holding (calls : list pending_call) : loop_state :=
  match calls with
  | [] => LoopIdle
  | _ :: _ => LoopPending calls
  end.

(** The tasks that were suspended in the loop, run again in their order
    until an exception leaves the loop: the exception, if any, the tasks that
    are still suspended, and the session.  The result of a task that ends is
    kept by the task, which nobody awaits. *)
Fixpoint resume_all (calls : list pending_call) (s : AgentSession)
    : option exception * list pending_call * AgentSession :=
  match calls with
  | [] => (None, [], s)
  | call :: rest =>
      match resume call s with
      | (Suspended call', s') =>
          let '(escaped, rest', s'') := resume_all rest s' in
          (escaped, call' :: rest', s'')
      | (Ended (Ok _), s') => resume_all rest s'
      | (Ended (Raise e), s') =>
          if leaves_loop e then (Some e, rest, s') else resume_all rest s'
      end
  end.

(** [loop.run_until_complete(coro)] on the session's loop.  A closed loop
    and a loop that is already running are refused, in that order, before
    the coroutine is started.  Otherwise the task of [coro] runs first, then
    the tasks that were suspended in the loop; the loop stops when the task
    of [coro] has ended, or before that when an exception leaves it: one
    that a task raises, or the [KeyboardInterrupt] of a [Ctrl-C] that
    arrives while the loop waits, which leaves the coroutine suspended in
    it.  (The interrupt is taken to arrive while the interpreter runs the
    coroutine, where it is thrown at the [await], or while the loop waits
    for events; the few instructions of the loop between two tasks are not
    told apart.) *)
Definition run_until_complete {A} (coro : Co A) : M A :=
  l <- get _event_loop ;;
  match l with
  | LoopClosed => raise (mk_exception RuntimeError "Event loop is closed")
  | LoopRunning => raise (mk_exception RuntimeError "This event loop is already running")
  | LoopIdle | LoopPending _ =>
      modify (set_event_loop LoopRunning) ;;;
      fun s =>
        let '(p, s1) := coro s in
        let '(escaped, suspended, s2) :=
          match p with
          | Ended (Raise e) =>
              if leaves_loop e then (Some e, held l, s1) else resume_all (held l) s1
          | _ => resume_all (held l) s1
          end in
        let suspended :=
          match p with
          | Suspended call => (suspended ++ [call])%list
          | Ended _ => suspended
          end in
        (match escaped, p with
         | Some e, _ => Raise e
         | None, Ended o => o
         | None, Suspended _ => Raise keyboard_interrupt
         end,
         set_event_loop (holding suspended) s2)
  end.

(** [AgentSession.execute]. *)
Definition execute (agent : Agent) (user_input : string) : M string :=
  run_until_complete (execute_async agent user_input).

(** [AgentSession.interrupt]. *)
Definition interrupt : M unit :=
  busy <- get executing ;;
  if (busy : bool) then modify (set_interrupted true) else ret tt.




(** The session after a call that started and ended: the flags as the call
    left them and the input among the calls of the agent. *)
Definition after_call (user_input : string) (interrupted' : bool) (s : AgentSession)
    : AgentSession :=
  mk_session false interrupted' (_enable_debug_logging s) (_event_loop s)
             (agent_calls s ++ [user_input]).

(** The session while a call that started is suspended at its [await]. *)
Definition in_flight (user_input : string) (s : AgentSession) : AgentSession :=
  mk_session true false (_enable_debug_logging s) (_event_loop s)
             (agent_calls s ++ [user_input]).

End Gate.

(** ** Text helpers *)

(** Strings are sequences of characters; one [ascii] stands for one Python
    character. *)

Fixpoint str_repeat (s : string) (n : nat) : string :=
  match n with
  | O => ""
  | S n' => s ++ str_repeat s n'
  end.

(** ["sep".join(parts)]. *)
Fixpoint str_join (sep : string) (parts : list string) : string :=
  match parts with
  | [] => ""
  | [p] => p
  | p :: rest => p ++ sep ++ str_join sep rest
  end.

(** [s[:n]] for [n >= 0]. *)
Definition str_take (n : nat) (s : string) : string := substring 0 n s.

(** [s.endswith(suffix)]. *)
Definition endswith (s suffix : string) : bool :=
  let n := String.length s in
  let k := String.length suffix in
  (k <=? n)%nat && String.eqb (substring (n - k) k s) suffix.

(** [c in s] for a one-character [c]. *)
Fixpoint str_contains_char (c : ascii) (s : string) : bool :=
  match s with
  | EmptyString => false
  | String c' s' => Ascii.eqb c c' || str_contains_char c s'
  end.

(** The last character of [s]. *)
Fixpoint str_last (s : string) : option ascii :=
  match s with
  | EmptyString => None
  | String c EmptyString => Some c
  | String _ s' => str_last s'
  end.

(** [c.upper()] for a character below 256, which is a string: the small
    letters of ASCII and of Latin-1 have their capital 32 places before
    them, and the capital of [ß] is [SS].  The capitals of [µ] and of [ÿ]
    are U+039C and U+0178, which are no characters below 256: these two
    letters are left as they are, and [upper_below_256] tells the strings
    without them, on which [str_upper] is [str.upper()]. *)
Definition char_upper (c : ascii) : string :=
  let n := nat_of_ascii c in
  if ((97 <=? n) && (n <=? 122) ||
      (224 <=? n) && (n <=? 254) && negb (n =? 247))%nat
  then String (ascii_of_nat (n - 32)) EmptyString
  else if (n =? 223)%nat then "SS"
  else String c EmptyString.

Fixpoint str_upper (s : string) : string :=
  match s with
  | EmptyString => EmptyString
  | String c s' => char_upper c ++ str_upper s'
  end.

Fixpoint upper_below_256 (s : string) : bool :=
  match s with
  | EmptyString => true
  | String c s' =>
      negb ((nat_of_ascii c =? 181) || (nat_of_ascii c =? 255))%nat && upper_below_256 s'
  end.

(** [str(n)] of a natural number. *)
Definition str_of_nat (n : nat) : string := NilZero.string_of_uint (Nat.to_uint n).

(** [repr(s)] of a string without quotes or escapes in it. *)
Definition repr (s : string) : string := "'" ++ s ++ "'".

Definition digit (n : N) : ascii := ascii_of_N (48 + n mod 10).

(** [n] in decimal on exactly [width] digits (the low [width] digits). *)
Fixpoint zfill (width : nat) (n : N) : string :=
  match width with
  | O => ""
  | S w => String (digit (n / 10 ^ N.of_nat w)) (zfill w n)
  end.

Definition digit_value (c : ascii) : option N :=
  let n := N_of_ascii c in
  if ((48 <=? n) && (n <=? 57))%N then Some (n - 48)%N else None.

(** Reads exactly [width] decimal digits off the front of [s]. *)
Fixpoint read_digits (width : nat) (acc : N) (s : string) : option (N * string) :=
  match width with
  | O => Some (acc, s)
  | S w =>
      match s with
      | EmptyString => None
      | String c s' =>
          match digit_value c with
          | Some d => read_digits w (acc * 10 + d)%N s'
          | None => None
          end
      end
  end.

(** Reads the one character [c] off the front of [s]. *)
Definition read_char (c : ascii) (s : string) : option string :=
  match s with
  | String c' s' => if Ascii.eqb c c' then Some s' else None
  | EmptyString => None
  end.

(** ** Naive datetimes *)

(** [datetime.datetime] without [tzinfo], which is all that
    [datetime.now()] produces. *)
Record datetime := mk_datetime {
  year : N;
  month : N;
  day : N;
  hour : N;
  minute : N;
  second : N;
  microsecond : N;
}.

Definition is_leap (y : N) : bool :=
  ((y mod 4 =? 0) && (negb (y mod 100 =? 0) || (y mod 400 =? 0)))%N.

Definition days_in_month (y m : N) : N :=
  (if m =? 2 then (if is_leap y then 29 else 28)
   else if (m =? 4) || (m =? 6) || (m =? 9) || (m =? 11) then 30
   else 31)%N.

(** The ranges that the [datetime] constructor enforces. *)
Definition valid_datetime (d : datetime) : bool :=
  ((1 <=? year d) && (year d <=? 9999) &&
   (1 <=? month d) && (month d <=? 12) &&
   (1 <=? day d) && (day d <=? days_in_month (year d) (month d)) &&
   (hour d <? 24) && (minute d <? 60) && (second d <? 60) &&
   (microsecond d <? 1000000))%N.

(** [d.isoformat()]: the fraction is left out when [microsecond] is zero. *)
Definition isoformat (d : datetime) : string :=
  zfill 4 (year d) ++ "-" ++ zfill 2 (month d) ++ "-" ++ zfill 2 (day d) ++ "T" ++
  zfill 2 (hour d) ++ ":" ++ zfill 2 (minute d) ++ ":" ++ zfill 2 (second d) ++
  (if (microsecond d =? 0)%N then "" else "." ++ zfill 6 (microsecond d)).

(** [d.strftime("%Y-%m-%d %H:%M:%S")], [d.strftime("%H:%M:%S")] and
    [d.strftime("%Y%m%d_%H%M%S")]. *)
Definition strftime_date_time (d : datetime) : string :=
  zfill 4 (year d) ++ "-" ++ zfill 2 (month d) ++ "-" ++ zfill 2 (day d) ++ " " ++
  zfill 2 (hour d) ++ ":" ++ zfill 2 (minute d) ++ ":" ++ zfill 2 (second d).
Definition strftime_time (d : datetime) : string :=
  zfill 2 (hour d) ++ ":" ++ zfill 2 (minute d) ++ ":" ++ zfill 2 (second d).
Definition strftime_compact (d : datetime) : string :=
  zfill 4 (year d) ++ zfill 2 (month d) ++ zfill 2 (day d) ++ "_" ++
  zfill 2 (hour d) ++ zfill 2 (minute d) ++ zfill 2 (second d).

(** [datetime.fromisoformat] is a library function whose set of accepted
    spellings grew over the Python versions; the code is modelled over any
    such parser, [None] standing for [ValueError]. *)
Definition iso_parser := string -> option datetime.

(** The contract the round trip needs: the parser reads back what
    [isoformat] writes. *)
Definition reads_isoformat (parse : iso_parser) : Prop :=
  forall d, valid_datetime d = true -> parse (isoformat d) = Some d.

(** A parser for the spellings [YYYY-MM-DD], [YYYY-MM-DD?HH:MM:SS] and
    [YYYY-MM-DD?HH:MM:SS.ffffff], where [?] is any one character: those that
    every Python from 3.7 on reads. *)
Definition parse_time (s : string) : option (N * N * N * N) :=
  '(h, s) ← read_digits 2 0 s;
  s ← read_char ":" s;
  '(mi, s) ← read_digits 2 0 s;
  s ← read_char ":" s;
  '(sec, s) ← read_digits 2 0 s;
  match s with
  | EmptyString => Some (h, mi, sec, 0%N)
  | String c s' =>
      if Ascii.eqb c "." then
        '(us, s'') ← read_digits 6 0 s';
        match s'' with
        | EmptyString => Some (h, mi, sec, us)
        | _ => None
        end
      else None
  end.

Definition fromisoformat_basic : iso_parser := fun s =>
  '(y, s) ← read_digits 4 0 s;
  s ← read_char "-" s;
  '(m, s) ← read_digits 2 0 s;
  s ← read_char "-" s;
  '(d, s) ← read_digits 2 0 s;
  '(h, mi, sec, us) ←
    match s with
    | EmptyString => Some (0, 0, 0, 0)%N
    | String _ s' => parse_time s'
    end;
  let dt := mk_datetime y m d h mi sec us in
  if valid_datetime dt then Some dt else None.

(** Naive datetimes compare field by field, most significant first. *)
Fixpoint lex_leb (a b : list N) : bool :=
  match a, b with
  | [], _ => true
  | _ :: _, [] => false
  | x :: a', y :: b' => (x <? y)%N || ((x =? y)%N && lex_leb a' b')
  end.

Definition datetime_fields (d : datetime) : list N :=
  [year d; month d; day d; hour d; minute d; second d; microsecond d].

(** [a <= b] on datetimes. *)
Definition datetime_leb (a b : datetime) : bool :=
  lex_leb (datetime_fields a) (datetime_fields b).
Definition datetime_le (a b : datetime) : Prop := datetime_leb a b = true.

(** ** JSON values *)

(** A finite binary floating-point number, [float_mantissa * 2 ^ float_exponent].
    JSON has no spelling for the infinities and NaN. *)
Record float := mk_float { float_mantissa : Z; float_exponent : Z }.

(** What [json.load] returns and [json.dump] accepts without loss: [None],
    [bool], [int], finite [float], [str], [list], and [dict] with string keys
    (an association list in insertion order; a lookup takes the first
    binding of the key). *)
#[local] Set Warnings "-register-all".
Inductive json :=
  | JNull
  | JBool (b : bool)
  | JInt (z : Z)
  | JFloat (f : float)
  | JString (s : string)
  | JArray (items : list json)
  | JObject (members : list (string * json)).

Fixpoint assoc (key : string) (members : list (string * json)) : option json :=
  match members with
  | [] => None
  | (k, v) :: rest => if String.eqb key k then Some v else assoc key rest
  end.

(** [type(v).__name__]. *)
Definition type_name (v : json) : string :=
  match v with
  | JNull => "NoneType"
  | JBool _ => "bool"
  | JInt _ => "int"
  | JFloat _ => "float"
  | JString _ => "str"
  | JArray _ => "list"
  | JObject _ => "dict"
  end.

(** [bool(v)]. *)
Definition truthy (v : json) : bool :=
  match v with
  | JNull => false
  | JBool b => b
  | JInt z => negb (z =? 0)%Z
  | JFloat f => negb (float_mantissa f =? 0)%Z
  | JString s => negb (String.eqb s "")
  | JArray items => match items with [] => false | _ => true end
  | JObject members => match members with [] => false | _ => true end
  end.

Definition key_error (key : string) : exception := mk_exception KeyError (repr key).

(** [data[key]] for a string [key]. *)
Definition subscript (data : json) (key : string) : outcome json :=
  match data with
  | JObject members =>
      match assoc key members with
      | Some v => Ok v
      | None => Raise (key_error key)
      end
  | JArray _ =>
      Raise (mk_exception TypeError "list indices must be integers or slices, not str")
  | JString _ =>
      Raise (mk_exception TypeError "string indices must be integers, not 'str'")
  | _ =>
      Raise (mk_exception TypeError (repr (type_name data) ++ " object is not subscriptable"))
  end.

(** [data.get(key, default)]. *)
Definition dict_get (data : json) (key : string) (default : json) : outcome json :=
  match data with
  | JObject members =>
      match assoc key members with
      | Some v => Ok v
      | None => Ok default
      end
  | _ =>
      Raise (mk_exception AttributeError
               (repr (type_name data) ++ " object has no attribute 'get'"))
  end.

Fixpoint str_chars (s : string) : list string :=
  match s with
  | EmptyString => []
  | String c s' => String c EmptyString :: str_chars s'
  end.

(** The items that [for x in v] goes through. *)
Definition iterate (v : json) : outcome (list json) :=
  match v with
  | JArray items => Ok items
  | JObject members => Ok (map (fun kv => JString (fst kv)) members)
  | JString s => Ok (map JString (str_chars s))
  | _ => Raise (mk_exception TypeError (repr (type_name v) ++ " object is not iterable"))
  end.

(** [datetime.fromisoformat(v)].  For a well-formed string that names an
    impossible date Python's message names the field instead; only the class
    of the exception matters below. *)
Definition datetime_fromisoformat (parse : iso_parser) (v : json) : outcome datetime :=
  match v with
  | JString s =>
      match parse s with
      | Some d => Ok d
      | None => Raise (mk_exception ValueError ("Invalid isoformat string: " ++ repr s))
      end
  | _ => Raise (mk_exception TypeError "fromisoformat: argument must be str")
  end.

(** Python does not check the declared type of a field when an object is
    built: [from_dict] on a document whose ["role"] is a number returns an
    object holding that number.  The records below are typed, so [from_dict]
    first runs the lookups and conversions in the order Python evaluates them,
    which decides whether and what it raises, and then reads the values at
    their declared types; [None] stands for an object that was built but holds
    a value outside its declared type. *)
Definition as_str (v : json) : option string :=
  match v with
  | JString s => Some s
  | _ => None
  end.

Definition as_optional_str (v : json) : option (option string) :=
  match v with
  | JNull => Some None
  | JString s => Some (Some s)
  | _ => None
  end.

(** An [int] is accepted where a [float] is declared. *)
Definition as_float (v : json) : option float :=
  match v with
  | JFloat f => Some f
  | JInt z => Some (mk_float z 0)
  | _ => None
  end.

Definition optional_str_json (o : option string) : json :=
  match o with
  | None => JNull
  | Some s => JString s
  end.

(** [all] of the items are well typed. *)
Fixpoint sequence_typed {A} (l : list (option A)) : option (list A) :=
  match l with
  | [] => Some []
  | x :: rest =>
      a ← x;
      r ← sequence_typed rest;
      Some (a :: r)
  end.

(** ** The transcript model ([state/session.py]) *)

Module ConversationMessage.

Record t := mk {
  role : string;
  content : string;
  timestamp : datetime;
  metadata : json;
  tool_calls : json;
}.

Definition to_dict (self : t) : json :=
  JObject [
    ("role", JString (role self));
    ("content", JString (content self));
    ("timestamp", JString (isoformat (timestamp self)));
    ("metadata", metadata self);
    ("tool_calls", tool_calls self)
  ].

Definition from_dict (parse : iso_parser) (data : json) : outcome (option t) :=
  role_ ← subscript data "role";
  content_ ← subscript data "content";
  timestamp_text ← subscript data "timestamp";
  timestamp_ ← datetime_fromisoformat parse timestamp_text;
  metadata_ ← dict_get data "metadata" (JObject []);
  tool_calls_ ← dict_get data "tool_calls" JNull;
  Ok (r ← as_str role_;
      c ← as_str content_;
      Some (mk r c timestamp_ metadata_ tool_calls_)).

End ConversationMessage.

Module ToolExecution.

Record t := mk {
  tool_name : string;
  arguments : json;
  result : string;
  execution_time : float;
  timestamp : datetime;
  error : option string;
}.

Definition to_dict (self : t) : json :=
  JObject [
    ("tool_name", JString (tool_name self));
    ("arguments", arguments self);
    ("result", JString (result self));
    ("execution_time", JFloat (execution_time self));
    ("timestamp", JString (isoformat (timestamp self)));
    ("error", optional_str_json (error self))
  ].

Definition from_dict (parse : iso_parser) (data : json) : outcome (option t) :=
  tool_name_ ← subscript data "tool_name";
  arguments_ ← subscript data "arguments";
  result_ ← subscript data "result";
  execution_time_ ← subscript data "execution_time";
  timestamp_text ← subscript data "timestamp";
  timestamp_ ← datetime_fromisoformat parse timestamp_text;
  error_ ← dict_get data "error" JNull;
  Ok (n ← as_str tool_name_;
      r ← as_str result_;
      x ← as_float execution_time_;
      e ← as_optional_str error_;
      Some (mk n arguments_ r x timestamp_ e)).

End ToolExecution.

Module SessionState.

Record t := mk {
  session_id : string;
  created_at : datetime;
  updated_at : datetime;
  messages : list ConversationMessage.t;
  tool_executions : list ToolExecution.t;
  current_agent : string;
  current_model : string;
  metadata : json;
}.

Definition set_updated_at (d : datetime) (s : t) : t :=
  mk (session_id s) (created_at s) d (messages s) (tool_executions s)
     (current_agent s) (current_model s) (metadata s).
Definition set_messages (l : list ConversationMessage.t) (s : t) : t :=
  mk (session_id s) (created_at s) (updated_at s) l (tool_executions s)
     (current_agent s) (current_model s) (metadata s).
Definition set_tool_executions (l : list ToolExecution.t) (s : t) : t :=
  mk (session_id s) (created_at s) (updated_at s) (messages s) l
     (current_agent s) (current_model s) (metadata s).
Definition set_current_agent (a : string) (s : t) : t :=
  mk (session_id s) (created_at s) (updated_at s) (messages s) (tool_executions s)
     a (current_model s) (metadata s).
Definition set_current_model (m : string) (s : t) : t :=
  mk (session_id s) (created_at s) (updated_at s) (messages s) (tool_executions s)
     (current_agent s) m (metadata s).

Definition to_dict (self : t) : json :=
  JObject [
    ("session_id", JString (session_id self));
    ("created_at", JString (isoformat (created_at self)));
    ("updated_at", JString (isoformat (updated_at self)));
    ("messages", JArray (map ConversationMessage.to_dict (messages self)));
    ("tool_executions", JArray (map ToolExecution.to_dict (tool_executions self)));
    ("current_agent", JString (current_agent self));
    ("current_model", JString (current_model self));
    ("metadata", metadata self)
  ].

Definition from_dict (parse : iso_parser) (data : json) : outcome (option t) :=
  session_id_ ← subscript data "session_id";
  created_text ← subscript data "created_at";
  created_at_ ← datetime_fromisoformat parse created_text;
  updated_text ← subscript data "updated_at";
  updated_at_ ← datetime_fromisoformat parse updated_text;
  messages_json ← dict_get data "messages" (JArray []);
  message_items ← iterate messages_json;
  messages_ ← mapM (ConversationMessage.from_dict parse) message_items;
  tools_json ← dict_get data "tool_executions" (JArray []);
  tool_items ← iterate tools_json;
  tool_executions_ ← mapM (ToolExecution.from_dict parse) tool_items;
  current_agent_ ← dict_get data "current_agent" (JString "react");
  current_model_ ← dict_get data "current_model" (JString "claude-sonnet-4");
  metadata_ ← dict_get data "metadata" (JObject []);
  Ok (sid ← as_str session_id_;
      ms ← sequence_typed messages_;
      ts ← sequence_typed tool_executions_;
      a ← as_str current_agent_;
      m ← as_str current_model_;
      Some (mk sid created_at_ updated_at_ ms ts a m metadata_)).

(** Every datetime of the session is one that the [datetime] constructor
    accepts. *)
Definition valid_timestamps (s : t) : bool :=
  valid_datetime (created_at s) && valid_datetime (updated_at s) &&
  forallb (fun msg => valid_datetime (ConversationMessage.timestamp msg)) (messages s) &&
  forallb (fun tool => valid_datetime (ToolExecution.timestamp tool)) (tool_executions s).

End SessionState.

(** ** The session store: [SessionManager] ([state/session.py]) *)

(** Python list slicing.  An index below zero counts from the end, and every
    index is clamped to the list. *)
Definition slice_index (n : nat) (i : Z) : nat :=
  Z.to_nat (if (i <? 0)%Z then Z.max 0 (i + Z.of_nat n) else Z.min i (Z.of_nat n)).

(** [l[i:]] and [l[:j]]. *)
Definition slice_from {A} (l : list A) (i : Z) : list A :=
  drop (slice_index (length l) i) l.
Definition slice_to {A} (l : list A) (j : Z) : list A :=
  take (slice_index (length l) j) l.

(** [if n:] for an [Optional[int]]: [None] and [0] are both false. *)
Definition given (n : option Z) : bool :=
  match n with
  | None => false
  | Some z => negb (z =? 0)%Z
  end.

Module SessionManager.

Record t := mk { session_state : SessionState.t }.

Definition M (A : Type) : Type := SE t A.

Definition update_state (f : SessionState.t -> SessionState.t) : M unit :=
  modify (fun self => mk (f (session_state self))).

(** [SessionManager(agent_type, model)]: the two timestamps of the fresh
    [SessionState] are two readings of the clock, [created_at] first. *)
Definition init (session_id : string) (t_created t_updated : datetime)
    (agent_type model : string) : t :=
  mk (SessionState.mk session_id t_created t_updated [] [] agent_type model (JObject [])).

(** [add_message].  [metadata] and [tool_calls] are [JNull] for [None];
    [t_message] is the clock reading that stamps the message, [t_updated]
    the later one stored in [updated_at]. *)
Definition add_message (role content : string) (metadata tool_calls : json)
    (t_message t_updated : datetime) : M unit :=
  let message :=
    ConversationMessage.mk role content t_message
      (if truthy metadata then metadata else JObject []) tool_calls in
  update_state (fun st => SessionState.set_messages (SessionState.messages st ++ [message]) st) ;;;
  update_state (SessionState.set_updated_at t_updated).

Definition add_tool_execution (tool_name : string) (arguments : json) (result : string)
    (execution_time : float) (error : option string)
    (t_tool t_updated : datetime) : M unit :=
  let tool_execution :=
    ToolExecution.mk tool_name arguments result execution_time t_tool error in
  update_state (fun st =>
    SessionState.set_tool_executions (SessionState.tool_executions st ++ [tool_execution]) st) ;;;
  update_state (SessionState.set_updated_at t_updated).

Definition get_messages (limit : option Z) (offset : Z) : M (list ConversationMessage.t) :=
  st <- get session_state ;;
  let messages := slice_from (SessionState.messages st) offset in
  let messages :=
    if given limit then slice_to messages (default 0%Z limit) else messages in
  ret messages.

(** One entry of the context: the dict [{"role": ..., "content": ...}]. *)
Record context_entry := mk_entry { entry_role : string; entry_content : string }.

Definition content_chars (context : list context_entry) : Z :=
  Z.of_nat (sum_list_with (fun e => String.length (entry_content e)) context).

(** The [while context and total_chars > budget] loop: one iteration pops
    the head. *)
Fixpoint remove_oldest (budget : Z) (context : list context_entry) (total_chars : Z)
    : list context_entry :=
  match context with
  | [] => []
  | removed :: rest =>
      if (total_chars >? budget)%Z then
        remove_oldest budget rest (total_chars - Z.of_nat (String.length (entry_content removed)))
      else context
  end.

Definition get_context (max_tokens : option Z) : M (list context_entry) :=
  st <- get session_state ;;
  let context :=
    fold_left
      (fun context msg =>
         (context ++ [mk_entry (ConversationMessage.role msg)
                               (ConversationMessage.content msg)])%list)
      (SessionState.messages st) [] in
  if given max_tokens then
    let budget := (default 0 max_tokens * 4)%Z in
    let total_chars := content_chars context in
    if (total_chars >? budget)%Z then ret (remove_oldest budget context total_chars)
    else ret context
  else ret context.

Definition clear_history (t_updated : datetime) : M unit :=
  update_state (SessionState.set_messages []) ;;;
  update_state (SessionState.set_tool_executions []) ;;;
  update_state (SessionState.set_updated_at t_updated).

Definition get_session_state : M SessionState.t := get session_state.

Definition load_session_state (session_state : SessionState.t) : M unit :=
  modify (fun _ => mk session_state).

Definition update_agent (agent_type : string) (t_updated : datetime) : M unit :=
  update_state (SessionState.set_current_agent agent_type) ;;;
  update_state (SessionState.set_updated_at t_updated).

Definition update_model (model : string) (t_updated : datetime) : M unit :=
  update_state (SessionState.set_current_model model) ;;;
  update_state (SessionState.set_updated_at t_updated).

(** A mutation of the store with the clock readings it takes. *)
Inductive mutation :=
  | AddMessage (role content : string) (metadata tool_calls : json)
               (t_message t_updated : datetime)
  | AddToolExecution (tool_name : string) (arguments : json) (result : string)
                     (execution_time : float) (error : option string)
                     (t_tool t_updated : datetime)
  | ClearHistory (t_updated : datetime)
  | UpdateAgent (agent_type : string) (t_updated : datetime)
  | UpdateModel (model : string) (t_updated : datetime).

Definition apply (m : mutation) : M unit :=
  match m with
  | AddMessage r c md tc t1 t2 => add_message r c md tc t1 t2
  | AddToolExecution n a r x e t1 t2 => add_tool_execution n a r x e t1 t2
  | ClearHistory t2 => clear_history t2
  | UpdateAgent a t2 => update_agent a t2
  | UpdateModel m t2 => update_model m t2
  end.

(** The calls of a list, one after the other; a call that raises ends the
    run. *)
Fixpoint run (ms : list mutation) : M unit :=
  match ms with
  | [] => ret tt
  | m :: rest => apply m ;;; run rest
  end.

(** The clock readings of a mutation, in the order they are taken. *)
Definition readings (m : mutation) : list datetime :=
  match m with
  | AddMessage _ _ _ _ t1 t2 => [t1; t2]
  | AddToolExecution _ _ _ _ _ t1 t2 => [t1; t2]
  | ClearHistory t2 => [t2]
  | UpdateAgent _ t2 => [t2]
  | UpdateModel _ t2 => [t2]
  end.

(** The message that an [add_message] call stores. *)
Definition message_of (m : mutation) : option ConversationMessage.t :=
  match m with
  | AddMessage r c md tc t1 _ =>
      Some (ConversationMessage.mk r c t1 (if truthy md then md else JObject []) tc)
  | _ => None
  end.

(** The sessions that a list of calls goes through, one per call. *)
Fixpoint states_after (ms : list mutation) (self : t) : list t :=
  match ms with
  | [] => []
  | m :: rest =>
      let self' := snd (apply m self) in
      self' :: states_after rest self'
  end.

(** The roles that the data model names. *)
Definition known_role (role : string) : bool :=
  String.eqb role "user" || String.eqb role "agent" || String.eqb role "system".

(** The role and content of every message, in the order of the transcript. *)
Definition projection (st : SessionState.t) : list context_entry :=
  map (fun msg => mk_entry (ConversationMessage.role msg) (ConversationMessage.content msg))
      (SessionState.messages st).

Definition updated_at (self : t) : datetime := SessionState.updated_at (session_state self).
Definition created_at (self : t) : datetime := SessionState.created_at (session_state self).
Definition messages (self : t) : list ConversationMessage.t :=
  SessionState.messages (session_state self).

(** Every call of [add_message] with this role raises. *)
Definition add_message_rejects (role : string) : Prop :=
  forall content metadata tool_calls t_message t_updated self,
    exists e, fst (add_message role content metadata tool_calls t_message t_updated self)
              = Raise e.

End SessionManager.

(** Successive clock readings that never go back. *)
Fixpoint nondecreasing (l : list datetime) : bool :=
  match l with
  | [] => true
  | a :: rest =>
      match rest with
      | [] => true
      | b :: _ => datetime_leb a b && nondecreasing rest
      end
  end.

(** ** The persistence layer: [SessionPersistence] ([state/persistence.py]) *)

Definition newline : string := String (ascii_of_nat 10) EmptyString.

(** The icons of the markdown headings, as they stand in the source file. *)
Definition icon_user : string := "ðŸ‘¤".
Definition icon_agent : string := "ðŸ¤–".
Definition icon_system : string := "ðŸ”§".
Definition icon_tools : string := "ðŸ› ï¸".

(** Library formatters whose exact output the code does not look at:
    [json.dumps(v, indent=2)] and the format [{x:.2f}] of a float. *)
Record formatters := mk_formatters {
  json_dumps_indent : json -> string;
  format_2f : float -> string;
}.

Module SessionPersistence.

(** What a file holds.  [JsonFile v] is the text that [json.dump] writes for
    [v], which [json.load] reads back as [v]; [TextFile s] is a text [s]
    that [json.load] rejects, as it does the markdown and plain exports,
    which start with [#] and [=].  Files that cannot be opened or decoded as
    UTF-8 are not modelled. *)
Inductive file :=
  | TextFile (text : string)
  | JsonFile (document : json).

(** The file system: paths, compared as written, to files.  Directories are
    implicit and a write always goes through. *)
Definition M (A : Type) : Type := SE (gmap string file) A.

Record t := mk { history_dir : string }.

(** [dir / name] for a relative [name]. *)
Definition path_join (dir name : string) : string := dir ++ "/" ++ name.

(** [open(path, "r")]. *)
Definition open_read (path : string) : M file :=
  fs <- get id ;;
  match fs !! path with
  | Some f => ret f
  | None =>
      raise (mk_exception FileNotFoundError
               ("[Errno 2] No such file or directory: " ++ repr path))
  end.

(** [open(path, "w")] followed by the write of the whole content. *)
Definition write_file (path : string) (f : file) : M unit :=
  modify (fun fs => <[path := f]> fs).

(** [json.load(f)]. *)
Definition json_load (f : file) : M json :=
  match f with
  | JsonFile document => ret document
  | TextFile _ =>
      raise (mk_exception JSONDecodeError "Expecting value: line 1 column 1 (char 0)")
  end.

Definition lift {A} (o : outcome A) : M A := fun fs => (o, fs).

(** [if path:] for an [Optional[str]]: [None] and the empty string are both
    false. *)
Definition path_given (path : option string) : bool :=
  match path with
  | None => false
  | Some p => negb (String.eqb p "")
  end.

(** [save_session].  [Path(path)] is the path as it is written, and
    [mkdir(parents=True, exist_ok=True)] has nothing to do where directories
    are implicit. *)
Definition save_session (self : t) (session_state : SessionState.t)
    (path : option string) : M string :=
  let save_path :=
    if path_given path then default "" path
    else
      let timestamp := strftime_compact (SessionState.created_at session_state) in
      let filename :=
        "session_" ++ str_take 8 (SessionState.session_id session_state) ++ "_" ++
        timestamp ++ ".json" in
      path_join (history_dir self) filename in
  write_file save_path (JsonFile (SessionState.to_dict session_state)) ;;;
  ret save_path.

(** What [load_session] hands back when it does not return [None]. *)
Inductive loaded :=
  | Session (session_state : SessionState.t)
  | IllTypedSession.

Definition loaded_of (o : option SessionState.t) : loaded :=
  match o with
  | Some st => Session st
  | None => IllTypedSession
  end.

(** The classes named by [except (FileNotFoundError, json.JSONDecodeError,
    KeyError)]. *)
Definition load_session_catches (e : exception) : bool :=
  match exc_cls e with
  | FileNotFoundError | JSONDecodeError | KeyError => true
  | _ => false
  end.

(** [load_session]: [None] is Python's [None].  The [print] of the handler
    writes to the standard output only and is left out. *)
Definition load_session (parse : iso_parser) (path : string) : M (option loaded) :=
  try_except
    (f <- open_read path ;;
     data <- json_load f ;;
     st <- lift (SessionState.from_dict parse data) ;;
     ret (Some (loaded_of st)))
    (fun e => if load_session_catches e then Some (ret None) else None).

Definition append (lines : list string) (line : string) : list string :=
  (lines ++ [line])%list.

(** The list [lines] of [_format_markdown] when it reaches its [return]. *)
Definition _format_markdown_lines (lib : formatters) (session_state : SessionState.t)
    : list string :=
  let lines := [] in
  let lines := append lines "# Orbiton Agent Conversation" in
  let lines := append lines "" in
  let lines := append lines ("**Session ID:** " ++ SessionState.session_id session_state) in
  let lines := append lines
    ("**Created:** " ++ strftime_date_time (SessionState.created_at session_state)) in
  let lines := append lines
    ("**Updated:** " ++ strftime_date_time (SessionState.updated_at session_state)) in
  let lines := append lines ("**Agent:** " ++ SessionState.current_agent session_state) in
  let lines := append lines ("**Model:** " ++ SessionState.current_model session_state) in
  let lines := append lines "" in
  let lines := append lines "---" in
  let lines := append lines "" in
  let lines :=
    fold_left
      (fun lines msg =>
         let timestamp := strftime_time (ConversationMessage.timestamp msg) in
         if String.eqb (ConversationMessage.role msg) "user" then
           let lines := append lines ("## " ++ icon_user ++ " User [" ++ timestamp ++ "]") in
           let lines := append lines "" in
           let lines := append lines (ConversationMessage.content msg) in
           append lines ""
         else if String.eqb (ConversationMessage.role msg) "agent" then
           let lines := append lines ("## " ++ icon_agent ++ " Agent [" ++ timestamp ++ "]") in
           let lines := append lines "" in
           let lines := append lines (ConversationMessage.content msg) in
           append lines ""
         else if String.eqb (ConversationMessage.role msg) "system" then
           let lines := append lines ("## " ++ icon_system ++ " System [" ++ timestamp ++ "]") in
           let lines := append lines "" in
           let lines := append lines (ConversationMessage.content msg) in
           append lines ""
         else lines)
      (SessionState.messages session_state) lines in
  match SessionState.tool_executions session_state with
  | [] => lines
  | _ :: _ =>
      let lines := append lines "---" in
      let lines := append lines "" in
      let lines := append lines
        ("## " ++ icon_tools ++ " Tool Executions (" ++
         str_of_nat (length (SessionState.tool_executions session_state)) ++ ")") in
      let lines := append lines "" in
      fold_left
        (fun lines tool =>
           let timestamp := strftime_time (ToolExecution.timestamp tool) in
           let lines := append lines
             ("### " ++ ToolExecution.tool_name tool ++ " [" ++ timestamp ++ "]") in
           let lines := append lines "" in
           let lines := append lines "**Arguments:**" in
           let lines := append lines "```json" in
           let lines := append lines (json_dumps_indent lib (ToolExecution.arguments tool)) in
           let lines := append lines "```" in
           let lines := append lines "" in
           let lines := append lines
             ("**Result:** " ++ str_take 200 (ToolExecution.result tool) ++ "...") in
           let lines := append lines "" in
           let lines := append lines
             ("**Execution Time:** " ++ format_2f lib (ToolExecution.execution_time tool) ++ "s") in
           let lines :=
             match ToolExecution.error tool with
             | Some err =>
                 if negb (String.eqb err "") then
                   let lines := append lines "" in
                   append lines ("**Error:** " ++ err)
                 else lines
             | None => lines
             end in
           append lines "")
        (SessionState.tool_executions session_state) lines
  end.

Definition _format_markdown (lib : formatters) (session_state : SessionState.t) : string :=
  str_join newline (_format_markdown_lines lib session_state).

(** The list [lines] of [_format_text] when it reaches its [return]. *)
Definition _format_text_lines (session_state : SessionState.t) : list string :=
  let lines := [] in
  let lines := append lines (str_repeat "=" 80) in
  let lines := append lines "ORBITON AGENT CONVERSATION" in
  let lines := append lines (str_repeat "=" 80) in
  let lines := append lines ("Session ID: " ++ SessionState.session_id session_state) in
  let lines := append lines
    ("Created: " ++ strftime_date_time (SessionState.created_at session_state)) in
  let lines := append lines
    ("Updated: " ++ strftime_date_time (SessionState.updated_at session_state)) in
  let lines := append lines ("Agent: " ++ SessionState.current_agent session_state) in
  let lines := append lines ("Model: " ++ SessionState.current_model session_state) in
  let lines := append lines (str_repeat "=" 80) in
  let lines := append lines "" in
  fold_left
    (fun lines msg =>
       let timestamp := strftime_time (ConversationMessage.timestamp msg) in
       let role_display :=
         if String.eqb (ConversationMessage.role msg) "user" then "USER"
         else if String.eqb (ConversationMessage.role msg) "agent" then "AGENT"
         else if String.eqb (ConversationMessage.role msg) "system" then "SYSTEM"
         else str_upper (ConversationMessage.role msg) in
       let lines := append lines ("[" ++ timestamp ++ "] " ++ role_display ++ ":") in
       let lines := append lines (ConversationMessage.content msg) in
       let lines := append lines "" in
       let lines := append lines (str_repeat "-" 80) in
       append lines "")
    (SessionState.messages session_state) lines.

Definition _format_text (session_state : SessionState.t) : string :=
  str_join newline (_format_text_lines session_state).

(** Where an export goes: a file name with a separator in it is taken as it
    is, any other is put under the current directory [cwd]. *)
Definition locate_export (cwd filename : string) : string :=
  if str_contains_char "/" filename || str_contains_char "\" filename then filename
  else path_join cwd filename.

(** [export_session].  [format] is [None] when the caller leaves the
    argument out, which then takes its default ["md"]; [cwd] is
    [Path.cwd()]. *)
Definition export_session (lib : formatters) (cwd : string)
    (session_state : SessionState.t) (filename : string) (format : option string)
    : M string :=
  let format := default "md" format in
  let filename :=
    if String.eqb format "md" && negb (endswith filename ".md") then filename ++ ".md"
    else if String.eqb format "json" && negb (endswith filename ".json") then
      filename ++ ".json"
    else if String.eqb format "txt" && negb (endswith filename ".txt") then
      filename ++ ".txt"
    else filename in
  let export_path := locate_export cwd filename in
  let content :=
    if String.eqb format "md" then TextFile (_format_markdown lib session_state)
    else if String.eqb format "json" then JsonFile (SessionState.to_dict session_state)
    else TextFile (_format_text session_state) in
  write_file export_path content ;;;
  ret export_path.

Definition auto_save (self : t) (session_state : SessionState.t) : M (option string) :=
  match SessionState.messages session_state with
  | [] => ret None
  | _ :: _ =>
      save_path <- save_session self session_state None ;;
      ret (Some save_path)
  end.

(** *** The shape of a document and of the markdown export *)

(** [v] is a dict without the key [key]. *)
Definition object_lacks (v : json) (key : string) : Prop :=
  exists members, v = JObject members /\ assoc key members = None.



(** The header block of the markdown export. *)
Definition markdown_header (session_state : SessionState.t) : list string :=
  ["# Orbiton Agent Conversation";
   "";
   "**Session ID:** " ++ SessionState.session_id session_state;
   "**Created:** " ++ strftime_date_time (SessionState.created_at session_state);
   "**Updated:** " ++ strftime_date_time (SessionState.updated_at session_state);
   "**Agent:** " ++ SessionState.current_agent session_state;
   "**Model:** " ++ SessionState.current_model session_state;
   "";
   "---";
   ""].

(** The heading that marks the role of a message, for the roles that have
    one. *)
Definition role_marker (msg : ConversationMessage.t) : option string :=
  let timestamp := strftime_time (ConversationMessage.timestamp msg) in
  if String.eqb (ConversationMessage.role msg) "user" then
    Some ("## " ++ icon_user ++ " User [" ++ timestamp ++ "]")
  else if String.eqb (ConversationMessage.role msg) "agent" then
    Some ("## " ++ icon_agent ++ " Agent [" ++ timestamp ++ "]")
  else if String.eqb (ConversationMessage.role msg) "system" then
    Some ("## " ++ icon_system ++ " System [" ++ timestamp ++ "]")
  else None.

(** The lines of one message: its content under the marker of its role, and
    nothing for a role without marker. *)
Definition markdown_message (msg : ConversationMessage.t) : list string :=
  match role_marker msg with
  | Some marker => [marker; ""; ConversationMessage.content msg; ""]
  | None => []
  end.

(** The preview of a result: at most 200 characters of it, and an ellipsis. *)
Definition result_preview (tool : ToolExecution.t) : string :=
  str_take 200 (ToolExecution.result tool) ++ "...".

(** The lines about the error of a tool execution, if it has one. *)
Definition markdown_tool_error (tool : ToolExecution.t) : list string :=
  match ToolExecution.error tool with
  | Some err => if negb (String.eqb err "") then [""; "**Error:** " ++ err] else []
  | None => []
  end.

(** The lines of one tool execution. *)
Definition markdown_tool (lib : formatters) (tool : ToolExecution.t) : list string :=
  List.app
    ["### " ++ ToolExecution.tool_name tool ++ " [" ++
       strftime_time (ToolExecution.timestamp tool) ++ "]";
     "";
     "**Arguments:**";
     "```json";
     json_dumps_indent lib (ToolExecution.arguments tool);
     "```";
     "";
     "**Result:** " ++ result_preview tool;
     "";
     "**Execution Time:** " ++ format_2f lib (ToolExecution.execution_time tool) ++ "s"]
    (List.app (markdown_tool_error tool) [""]).

(** The section of the tool executions, absent when there is none. *)
Definition markdown_tools (lib : formatters) (tools : list ToolExecution.t) : list string :=
  match tools with
  | [] => []
  | _ :: _ =>
      List.app
        ["---"; "";
         "## " ++ icon_tools ++ " Tool Executions (" ++ str_of_nat (length tools) ++ ")";
         ""]
        (flat_map (markdown_tool lib) tools)
  end.


End SessionPersistence.

(** ** The [/save] command ([console/commands.py]) *)

Module CommandHandler.

(** [filename.endswith((".md", ".json", ".txt"))]. *)
Definition has_export_extension (filename : string) : bool :=
  endswith filename ".md" || endswith filename ".json" || endswith filename ".txt".

(** [_cmd_save], from the file name to the call of [export_session]; the
    rendering of the outcome is left out.  [now] is the clock reading that
    names the file when [args] is empty. *)
Definition _cmd_save (lib : formatters) (cwd : string) (session_state : SessionState.t)
    (args : list string) (now : datetime) : SessionPersistence.M string :=
  let filename :=
    match args with
    | [] => "conversation_" ++ strftime_compact now ++ ".md"
    | _ :: _ => str_join " " args
    end in
  let filename :=
    if negb (has_export_extension filename) then filename ++ ".md" else filename in
  let format_type :=
    if endswith filename ".json" then "json"
    else if endswith filename ".txt" then "txt"
    else "md" in
  SessionPersistence.export_session lib cwd session_state filename (Some format_type).

End CommandHandler.

(** ** Sample sessions *)

Module Scenario.
Import SessionManager.

Definition clock (h m sec : N) : datetime := mk_datetime 2024 1 5 h m sec 0.

Definition fresh_manager : t :=
  init "0f8fad5b-d9cb-469f-a165-70867728950e" (clock 9 0 0) (clock 9 0 0)
       "react" "claude-sonnet-4".

(** The scenario of the specification: "Hello" from the user, then
    "Hi there" from the agent. *)
Definition hello_calls : list mutation :=
  [AddMessage "user" "Hello" JNull JNull (clock 9 0 1) (clock 9 0 1);
   AddMessage "agent" "Hi there" JNull JNull (clock 9 0 3) (clock 9 0 4)].

(** The store after the two calls. *)
Definition hello_manager : t := snd (run hello_calls fresh_manager).

(** The state of the store after the two calls. *)
Definition hello_state : SessionState.t := session_state hello_manager.

(** A session with a message of a role outside the three of the data model,
    as [add_message] stores it. *)
Definition tool_role_calls : list mutation :=
  [AddMessage "tool" "42 results" JNull JNull (clock 9 0 2) (clock 9 0 2)].
Definition tool_role_state : SessionState.t :=
  session_state (snd (run tool_role_calls fresh_manager)).

(** A session with the two messages and one tool execution. *)
Definition search_calls : list mutation :=
  (hello_calls ++
   [AddToolExecution "search_web" (JObject [("query", JString "Python programming")])
      "Found 10 results" (mk_float 3 (-1)) None (clock 9 0 5) (clock 9 0 5)])%list.
Definition search_state : SessionState.t :=
  session_state (snd (run search_calls fresh_manager)).

(** Session documents with a timestamp that is no ISO 8601 text: in
    [created_at], in [updated_at], and in the [timestamp] of a message. *)
Definition bad_created_at_doc : json :=
  JObject [("session_id", JString "0f8fad5b");
           ("created_at", JString "not-a-date");
           ("updated_at", JString "2024-01-05T09:00:04")].
Definition bad_updated_at_doc : json :=
  JObject [("session_id", JString "0f8fad5b");
           ("created_at", JString "2024-01-05T09:00:00");
           ("updated_at", JString "not-a-date")].
Definition bad_timestamp_doc : json :=
  JObject [("session_id", JString "0f8fad5b");
           ("created_at", JString "2024-01-05T09:00:00");
           ("updated_at", JString "2024-01-05T09:00:04");
           ("messages",
            JArray [JObject [("role", JString "user");
                             ("content", JString "Hello");
                             ("timestamp", JString "not-a-date")]])].

(** A session document without [updated_at]. *)
Definition no_updated_at_doc : json :=
  JObject [("session_id", JString "0f8fad5b");
           ("created_at", JString "2024-01-05T09:00:00")].

(** A session document without [updated_at] whose [created_at] is no date. *)
Definition bad_created_no_updated_doc : json :=
  JObject [("session_id", JString "0f8fad5b");
           ("created_at", JString "not-a-date")].

(** Formatters to run the exports with. *)
Definition plain_formatters : formatters :=
  mk_formatters (fun _ => "{}") (fun _ => "0.00").

End Scenario.

(** ** The life cycle of the session ([agents/factory.py]) *)

Module Lifecycle.
Import Gate.

(** [AgentSession(agent, config)]: both flags false and a new event loop;
    [debug] is [config.get("debug", False)]. *)
Definition new_session (debug : bool) : AgentSession :=
  mk_session false false debug LoopIdle [].

(** [AgentSession.reset].  Its first statement,
    [if hasattr(self.agent, 'memory') and self.agent.memory:
    self.agent.memory.clear()], acts on the external agent only;
    [clear_memory] is how it ends: it returns, as it does when the agent has
    no memory, or the agent's [clear] raises. *)
Definition reset (clear_memory : outcome unit) : M unit :=
  (fun s => (clear_memory, s)) ;;;
  modify (set_executing false) ;;;
  modify (set_interrupted false).

(** [AgentSession.is_executing] and [AgentSession.was_interrupted]. *)
Definition is_executing : M bool := get executing.
Definition was_interrupted : M bool := get interrupted.

(** [loop.close()], from asyncio: a running loop cannot be closed, and
    closing a closed loop does nothing.  The tasks that the loop still holds
    go with it: the call does not run them. *)
Definition loop_close : M unit :=
  l <- get _event_loop ;;
  match l with
  | LoopRunning => raise (mk_exception RuntimeError "Cannot close a running event loop")
  | LoopClosed => ret tt
  | LoopIdle | LoopPending _ => modify (set_event_loop LoopClosed)
  end.

(** [AgentSession.close]; [__del__] calls it.  After [__init__] the session
    has its [_event_loop], and a loop object is true. *)
Definition close : M unit :=
  l <- get _event_loop ;;
  match l with
  | LoopClosed => ret tt
  | _ => loop_close
  end.

(** The calls that a caller can make on a session between two executions. *)
Inductive call :=
  | Interrupt
  | Reset (clear_memory : outcome unit)
  | Close
  | Execute (agent : Agent) (user_input : string).

Definition perform (c : call) : M unit :=
  match c with
  | Interrupt => interrupt
  | Reset clear_memory => reset clear_memory
  | Close => close
  | Execute agent user_input => execute agent user_input ;;; ret tt
  end.

(** The session after the calls of a list, made one after the other whether
    the earlier ones returned or raised. *)
Definition after_calls (cs : list call) (s : AgentSession) : AgentSession :=
  fold_left (fun s c => snd (perform c s)) cs s.

End Lifecycle.

(** ** Configuration: [ConfigManager] ([config/manager.py]) *)

(** [dict[key] = value]: the value of an existing key is replaced where it
    stands, a new key goes to the end. *)
Fixpoint dict_set (key : string) (value : json) (members : list (string * json))
    : list (string * json) :=
  match members with
  | [] => [(key, value)]
  | (k, v) :: rest =>
      if String.eqb key k then (k, value) :: rest else (k, v) :: dict_set key value rest
  end.

(** [s.startswith(prefix)]. *)
Fixpoint startswith (s prefix : string) : bool :=
  match prefix, s with
  | EmptyString, _ => true
  | String c p, String c' s' => Ascii.eqb c c' && startswith s' p
  | String _ _, EmptyString => false
  end.

(** [needle in s] for two strings. *)
Fixpoint str_contains (s needle : string) : bool :=
  startswith s needle ||
  match s with
  | EmptyString => false
  | String _ s' => str_contains s' needle
  end.

(** [key in container] for a string [key].  The wording of the [TypeError]
    is that of Python 3.11. *)
Definition contains (container : json) (key : string) : outcome bool :=
  match container with
  | JObject members =>
      Ok (match assoc key members with
          | Some _ => true
          | None => false
          end)
  | JArray items =>
      Ok (existsb (fun item => match item with
                               | JString s => String.eqb s key
                               | _ => false
                               end) items)
  | JString s => Ok (str_contains s key)
  | _ =>
      Raise (mk_exception TypeError
               ("argument of type " ++ repr (type_name container) ++ " is not iterable"))
  end.

(** [container[key] = value] for a string [key]: the container after the
    assignment. *)
Definition item_assign (container : json) (key : string) (value : json) : outcome json :=
  match container with
  | JObject members => Ok (JObject (dict_set key value members))
  | JArray _ =>
      Raise (mk_exception TypeError "list indices must be integers or slices, not str")
  | _ =>
      Raise (mk_exception TypeError
               (repr (type_name container) ++ " object does not support item assignment"))
  end.

(** [s.split(".")]: never the empty list. *)
Fixpoint split_dots (s : string) : list string :=
  match s with
  | EmptyString => [""]
  | String c s' =>
      if Ascii.eqb c "." then "" :: split_dots s'
      else
        match split_dots s' with
        | [] => [String c ""]
        | part :: parts => String c part :: parts
        end
  end.

(** [str.lower()] on the characters below 256: the ASCII capitals and the
    capitals of Latin-1. *)
Definition ascii_lower (c : ascii) : ascii :=
  let n := nat_of_ascii c in
  if ((65 <=? n) && (n <=? 90) || (192 <=? n) && (n <=? 214) ||
      (216 <=? n) && (n <=? 222))%nat
  then ascii_of_nat (n + 32) else c.

Fixpoint str_lower (s : string) : string :=
  match s with
  | EmptyString => EmptyString
  | String c s' => String (ascii_lower c) (str_lower s')
  end.

Module ConfigManager.

(** The loop of [get]: down the dicts along [keys]; [None] where [get]
    returns its default. *)
Fixpoint lookup_path (keys : list string) (value : json) : option json :=
  match keys with
  | [] => Some value
  | key :: rest =>
      match value with
      | JObject members =>
          match assoc key members with
          | Some v => lookup_path rest v
          | None => None
          end
      | _ => None
      end
  end.

(** [ConfigManager.get]. *)
Definition get (key_path : string) (default : json) (config : json) : json :=
  let keys := split_dots key_path in
  match lookup_path keys config with
  | Some value => value
  | None => default
  end.

(** [_set_nested(config, keys, value)].  The dicts are mutated in place:
    the result is the outcome together with [config] as the call leaves it,
    the dict reached under [key] being the one that stands in its parent. *)
Fixpoint _set_nested (keys : list string) (value : json) (current : json)
    : outcome unit * json :=
  match keys with
  | [] => (Raise (mk_exception (OtherException "IndexError") "tuple index out of range"),
           current)
  | key :: rest =>
      match rest with
      | [] =>
          match item_assign current key value with
          | Ok current' => (Ok tt, current')
          | Raise e => (Raise e, current)
          end
      | _ :: _ =>
          match contains current key with
          | Raise e => (Raise e, current)
          | Ok present =>
              match (if present then Ok current
                     else item_assign current key (JObject [])) with
              | Raise e => (Raise e, current)
              | Ok current1 =>
                  match subscript current1 key with
                  | Raise e => (Raise e, current1)
                  | Ok child =>
                      let '(r, child') := _set_nested rest value child in
                      (r, match current1 with
                          | JObject members => JObject (dict_set key child' members)
                          | _ => current1
                          end)
                  end
              end
          end
      end
  end.

(** [ConfigManager.set]. *)
Definition set (key_path : string) (value : json) : SE json unit :=
  _set_nested (split_dots key_path) value.

(** [_merge_configs(base, override)] for two dicts, given by their members:
    the loop over [override.items()] on the copy of [base]. *)
Fixpoint merge_into (base : list (string * json)) (override : json) {struct override}
    : list (string * json) :=
  match override with
  | JObject members =>
      (fix loop (items : list (string * json)) (result : list (string * json)) :=
         match items with
         | [] => result
         | (key, value) :: rest =>
             loop rest
               match assoc key result, value with
               | Some (JObject sub), JObject _ =>
                   dict_set key (JObject (merge_into sub value)) result
               | _, _ => dict_set key value result
               end
         end) members base
  | _ => base
  end.

(** What the loop of [merge_into] leaves under a key that held [old]. *)
Definition merged (old : option json) (value : json) : json :=
  match old, value with
  | Some (JObject sub), JObject _ => JObject (merge_into sub value)
  | _, _ => value
  end.

Definition _merge_configs (base override : list (string * json)) : list (string * json) :=
  merge_into base (JObject override).

(** [ConfigManager._str_to_bool]. *)
Definition _str_to_bool (value : string) : bool :=
  bool_decide (In (str_lower value) ["true"; "1"; "yes"; "on"]).

(** A value as Python holds it: no dict in it has a key twice. *)
Fixpoint keys_unique (v : json) : bool :=
  match v with
  | JArray items => forallb keys_unique items
  | JObject members =>
      bool_decide (NoDup (map fst members)) &&
      forallb (fun kv => keys_unique (snd kv)) members
  | _ => true
  end.

(** [other] leaves the path [keys] at some key: after a common prefix the
    two go on with different keys. *)
Definition diverges (other keys : list string) : Prop :=
  exists common a b rest_other rest_keys,
    other = (common ++ a :: rest_other)%list /\
    keys = (common ++ b :: rest_keys)%list /\ a <> b.

(** [_set_nested] gets through: the path is not empty and, as far as it
    exists in [current], it goes through dicts only. *)
Fixpoint settable (keys : list string) (current : json) : bool :=
  match keys, current with
  | [], _ => false
  | key :: rest, JObject members =>
      match rest with
      | [] => true
      | _ :: _ =>
          match assoc key members with
          | Some child => settable rest child
          | None => true
          end
      end
  | _ :: _, _ => false
  end.

(** [override] says nothing about the path [keys]: it goes along it through
    dicts up to one that lacks the next key. *)
Fixpoint silent_on (keys : list string) (override : json) : bool :=
  match keys, override with
  | key :: rest, JObject members =>
      match assoc key members with
      | None => true
      | Some v =>
          match rest with
          | [] => false
          | _ :: _ => silent_on rest v
          end
      end
  | _, _ => false
  end.

Definition is_dict (v : json) : bool :=
  match v with
  | JObject _ => true
  | _ => false
  end.

End ConfigManager.

(** ** The store: a new session and the statistics ([state/session.py]) *)

Module SessionStatistics.
Import SessionManager.

(** [create_session]: the store takes a [SessionState()] with the defaults
    of the dataclass, a new identifier and two readings of the clock. *)
Definition create_session (session_id : string) (t_created t_updated : datetime)
    : M SessionState.t :=
  modify (fun _ => mk (SessionState.mk session_id t_created t_updated [] []
                         "react" "claude-sonnet-4" (JObject []))) ;;;
  get session_state.

(** The dict that [get_statistics] returns.  [avg_tool_execution_time] is
    the [int] 0 or a [float]. *)
Record statistics := mk_statistics {
  stat_session_id : string;
  stat_created_at : datetime;
  stat_updated_at : datetime;
  total_messages : nat;
  user_messages : nat;
  agent_messages : nat;
  total_tool_executions : nat;
  avg_tool_execution_time : json;
  stat_current_agent : string;
  stat_current_model : string;
}.

(** [sum(1 for msg in messages if msg.role == role)]. *)
Definition count_role (role : string) (messages : list ConversationMessage.t) : nat :=
  fold_left
    (fun total msg =>
       if String.eqb (ConversationMessage.role msg) role then (total + 1)%nat else total)
    messages 0%nat.

(** [get_statistics].  [mean times] is [sum(times) / len(times)] in the
    arithmetic of floats, for a list that is not empty. *)
Definition get_statistics (mean : list float -> float) : M statistics :=
  st <- get session_state ;;
  let total_messages := length (SessionState.messages st) in
  let user_messages := count_role "user" (SessionState.messages st) in
  let agent_messages := count_role "agent" (SessionState.messages st) in
  let total_tools := length (SessionState.tool_executions st) in
  let avg_execution_time :=
    if (0 <? total_tools)%nat then
      JFloat (mean (map ToolExecution.execution_time (SessionState.tool_executions st)))
    else JInt 0 in
  ret (mk_statistics (SessionState.session_id st) (SessionState.created_at st)
         (SessionState.updated_at st) total_messages user_messages agent_messages
         total_tools avg_execution_time
         (SessionState.current_agent st) (SessionState.current_model st)).

(** The statistics of a store, whatever the outcome of the call. *)
Definition statistics_of (mean : list float -> float) (self : t) : option statistics :=
  match fst (get_statistics mean self) with
  | Ok stats => Some stats
  | Raise _ => None
  end.

(** A role that [get_statistics] counts. *)
Definition counted_role (role : string) : bool :=
  String.eqb role "user" || String.eqb role "agent".

End SessionStatistics.

(** ** The plain-text export, block by block ([state/persistence.py]) *)

Module TextExport.

(** The header block of the plain-text export. *)
Definition text_header (session_state : SessionState.t) : list string :=
  [str_repeat "=" 80;
   "ORBITON AGENT CONVERSATION";
   str_repeat "=" 80;
   "Session ID: " ++ SessionState.session_id session_state;
   "Created: " ++ strftime_date_time (SessionState.created_at session_state);
   "Updated: " ++ strftime_date_time (SessionState.updated_at session_state);
   "Agent: " ++ SessionState.current_agent session_state;
   "Model: " ++ SessionState.current_model session_state;
   str_repeat "=" 80;
   ""].

(** The name under which the export shows a role: every role has one. *)
Definition role_display (msg : ConversationMessage.t) : string :=
  if String.eqb (ConversationMessage.role msg) "user" then "USER"
  else if String.eqb (ConversationMessage.role msg) "agent" then "AGENT"
  else if String.eqb (ConversationMessage.role msg) "system" then "SYSTEM"
  else str_upper (ConversationMessage.role msg).

(** The lines of one message. *)
Definition text_message (msg : ConversationMessage.t) : list string :=
  ["[" ++ strftime_time (ConversationMessage.timestamp msg) ++ "] " ++ role_display msg ++ ":";
   ConversationMessage.content msg;
   "";
   str_repeat "-" 80;
   ""].

(** The file name that [save_session] makes up for a session. *)
Definition session_filename (session_state : SessionState.t) : string :=
  "session_" ++ str_take 8 (SessionState.session_id session_state) ++ "_" ++
  strftime_compact (SessionState.created_at session_state) ++ ".json".

(** The second in which a session was created. *)
Definition created_second (session_state : SessionState.t) : list N :=
  let d := SessionState.created_at session_state in
  [year d; month d; day d; hour d; minute d; second d].

End TextExport.

(** ** The console: commands and messages ([console/commands.py],
    [console/app.py], [console/app_tui.py]) *)

(** [c.isspace()] for a character below 256. *)
Definition is_space (c : ascii) : bool :=
  let n := nat_of_ascii c in
  ((9 <=? n) && (n <=? 13) || (28 <=? n) && (n <=? 32) || (n =? 133) || (n =? 160))%nat.

(** [s.lstrip()], [s.rstrip()] and [s.strip()]. *)
Fixpoint str_lstrip (s : string) : string :=
  match s with
  | EmptyString => EmptyString
  | String c s' => if is_space c then str_lstrip s' else s
  end.

Fixpoint str_rstrip (s : string) : string :=
  match s with
  | EmptyString => EmptyString
  | String c s' =>
      let rest := str_rstrip s' in
      if is_space c && String.eqb rest "" then EmptyString else String c rest
  end.

Definition str_strip (s : string) : string := str_rstrip (str_lstrip s).

(** [s.split()]: the words between runs of white space; [word] is the
    word that is being read. *)
Fixpoint split_words (word : string) (s : string) : list string :=
  match s with
  | EmptyString => if String.eqb word "" then [] else [word]
  | String c s' =>
      if is_space c then
        if String.eqb word "" then split_words "" s' else word :: split_words "" s'
      else split_words (word ++ String c "") s'
  end.

Definition str_split (s : string) : list string := split_words "" s.

(** [c.isdigit()] for a character below 256: the ten digits and the
    superscripts one, two and three. *)
Definition is_digit_char (c : ascii) : bool :=
  let n := nat_of_ascii c in
  ((48 <=? n) && (n <=? 57) || (n =? 178) || (n =? 179) || (n =? 185))%nat.

Fixpoint all_chars (p : ascii -> bool) (s : string) : bool :=
  match s with
  | EmptyString => true
  | String c s' => p c && all_chars p s'
  end.

(** [s.isdigit()]. *)
Definition str_isdigit (s : string) : bool :=
  negb (String.eqb s "") && all_chars is_digit_char s.

Definition is_decimal_char (c : ascii) : bool :=
  let n := nat_of_ascii c in ((48 <=? n) && (n <=? 57))%nat.

Fixpoint decimal_value (acc : Z) (s : string) : Z :=
  match s with
  | EmptyString => acc
  | String c s' => decimal_value (acc * 10 + Z.of_nat (nat_of_ascii c - 48)) s'
  end.

(** [int(s)] for a string with [s.isdigit()]: the superscripts are digits
    that [int] does not read, and since Python 3.11 [int] refuses more than
    4300 digits. *)
Definition int_of_digits (s : string) : outcome Z :=
  if all_chars is_decimal_char s then
    if (4300 <? String.length s)%nat then
      Raise (mk_exception ValueError
               ("Exceeds the limit (4300 digits) for integer string conversion: value has " ++
                str_of_nat (String.length s) ++
                " digits; use sys.set_int_max_str_digits() to increase the limit"))
    else Ok (decimal_value 0 s)
  else
    Raise (mk_exception ValueError
             ("invalid literal for int() with base 10: " ++ repr s)).

Module Console.

(** What reaches the terminal, oldest first.  The calls of the renderer
    and of [console.print] are taken to return.  [TableObject] is the info
    message that the console of the TUI makes of a table: the [str] of the
    object, which names its class and its address and shows none of its
    rows. *)
Inductive output :=
  | Render (method : string) (arguments : list string)
  | Table (title : string) (rows : list (list string))
  | Blank
  | TableObject.

(** The class of the agent, which [get_agent_type] looks at. *)
Inductive agent_class := SpoonReactAI | SpoonReactMCP | OtherAgent.

(** An [AgentSession] object with its agent. *)
Record running_agent := mk_running {
  agent_of : agent_class;
  run_of : Gate.Agent;
  session_of : Gate.AgentSession;
}.

(** The object that the command handler knows as [self.app]: the
    [ConsoleApp] itself, or the [TUIWrapper] that [ConsoleTUIApp] builds
    around itself, which has no [callback_handler]. *)
Inductive app_class := ConsoleApp | TUIWrapper.

Record App := mk_app {
  class_of : app_class;
  config : json;
  debug : bool;
  running : bool;
  current_model : string;
  current_agent_type : string;
  session_manager : SessionManager.t;
  agent_session : option running_agent;
  _agent_init_error : option string;
  console : list output;
  files : gmap string SessionPersistence.file;
}.

Definition set_config (v : json) (a : App) : App :=
  mk_app (class_of a) v (debug a) (running a) (current_model a) (current_agent_type a)
         (session_manager a) (agent_session a) (_agent_init_error a) (console a) (files a).
Definition set_running (v : bool) (a : App) : App :=
  mk_app (class_of a) (config a) (debug a) v (current_model a) (current_agent_type a)
         (session_manager a) (agent_session a) (_agent_init_error a) (console a) (files a).
Definition set_current_model (v : string) (a : App) : App :=
  mk_app (class_of a) (config a) (debug a) (running a) v (current_agent_type a)
         (session_manager a) (agent_session a) (_agent_init_error a) (console a) (files a).
Definition set_current_agent_type (v : string) (a : App) : App :=
  mk_app (class_of a) (config a) (debug a) (running a) (current_model a) v
         (session_manager a) (agent_session a) (_agent_init_error a) (console a) (files a).
Definition set_session_manager (v : SessionManager.t) (a : App) : App :=
  mk_app (class_of a) (config a) (debug a) (running a) (current_model a) (current_agent_type a)
         v (agent_session a) (_agent_init_error a) (console a) (files a).
Definition set_agent_session (v : option running_agent) (a : App) : App :=
  mk_app (class_of a) (config a) (debug a) (running a) (current_model a) (current_agent_type a)
         (session_manager a) v (_agent_init_error a) (console a) (files a).
Definition set_console (v : list output) (a : App) : App :=
  mk_app (class_of a) (config a) (debug a) (running a) (current_model a) (current_agent_type a)
         (session_manager a) (agent_session a) (_agent_init_error a) v (files a).
Definition set_files (v : gmap string SessionPersistence.file) (a : App) : App :=
  mk_app (class_of a) (config a) (debug a) (running a) (current_model a) (current_agent_type a)
         (session_manager a) (agent_session a) (_agent_init_error a) (console a) v.

Definition M (A : Type) : Type := SE App A.

Definition lift {A} (o : outcome A) : M A := fun a => (o, a).

Definition emit (o : output) : M unit := modify (fun a => set_console (console a ++ [o]) a).
Definition render_info (text : string) : M unit := emit (Render "render_info" [text]).
Definition render_warning (text : string) : M unit := emit (Render "render_warning" [text]).
Definition render_success (text : string) : M unit := emit (Render "render_success" [text]).
Definition render_error (text title : string) : M unit :=
  emit (Render "render_error" [text; title]).

(** [self.app.console.print(table)] and [self.app.console.print()] in a
    command.  The console of [ConsoleApp] is the one of Rich, which prints
    the table and an empty line.  The console of the [TUIWrapper] is its
    [MockConsole] ([console/app_tui.py]), whose [print] joins the [str] of
    its arguments and shows the text as an info message unless it is blank:
    the [str] of the table object for a table, and nothing for no
    argument. *)
Definition print_table (title : string) (rows : list (list string)) : M unit :=
  c <- get class_of ;;
  match c with
  | ConsoleApp => emit (Table title rows)
  | TUIWrapper => emit TableObject
  end.

Definition print_blank : M unit :=
  c <- get class_of ;;
  match c with
  | ConsoleApp => emit Blank
  | TUIWrapper => ret tt
  end.

(** A method of the session manager, of the file system and of the agent
    session [r], called from the application: the objects are shared, so
    their new state is the one that the application sees. *)
Definition on_session_manager {A} (m : SessionManager.M A) : M A := fun a =>
  let '(r, sm) := m (session_manager a) in (r, set_session_manager sm a).
Definition on_files {A} (m : SessionPersistence.M A) : M A := fun a =>
  let '(r, fs) := m (files a) in (r, set_files fs a).
Definition on_agent_session {A} (r : running_agent) (m : Gate.M A) : M A := fun a =>
  let '(o, s) := m (session_of r) in
  (o, set_agent_session (Some (mk_running (agent_of r) (run_of r) s)) a).

(** How a write ends that the system does not let through.  [NotOpened e]:
    making the directory of the file or opening the file raises [e], and the
    files are as they were.  [Opened e written]: the file is opened, and so
    emptied, and [json.dump] or the closing of the file raises [e] when the
    file holds the text [written], which is not a whole document. *)
Inductive write_failure :=
  | NotOpened (e : exception)
  | Opened (e : exception) (written : string).

(** What the commands take from outside the application.  [build] is
    [AgentFactory.create_agent] after the check of the agent type: it makes
    the chat bot and the agent from the configuration and the environment,
    and hands back the configuration as it leaves it ([_create_mcp_tools]
    rewrites the [env] of the MCP servers in place).  [mkdir_error] and
    [write_error] tell how the system answers [/exit]: the exception that
    [mkdir(parents=True, exist_ok=True)] raises for a directory, and how the
    write of a file fails, [None] where the system complies. *)
Record environment := mk_environment {
  lib : formatters;
  cwd : string;
  default_history_dir : string;
  build : string -> json -> outcome Gate.Agent * json;
  mkdir_error : string -> option exception;
  write_error : string -> option write_failure;
}.

(** The persistence of [/exit], on a system that can refuse. *)
Module Refusing.

(** [SessionPersistence()]: [history_dir] is the expansion of
    [~/.orbiton/history], and the constructor makes the directory. *)
Definition SessionPersistence_init (env : environment) : SessionPersistence.M SessionPersistence.t :=
  let history_dir := default_history_dir env in
  match mkdir_error env history_dir with
  | Some e => raise e
  | None => ret (SessionPersistence.mk history_dir)
  end.

(** [save_path.parent.mkdir(...)], [open(save_path, "w")] and [json.dump]. *)
Definition write_file (env : environment) (path : string) (f : SessionPersistence.file)
    : SessionPersistence.M unit :=
  match write_error env path with
  | None => SessionPersistence.write_file path f
  | Some (NotOpened e) => raise e
  | Some (Opened e written) =>
      SessionPersistence.write_file path (SessionPersistence.TextFile written) ;;;
      raise e
  end.

(** [save_session(session_state)], without a path. *)
Definition save_session (env : environment) (self : SessionPersistence.t)
    (session_state : SessionState.t) : SessionPersistence.M string :=
  let timestamp := strftime_compact (SessionState.created_at session_state) in
  let filename :=
    "session_" ++ str_take 8 (SessionState.session_id session_state) ++ "_" ++
    timestamp ++ ".json" in
  let save_path := SessionPersistence.path_join (SessionPersistence.history_dir self) filename in
  write_file env save_path (SessionPersistence.JsonFile (SessionState.to_dict session_state)) ;;;
  ret save_path.

Definition auto_save (env : environment) (self : SessionPersistence.t)
    (session_state : SessionState.t) : SessionPersistence.M (option string) :=
  match SessionState.messages session_state with
  | [] => ret None
  | _ :: _ =>
      save_path <- save_session env self session_state ;;
      ret (Some save_path)
  end.

End Refusing.

(** [AgentFactory.create_agent] ([agents/factory.py]). *)
Definition create_agent (env : environment) (agent_type : string) (config : json)
    : outcome (agent_class * Gate.Agent) * json :=
  if negb (String.eqb agent_type "react" || String.eqb agent_type "react-mcp") then
    (Raise (mk_exception ValueError
              ("Unknown agent type: " ++ agent_type ++
               ". Valid types: ['react', 'react-mcp']")), config)
  else
    match build env agent_type config with
    | (Ok agent, config') =>
        (Ok (if String.eqb agent_type "react" then SpoonReactAI else SpoonReactMCP, agent),
         config')
    | (Raise e, config') => (Raise e, config')
    end.

(** [AgentSession(agent, config)]: [config.get("debug", False)] is read,
    and is what [execute_async] tests before it logs. *)
Definition AgentSession_init (config : json) : outcome Gate.AgentSession :=
  debug_value ← dict_get config "debug" (JBool false);
  Ok (Lifecycle.new_session (truthy debug_value)).

(** [AgentSession.get_agent_type]. *)
Definition get_agent_type (r : running_agent) : string :=
  match agent_of r with
  | SpoonReactMCP => "react-mcp"
  | SpoonReactAI => "react"
  | OtherAgent => "unknown"
  end.

(** [self.app.callback_handler]. *)
Definition callback_handler : M unit :=
  c <- get class_of ;;
  match c with
  | ConsoleApp => ret tt
  | TUIWrapper =>
      raise (mk_exception AttributeError
               "'TUIWrapper' object has no attribute 'callback_handler'")
  end.

(** [self.app.config[section][key] = value]. *)
Definition config_assign (section key : string) (value : json) : M unit :=
  cfg <- get config ;;
  sub <- lift (subscript cfg section) ;;
  sub' <- lift (item_assign sub key value) ;;
  modify (set_config match cfg with
                     | JObject members => JObject (dict_set section sub' members)
                     | _ => cfg
                     end).

(** The [try] block of [_cmd_agent] and [_cmd_model]: the arguments of
    [create_agent] are evaluated, the agent and its session are made, and the
    session replaces the one of the application. *)
Definition recreate_agent (env : environment) (agent_type : string) : M unit :=
  cfg <- get config ;;
  callback_handler ;;;
  agent <- (fun a =>
              let '(r, cfg') := create_agent env agent_type cfg in
              (r, set_config cfg' a)) ;;
  cfg <- get config ;;
  session <- lift (AgentSession_init cfg) ;;
  modify (set_agent_session (Some (mk_running (fst agent) (snd agent) session))).

(** [_cmd_agent]. *)
Definition _cmd_agent (env : environment) (args : list string) : M unit :=
  let show_current :=
    s <- get agent_session ;;
    let agent_type :=
      match s with
      | Some r => get_agent_type r
      | None => "N/A"
      end in
    render_info ("Current agent: [cyan]" ++ agent_type ++ "[/]") in
  match args with
  | [] => show_current
  | first :: _ =>
      if String.eqb first "current" then show_current
      else if String.eqb first "list" then
        print_table "Available Agents"
          [["react"; "ReAct agent with reasoning and action"];
           ["mcp"; "ReAct agent with MCP server support"]] ;;;
        print_blank
      else
        let agent_type := first in
        if negb (String.eqb agent_type "react" || String.eqb agent_type "mcp") then
          render_warning ("Unknown agent type: " ++ agent_type) ;;;
          render_info "Available: react, mcp"
        else
          config_assign "agent" "type" (JString agent_type) ;;;
          modify (set_current_agent_type agent_type) ;;;
          try_except
            (recreate_agent env agent_type ;;;
             render_success ("Switched to agent: [cyan]" ++ agent_type ++ "[/]"))
            (fun e =>
               if is_Exception e then
                 Some (render_error ("Failed to switch agent: " ++ exc_str e) "Agent Error")
               else None)
  end.

(** [_cmd_model]. *)
Definition _cmd_model (env : environment) (args : list string) : M unit :=
  let show_current :=
    model <- get current_model ;;
    render_info ("Current model: [cyan]" ++ model ++ "[/]") in
  match args with
  | [] => show_current
  | first :: _ =>
      if String.eqb first "current" then show_current
      else if String.eqb first "list" then
        print_table "Available Models"
          [["claude-sonnet-4"; "Anthropic"];
           ["claude-3-5-sonnet-20241022"; "Anthropic"];
           ["gpt-4"; "OpenAI"];
           ["gpt-4-turbo"; "OpenAI"];
           ["gemini-pro"; "Google"]] ;;;
        print_blank
      else
        let model := first in
        config_assign "llm" "default_model" (JString model) ;;;
        modify (set_current_model model) ;;;
        try_except
          (agent_type <- get current_agent_type ;;
           recreate_agent env agent_type ;;;
           render_success ("Switched to model: [cyan]" ++ model ++ "[/]"))
          (fun e =>
             if is_Exception e then
               Some (render_error ("Failed to switch model: " ++ exc_str e) "Model Error")
             else None)
  end.

(** The content column of [/history]. *)
Definition content_preview (content : string) : string :=
  if (80 <? String.length content)%nat then str_take 80 content ++ "..." else content.

Definition history_row (msg : ConversationMessage.t) : list string :=
  [strftime_time (ConversationMessage.timestamp msg);
   ConversationMessage.role msg;
   content_preview (ConversationMessage.content msg)].

(** [_cmd_history].  Both applications have a session manager.  The table
    goes to [self.app.console]. *)
Definition _cmd_history (args : list string) : M unit :=
  limit <- match args with
           | first :: _ =>
               if str_isdigit first then
                 n <- lift (int_of_digits first) ;;
                 ret (Some n)
               else ret None
           | [] => ret None
           end ;;
  messages <- on_session_manager (SessionManager.get_messages limit 0) ;;
  match messages with
  | [] => render_info "No conversation history"
  | _ :: _ =>
      print_table ("Conversation History (" ++ str_of_nat (length messages) ++ " messages)")
        (map history_row messages) ;;;
      print_blank
  end.

(** [app.shutdown()]. *)
Definition shutdown : M unit :=
  modify (set_running false) ;;;
  c <- get class_of ;;
  match c with
  | ConsoleApp =>
      emit Blank ;;;
      emit (Render "console.print" ["[bold cyan]Goodbye! 👋[/]"]) ;;;
      emit Blank
  | TUIWrapper => ret tt
  end.

(** [_cmd_exit]: the session goes to the directory of a
    [SessionPersistence()] made on the spot.  What the system refuses ends
    the [try] and reaches the handler. *)
Definition _cmd_exit (env : environment) (args : list string) : M unit :=
  try_except
    (persistence <- on_files (Refusing.SessionPersistence_init env) ;;
     session_state <- on_session_manager SessionManager.get_session_state ;;
     on_files (Refusing.auto_save env persistence session_state) ;;;
     render_info "Session saved")
    (fun e =>
       if is_Exception e then
         Some (dbg <- get debug ;;
               if (dbg : bool) then render_warning ("Failed to save session: " ++ exc_str e)
               else ret tt)
       else None) ;;;
  shutdown.

(** [_cmd_save], with what it renders. *)
Definition _cmd_save (env : environment) (args : list string) (now : datetime) : M unit :=
  try_except
    (session_state <- on_session_manager SessionManager.get_session_state ;;
     output_path <- on_files (CommandHandler._cmd_save (lib env) (cwd env) session_state
                                args now) ;;
     render_success ("Conversation saved to: [cyan]" ++ output_path ++ "[/]"))
    (fun e =>
       if is_Exception e then
         Some (render_error ("Failed to save conversation: " ++ exc_str e) "Save Error" ;;;
               dbg <- get debug ;;
               if (dbg : bool) then raise e else ret tt)
       else None).

(** The commands of a handler: the dict [self.commands], from names to
    handler, description and aliases. *)
Definition handler := list string -> M unit.
Definition commands := list (string * (handler * string * list string)).

Fixpoint commands_get (name : string) (table : commands)
    : option (handler * string * list string) :=
  match table with
  | [] => None
  | (n, entry) :: rest => if String.eqb name n then Some entry else commands_get name rest
  end.

Fixpoint commands_set (name : string) (entry : handler * string * list string)
    (table : commands) : commands :=
  match table with
  | [] => [(name, entry)]
  | (n, e) :: rest =>
      if String.eqb name n then (n, entry) :: rest else (n, e) :: commands_set name entry rest
  end.

(** [register_command]. *)
Definition register_command (name : string) (h : handler) (description : string)
    (aliases : list string) (table : commands) : commands :=
  let table := commands_set name (h, description, aliases) table in
  fold_left (fun table alias => commands_set alias (h, description, []) table) aliases table.

(** [CommandHandler.execute]. *)
Definition execute (table : commands) (command_string : string) : M bool :=
  let cmd_parts := str_split (str_strip command_string) in
  match cmd_parts with
  | [] => raise (mk_exception (OtherException "IndexError") "list index out of range")
  | first :: cmd_args =>
      let cmd_name := str_lower first in
      match commands_get cmd_name table with
      | Some (h, _, _) =>
          try_except
            (h cmd_args ;;; ret true)
            (fun e =>
               if is_Exception e then
                 Some (render_error ("Error executing command: " ++ exc_str e)
                                    "Command Error" ;;;
                       dbg <- get debug ;;
                       if (dbg : bool) then raise e else ret true)
               else None)
      | None =>
          render_warning ("Unknown command: " ++ cmd_name) ;;;
          render_info "Type [cyan]/help[/] for available commands" ;;;
          ret false
      end
  end.

(** [ConsoleApp._process_message].  [t_message] and [t_updated] are the
    clock readings of the [add_message]. *)
Definition _process_message (message : string) (t_message t_updated : datetime) : M unit :=
  s <- get agent_session ;;
  match s with
  | None =>
      err <- get _agent_init_error ;;
      render_error
        ("Agent failed to initialize: " ++ default "Unknown error" err ++ newline ++ newline ++
         "Please check your configuration and API keys.")
        "Agent Error"
  | Some r =>
      try_except
        (emit Blank ;;;
         response <- on_agent_session r (Gate.execute (run_of r) message) ;;
         if negb (String.eqb response "") then
           on_session_manager
             (SessionManager.add_message "agent" response JNull JNull t_message t_updated) ;;;
           cfg <- get config ;;
           lift (ui ← dict_get cfg "ui" (JObject []);
                 dict_get ui "show_timestamps" JNull) ;;;
           emit (Render "render_agent_message" [response])
         else ret tt)
        (fun e =>
           if is_KeyboardInterrupt e then
             Some (render_warning "Interrupted by user" ;;;
                   s' <- get agent_session ;;
                   match s' with
                   | Some r' => on_agent_session r' Gate.interrupt
                   | None => ret tt
                   end)
           else if is_Exception e then
             Some (render_error (exc_str e) "Execution Error" ;;;
                   dbg <- get debug ;;
                   if (dbg : bool) then raise e else ret tt)
           else None)
  end.

(** One round of the loop of [ConsoleApp.run] on the input [user_input]:
    blank input is skipped, a line that starts with [/] is a command, any
    other line is a message for the agent.  The first two clock readings are
    those of the message of the user. *)
Definition handle_input (table : commands) (user_input : string)
    (t_user t_user_updated t_message t_updated : datetime) : M unit :=
  if String.eqb (str_strip user_input) "" then ret tt
  else if startswith user_input "/" then execute table user_input ;;; ret tt
  else
    on_session_manager
      (SessionManager.add_message "user" user_input JNull JNull t_user t_user_updated) ;;;
    emit (Render "render_user_message" [user_input]) ;;;
    _process_message user_input t_message t_updated.

(** The flags of an [AgentSession] by the name of the attribute: [__init__]
    sets [executing], [interrupted] and [_enable_debug_logging]; [None] is
    for a name that is no attribute of the session, such as [_executing]. *)
Definition session_flag (name : string) (s : Gate.AgentSession) : option bool :=
  if String.eqb name "executing" then Some (Gate.executing s)
  else if String.eqb name "interrupted" then Some (Gate.interrupted s)
  else if String.eqb name "_enable_debug_logging" then Some (Gate._enable_debug_logging s)
  else None.

(** [KeyBindingManager.handle_esc] ([console/keybindings.py]): the test is
    [hasattr(session, '_executing') and session._executing]. *)
Definition handle_esc : M unit :=
  s <- get agent_session ;;
  match s with
  | None => ret tt
  | Some r =>
      match session_flag "_executing" (session_of r) with
      | Some true =>
          render_warning "⚠ Interrupting agent..." ;;;
          on_agent_session r Gate.interrupt ;;;
          emit Blank ;;;
          render_info "Agent execution interrupted"
      | _ => render_info "No agent execution to interrupt"
      end
  end.

(** The transcript of the application. *)
Definition transcript (a : App) : list ConversationMessage.t :=
  SessionManager.messages (session_manager a).

(** An exception that [except Exception] lets through. *)
Definition escapes (o : outcome unit) : Prop :=
  match o with
  | Ok _ => False
  | Raise e => is_Exception e = true
  end.

End Console.

(** ** Loading the configuration ([config/manager.py]) *)

Module ConfigLoading.

Record t := mk {
  config_path : option string;
  config : json;
  _defaults_path : string;
}.

Definition set_config (c : json) (self : t) : t :=
  mk (config_path self) c (_defaults_path self).

Definition M (A : Type) : Type := SE t A.

Definition lift {A} (o : outcome A) : M A := fun self => (o, self).

(** A method of the dict [self.config], which it changes in place. *)
Definition on_config {A} (m : SE json A) : M A := fun self =>
  let '(r, c) := m (config self) in (r, set_config c self).

(** [_load_json(path)] on the files [files]. *)
Definition _load_json (files : gmap string SessionPersistence.file) (path : string)
    : outcome json :=
  match files !! path with
  | None =>
      Raise (mk_exception FileNotFoundError
               ("[Errno 2] No such file or directory: " ++ repr path))
  | Some (SessionPersistence.JsonFile document) => Ok document
  | Some (SessionPersistence.TextFile _) =>
      Raise (mk_exception ValueError
               ("Invalid JSON in " ++ path ++ ": Expecting value: line 1 column 1 (char 0)"))
  end.

(** [_load_defaults]. *)
Definition _load_defaults (files : gmap string SessionPersistence.file) : M json :=
  path <- get _defaults_path ;;
  match files !! path with
  | None =>
      raise (mk_exception FileNotFoundError ("Defaults file not found: " ++ path))
  | Some _ => lift (_load_json files path)
  end.

(** [_merge_configs(base, override)] on what [json.load] may return: a
    [base] that is no dict has no [copy], or is a list, which takes no string
    as an index; an [override] that is no dict has no [items]. *)
Definition merge_loaded (base override : json) : outcome json :=
  match base with
  | JObject base_members =>
      match override with
      | JObject override_members => Ok (JObject (ConfigManager._merge_configs base_members override_members))
      | _ =>
          Raise (mk_exception AttributeError
                   (repr (type_name override) ++ " object has no attribute 'items'"))
      end
  | JArray _ =>
      match override with
      | JObject [] => Ok base
      | JObject (_ :: _) =>
          Raise (mk_exception TypeError "list indices must be integers or slices, not str")
      | _ =>
          Raise (mk_exception AttributeError
                   (repr (type_name override) ++ " object has no attribute 'items'"))
      end
  | _ =>
      Raise (mk_exception AttributeError
               (repr (type_name base) ++ " object has no attribute 'copy'"))
  end.

(** The converters of [env_mappings]. *)
Inductive converter := AsFloat | AsInt | AsBool.

(** [float(value)] and [int(value)] for a string, from the library: [None]
    stands for [ValueError].  Texts that [float] reads as an infinity or as
    NaN are outside the model. *)
Record conversions := mk_conversions {
  float_of_str : string -> option float;
  int_of_str : string -> option Z;
}.

(** [converter(value)]; [None] where it raises and the variable is passed
    over. *)
Definition convert (lib : conversions) (c : converter) (value : string) : option json :=
  match c with
  | AsFloat => JFloat <$> float_of_str lib value
  | AsInt => JInt <$> int_of_str lib value
  | AsBool => Some (JBool (ConfigManager._str_to_bool value))
  end.

Definition mapping : Type := string * list string * option converter.

Definition env_mappings : list mapping :=
  [("ORBITON_LLM_MODEL", ["llm"; "default_model"], None);
   ("ORBITON_LLM_PROVIDER", ["llm"; "default_provider"], None);
   ("ORBITON_LLM_TEMPERATURE", ["llm"; "temperature"], Some AsFloat);
   ("ORBITON_LLM_MAX_TOKENS", ["llm"; "max_tokens"], Some AsInt);
   ("ORBITON_AGENT_TYPE", ["agent"; "type"], None);
   ("ORBITON_UI_THEME", ["ui"; "theme"], None);
   ("ORBITON_UI_SHOW_THINKING", ["ui"; "show_thinking"], Some AsBool);
   ("ORBITON_SESSION_SAVE_HISTORY", ["session"; "save_history"], Some AsBool);
   ("ORBITON_SESSION_HISTORY_DIR", ["session"; "history_dir"], None)].

(** One round of the loop of [_apply_env_overrides]; [getenv] is
    [os.getenv]. *)
Definition apply_mapping (lib : conversions) (getenv : string -> option string)
    (m : mapping) : SE json unit :=
  let '(env_var, keys, converter) := m in
  match getenv env_var with
  | None => ret tt
  | Some value =>
      match converter with
      | Some c =>
          match convert lib c value with
          | Some converted => ConfigManager._set_nested keys converted
          | None => ret tt
          end
      | None => ConfigManager._set_nested keys (JString value)
      end
  end.

Fixpoint apply_mappings (lib : conversions) (getenv : string -> option string)
    (ms : list mapping) : SE json unit :=
  match ms with
  | [] => ret tt
  | m :: rest => apply_mapping lib getenv m ;;; apply_mappings lib getenv rest
  end.

(** [_apply_env_overrides], on the dict [self.config]. *)
Definition _apply_env_overrides (lib : conversions) (getenv : string -> option string)
    : SE json unit :=
  apply_mappings lib getenv env_mappings.

(** [ConfigManager.load].  [getenv] is the environment after
    [load_dotenv()]. *)
Definition load (lib : conversions) (getenv : string -> option string)
    (files : gmap string SessionPersistence.file) : M json :=
  defaults <- _load_defaults files ;;
  modify (set_config defaults) ;;;
  path <- get config_path ;;
  match path with
  | Some p =>
      match files !! p with
      | Some _ =>
          custom_config <- lift (_load_json files p) ;;
          base <- get config ;;
          merged <- lift (merge_loaded base custom_config) ;;
          modify (set_config merged)
      | None => ret tt
      end
  | None => ret tt
  end ;;;
  on_config (_apply_env_overrides lib getenv) ;;;
  get config.

(** What a mapping puts into the configuration, if anything. *)
Definition override_value (lib : conversions) (getenv : string -> option string)
    (m : mapping) : option json :=
  value ← getenv (fst (fst m));
  match snd m with
  | Some c => convert lib c value
  | None => Some (JString value)
  end.

Definition keys_of (m : mapping) : list string := snd (fst m).

(** [diverges], decided. *)
Fixpoint diverge (other keys : list string) : bool :=
  match other, keys with
  | a :: other', b :: keys' => if String.eqb a b then diverge other' keys' else true
  | _, _ => false
  end.

(** The paths of a list of mappings leave one another. *)
Fixpoint apart (ms : list mapping) : bool :=
  match ms with
  | [] => true
  | m :: rest => forallb (fun m' => diverge (keys_of m') (keys_of m)) rest && apart rest
  end.

(** No mapping that takes effect writes on the path [other]. *)
Definition untouched (lib : conversions) (getenv : string -> option string)
    (ms : list mapping) (other : list string) : Prop :=
  forall m, In m ms -> override_value lib getenv m = None \/ ConfigManager.diverges other (keys_of m).

End ConfigLoading.

(** ** The tools of the MCP servers ([agents/factory.py]) *)

Module McpTools.

(** The arguments that [MCPTool] is made from. *)
Record MCPTool := mk_tool {
  name : json;
  description : json;
  mcp_config : json;
}.

(** From outside: [str(value)] in the f-string of the default description,
    and the constructor of [MCPTool], which returns ([None]) or raises. *)
Record library := mk_library {
  py_str : json -> string;
  MCPTool_init : MCPTool -> option exception;
}.

(** [d.items()]. *)
Definition dict_items (d : json) : outcome (list (string * json)) :=
  match d with
  | JObject members => Ok members
  | _ =>
      Raise (mk_exception AttributeError
               (repr (type_name d) ++ " object has no attribute 'items'"))
  end.

(** [isinstance(value, str) and value.startswith("${") and
    value.endswith("}")]. *)
Definition is_placeholder (value : json) : bool :=
  match value with
  | JString s => startswith s "${" && endswith s "}"
  | _ => false
  end.

(** [value[2:-1]] for a string of three characters or more. *)
Definition placeholder_name (s : string) : string :=
  substring 2 (String.length s - 3) s.

(** One round of the loop over the items of [env], on the dict
    [env_vars]. *)
Definition resolve_item (getenv : string -> option string)
    (env_vars : list (string * json)) (item : string * json) : list (string * json) :=
  let '(key, value) := item in
  if is_placeholder value then
    match value with
    | JString s =>
        match getenv (placeholder_name s) with
        | Some env_value =>
            if negb (String.eqb env_value "") then dict_set key (JString env_value) env_vars
            else env_vars
        | None => env_vars
        end
    | _ => env_vars
    end
  else dict_set key value env_vars.

(** [server_config["env"][variable] = value]. *)
Definition assign_env (variable value : string) : SE json unit := fun server_config =>
  match subscript server_config "env" with
  | Raise e => (Raise e, server_config)
  | Ok env =>
      match item_assign env variable (JString value) with
      | Raise e => (Raise e, server_config)
      | Ok env' =>
          (Ok tt,
           match server_config with
           | JObject members => JObject (dict_set "env" env' members)
           | _ => server_config
           end)
      end
  end.

(** The [if "env" in server_config] statement, on the dict
    [server_config], which it changes in place. *)
Definition set_env (getenv : string -> option string) : SE json unit :=
  server_config <- get id ;;
  has_env <- (fun s => (contains server_config "env", s)) ;;
  if (has_env : bool) then
    env <- (fun s => (subscript server_config "env", s)) ;;
    items <- (fun s => (dict_items env, s)) ;;
    let env_vars := fold_left (resolve_item getenv) items [] in
    (fun s => match item_assign s "env" (JObject env_vars) with
              | Ok s' => (Ok tt, s')
              | Raise e => (Raise e, s)
              end)
  else
    (fun s => match item_assign s "env" (JObject []) with
              | Ok s' => (Ok tt, s')
              | Raise e => (Raise e, s)
              end).

(** The statements of the [try] block that work on [server_config]. *)
Definition prepare_env (getenv : string -> option string) : SE json unit :=
  set_env getenv ;;;
  assign_env "PYTHONWARNINGS" "ignore" ;;;
  assign_env "PYTHONUNBUFFERED" "0" ;;;
  assign_env "NODE_ENV" "production" ;;;
  assign_env "NPM_CONFIG_LOGLEVEL" "error".

(** The [try] block for one server: the outcome, and the server as the
    block leaves it.  The dict under ["config"] is the one that stands in the
    server; without that key the block works on a dict of its own. *)
Definition process_server (lib : library) (getenv : string -> option string)
    (server : json) : outcome MCPTool * json :=
  match dict_get server "name" (JString "unknown") with
  | Raise e => (Raise e, server)
  | Ok server_name =>
      match dict_get server "config" (JObject []) with
      | Raise e => (Raise e, server)
      | Ok server_config =>
          let '(r, server_config') := prepare_env getenv server_config in
          let server' :=
            match server with
            | JObject members =>
                match assoc "config" members with
                | Some _ => JObject (dict_set "config" server_config' members)
                | None => server
                end
            | _ => server
            end in
          match r with
          | Raise e => (Raise e, server')
          | Ok _ =>
              match dict_get server' "description"
                      (JString ("MCP tool: " ++ py_str lib server_name)) with
              | Raise e => (Raise e, server')
              | Ok server_description =>
                  let mcp_tool := mk_tool server_name server_description server_config' in
                  match MCPTool_init lib mcp_tool with
                  | Some e => (Raise e, server')
                  | None => (Ok mcp_tool, server')
                  end
              end
          end
      end
  end.

(** The loop over the servers, with its [except Exception], whose handler
    asks the server for its name again. *)
Fixpoint create_loop (lib : library) (getenv : string -> option string)
    (servers : list json) (mcp_tools : list MCPTool)
    : outcome (list MCPTool) * list json :=
  match servers with
  | [] => (Ok mcp_tools, [])
  | server :: rest =>
      let '(r, server') := process_server lib getenv server in
      match r with
      | Ok mcp_tool =>
          let '(r', rest') := create_loop lib getenv rest (mcp_tools ++ [mcp_tool]) in
          (r', server' :: rest')
      | Raise e =>
          if is_Exception e then
            match dict_get server' "name" (JString "unknown") with
            | Ok _ =>
                let '(r', rest') := create_loop lib getenv rest mcp_tools in
                (r', server' :: rest')
            | Raise e' => (Raise e', server' :: rest)
            end
          else (Raise e, server' :: rest)
      end
  end.

(** [AgentFactory._create_mcp_tools], on the dict [mcp_config] of the
    caller.  The calls of the logger are left out. *)
Definition _create_mcp_tools (lib : library) (getenv : string -> option string)
    : SE json (list MCPTool) := fun mcp_config =>
  match dict_get mcp_config "enabled" (JBool false) with
  | Raise e => (Raise e, mcp_config)
  | Ok enabled =>
      if negb (truthy enabled) then (Ok [], mcp_config)
      else
        match dict_get mcp_config "servers" (JArray []) with
        | Raise e => (Raise e, mcp_config)
        | Ok servers =>
            if negb (truthy servers) then (Ok [], mcp_config)
            else
              match iterate servers with
              | Raise e => (Raise e, mcp_config)
              | Ok items =>
                  let '(r, items') := create_loop lib getenv items [] in
                  (r,
                   match servers, mcp_config with
                   | JArray _, JObject members =>
                       JObject (dict_set "servers" (JArray items') members)
                   | _, _ => mcp_config
                   end)
              end
        end
  end.

(** The variables that every server gets. *)
Definition fixed_env : list (string * json) :=
  [("PYTHONWARNINGS", JString "ignore");
   ("PYTHONUNBUFFERED", JString "0");
   ("NODE_ENV", JString "production");
   ("NPM_CONFIG_LOGLEVEL", JString "error")].

(** What the tool finds under [key] in its [env], given the [env] of the
    configuration. *)
Definition resolved (getenv : string -> option string) (env : list (string * json))
    (key : string) : option json :=
  match assoc key fixed_env with
  | Some value => Some value
  | None =>
      match assoc key env with
      | Some (JString s) =>
          if is_placeholder (JString s) then
            match getenv (placeholder_name s) with
            | Some env_value =>
                if String.eqb env_value "" then None else Some (JString env_value)
            | None => None
            end
          else Some (JString s)
      | other => other
      end
  end.

(** The tool that the server gives, if its block gets through. *)
Definition tool_of (lib : library) (getenv : string -> option string) (server : json)
    : option MCPTool :=
  match fst (process_server lib getenv server) with
  | Ok mcp_tool => Some mcp_tool
  | Raise _ => None
  end.

Definition is_dict (v : json) : bool :=
  match v with
  | JObject _ => true
  | _ => false
  end.

(** A step that raises nothing but exceptions deriving from [Exception]. *)
Definition raises_exceptions_only {S A} (m : SE S A) : Prop :=
  forall s e s', m s = (Raise e, s') -> is_Exception e = true.

End McpTools.

(** ** Expandable sections ([console/renderer.py])

    [SectionManager] keeps the sections of a conversation in a dict, in the
    order of their registration, under ids made of the section type and of
    a counter.  A section is an object that the dict holds: [toggle]
    changes it in place, which is written here as storing the changed
    section back under its id. *)

Module Sections.

Record ExpandableSection := mk_section {
  section_id : string;
  content : string;
  section_type : string;
  metadata : json;
  expanded : bool
}.

(** [ExpandableSection.__init__]: [metadata or {}], collapsed. *)
Definition ExpandableSection_init (section_id content section_type : string)
    (metadata : json) : ExpandableSection :=
  mk_section section_id content section_type
    (if truthy metadata then metadata else JObject []) false.

(** [ExpandableSection.toggle]. *)
Definition section_toggle (section : ExpandableSection) : ExpandableSection :=
  mk_section (section_id section) (content section) (section_type section)
    (metadata section) (negb (expanded section)).

Record SectionManager := mk_manager {
  sections : list (string * ExpandableSection);
  _id_counter : nat
}.

(** [SectionManager.__init__]. *)
Definition SectionManager_init : SectionManager := mk_manager [] 0.

(** [sections.get(key)]. *)
Fixpoint sections_get (key : string) (members : list (string * ExpandableSection))
    : option ExpandableSection :=
  match members with
  | [] => None
  | (k, v) :: rest => if String.eqb key k then Some v else sections_get key rest
  end.

(** [sections[key] = value]: a key that is there keeps its place. *)
Fixpoint sections_set (key : string) (value : ExpandableSection)
    (members : list (string * ExpandableSection)) : list (string * ExpandableSection) :=
  match members with
  | [] => [(key, value)]
  | (k, v) :: rest =>
      if String.eqb key k then (k, value) :: rest else (k, v) :: sections_set key value rest
  end.

(** [SectionManager.register]: the id and the manager afterwards. *)
Definition register (content section_type : string) (metadata : json)
    (self : SectionManager) : string * SectionManager :=
  let section_id := section_type ++ "_" ++ str_of_nat (_id_counter self) in
  let section := ExpandableSection_init section_id content section_type metadata in
  (section_id, mk_manager (sections_set section_id section (sections self))
                          (S (_id_counter self))).

(** [SectionManager.get]. *)
Definition get (section_id : string) (self : SectionManager) : option ExpandableSection :=
  sections_get section_id (sections self).

(** [SectionManager.toggle]: a section object is always true, so
    [if section] asks whether the id is known. *)
Definition toggle (section_id : string) (self : SectionManager) : bool * SectionManager :=
  match sections_get section_id (sections self) with
  | Some section =>
      let section' := section_toggle section in
      (expanded section',
       mk_manager (sections_set section_id section' (sections self)) (_id_counter self))
  | None => (false, self)
  end.

(** [SectionManager.get_last_section]. *)
Definition get_last_section (self : SectionManager) : option ExpandableSection :=
  match sections self with
  | [] => None
  | _ => nth_error (map snd (sections self)) (length (sections self) - 1)
  end.

(** The calls that change a manager, and a manager after a list of them. *)
Inductive call :=
  | Register (content section_type : string) (metadata : json)
  | Toggle (section_id : string).

Definition perform (c : call) (self : SectionManager) : SectionManager :=
  match c with
  | Register content section_type metadata =>
      snd (register content section_type metadata self)
  | Toggle section_id => snd (toggle section_id self)
  end.

Definition after_calls (calls : list call) (self : SectionManager) : SectionManager :=
  fold_left (fun m c => perform c m) calls self.

(** The ids a manager has given out so far: a type, an underscore and a
    number below the counter. *)
Definition issued (self : SectionManager) (key : string) : Prop :=
  exists section_type n,
    key = section_type ++ "_" ++ str_of_nat n /\ n < _id_counter self.

End Sections.

(** ** The list of saved sessions ([state/persistence.py])

    [list_sessions] reads every file that [scan_dir.glob("session_*.json")]
    yields.  The glob is the library's: [glob dir] stands for the paths it
    yields for [dir], as [str] writes them and in its order, which is the
    operating system's.  A directory that does not exist has no file and
    the glob yields nothing for it, so the early [return []] gives what
    the loop gives, and the test of [exists()] is not written. *)

Module SessionListing.
Import SessionPersistence.

(** One dict of the list: its keys are fixed. *)
Record entry := mk_entry {
  path : string;
  session_id : json;
  created_at : json;
  updated_at : json;
  message_count : nat;
  agent : json;
  model : json
}.

(** [len(v)].  A dict read from a file has no key twice. *)
Definition json_len (v : json) : outcome nat :=
  match v with
  | JString s => Ok (String.length s)
  | JArray items => Ok (length items)
  | JObject members => Ok (length members)
  | _ =>
      Raise (mk_exception TypeError
               ("object of type " ++ repr (type_name v) ++ " has no len()"))
  end.

(** The dict that the loop appends for the document [data] of [file_path]. *)
Definition summary (file_path : string) (data : json) : outcome entry :=
  session_id_ ← dict_get data "session_id" (JString "unknown");
  created_at_ ← dict_get data "created_at" (JString "unknown");
  updated_at_ ← dict_get data "updated_at" (JString "unknown");
  messages_ ← dict_get data "messages" (JArray []);
  message_count_ ← json_len messages_;
  agent_ ← dict_get data "current_agent" (JString "unknown");
  model_ ← dict_get data "current_model" (JString "unknown");
  Ok (mk_entry file_path session_id_ created_at_ updated_at_ message_count_ agent_ model_).

(** The classes named by [except (json.JSONDecodeError, KeyError)]. *)
Definition list_sessions_catches (e : exception) : bool :=
  match exc_cls e with
  | JSONDecodeError | KeyError => true
  | _ => false
  end.

(** The [for] loop over the paths of the glob. *)
Fixpoint scan (paths : list string) (sessions : list entry) : M (list entry) :=
  match paths with
  | [] => ret sessions
  | file_path :: rest =>
      sessions' <-
        try_except
          (f <- open_read file_path ;;
           data <- json_load f ;;
           e <- lift (summary file_path data) ;;
           ret (sessions ++ [e])%list)
          (fun e => if list_sessions_catches e then Some (ret sessions) else None) ;;
      scan rest sessions'
  end.

(** The key of the sort when it is a [str]. *)
Definition string_key (e : entry) : option string :=
  match updated_at e with
  | JString s => Some s
  | _ => None
  end.

Definition key_text (e : entry) : string := default "" (string_key e).

(** [sessions.sort(key=..., reverse=True)] on [str] keys, which Python
    compares by code points: the sort is stable, so an entry goes behind
    those before it whose key is not smaller. *)
Fixpoint insert_sorted (e : entry) (sorted : list entry) : list entry :=
  match sorted with
  | [] => [e]
  | e' :: rest =>
      if String.ltb (key_text e') (key_text e) then e :: sorted
      else e' :: insert_sorted e rest
  end.

Definition sort_newest_first (sessions : list entry) : list entry :=
  fold_left (fun sorted e => insert_sorted e sorted) sessions [].

(** The sort of the list.  With fewer than two entries nothing is compared.
    Keys that are not all [str] are compared as Python compares such
    values, which may raise: [sort_mixed] stands for that. *)
Definition sort_sessions (sort_mixed : list entry -> outcome (list entry))
    (sessions : list entry) : outcome (list entry) :=
  match sessions with
  | [] | [_] => Ok sessions
  | _ =>
      match mapM string_key sessions with
      | Some _ => Ok (sort_newest_first sessions)
      | None => sort_mixed sessions
      end
  end.

(** [Path(directory) if directory else self.history_dir]. *)
Definition scan_dir (self : t) (directory : option string) : string :=
  if path_given directory then default "" directory else history_dir self.

(** [list_sessions]. *)
Definition list_sessions (sort_mixed : list entry -> outcome (list entry))
    (glob : string -> list string) (self : t) (directory : option string)
    : M (list entry) :=
  sessions <- scan (glob (scan_dir self directory)) [] ;;
  lift (sort_sessions sort_mixed sessions).

(** The three-way comparison of two [datetime] values, field by field. *)
Definition then_compare (c1 c2 : comparison) : comparison :=
  match c1 with
  | Eq => c2
  | _ => c1
  end.

Definition datetime_compare (a b : datetime) : comparison :=
  then_compare (year a ?= year b)%N
    (then_compare (month a ?= month b)%N
       (then_compare (day a ?= day b)%N
          (then_compare (hour a ?= hour b)%N
             (then_compare (minute a ?= minute b)%N
                (then_compare (second a ?= second b)%N
                   (microsecond a ?= microsecond b)%N))))).

(** The entry of a session that [save_session] wrote to [file_path]. *)
Definition saved_entry (saved : string * SessionState.t) : entry :=
  let (file_path, st) := saved in
  mk_entry file_path
    (JString (SessionState.session_id st))
    (JString (isoformat (SessionState.created_at st)))
    (JString (isoformat (SessionState.updated_at st)))
    (length (SessionState.messages st))
    (JString (SessionState.current_agent st))
    (JString (SessionState.current_model st)).

(** A file that the loop takes or passes over: a text that is not JSON, or
    a JSON dict whose [messages], if any, have a length. *)
Definition listable (f : file) : bool :=
  match f with
  | TextFile _ => true
  | JsonFile (JObject members) =>
      match json_len (default (JArray []) (assoc "messages" members)) with
      | Ok _ => true
      | Raise _ => false
      end
  | JsonFile _ => false
  end.

(** The entries of the files at [paths] in [fs], in the order of [paths]. *)
Definition entries_of (fs : gmap string file) (paths : list string) : list entry :=
  omap (fun file_path =>
          match fs !! file_path with
          | Some (JsonFile data) =>
              match summary file_path data with
              | Ok e => Some e
              | Raise _ => None
              end
          | _ => None
          end) paths.

(** The saved sessions among the files of a directory, a file that is not
    JSON being marked [None]. *)
Definition sessions_among (contents : list (string * option SessionState.t))
    : list (string * SessionState.t) :=
  omap (fun c => match snd c with
                 | Some st => Some (fst c, st)
                 | None => None
                 end) contents.

End SessionListing.

(** ** Validation of a configuration ([config/manager.py])

    [validate] reads the configuration with [get] and compares numbers.
    The [str] of a value in an f-string is the library's: [py_str]. *)

Module ConfigValidation.

(** [v is None]. *)
Definition is_none (v : json) : bool :=
  match v with
  | JNull => true
  | _ => false
  end.

(** The numbers among the values, as [mantissa * 2 ^ exponent]: a [bool] is
    an [int]. *)
Definition number_of (v : json) : option (Z * Z) :=
  match v with
  | JBool b => Some (if b then 1 else 0, 0)%Z
  | JInt z => Some (z, 0%Z)
  | JFloat f => Some (float_mantissa f, float_exponent f)
  | _ => None
  end.

(** Numbers compare by value, whatever their types. *)
Definition scaled (a : Z * Z) (e : Z) : Z := (fst a * 2 ^ (snd a - e))%Z.

Definition number_leb (a b : Z * Z) : bool :=
  let e := Z.min (snd a) (snd b) in (scaled a e <=? scaled b e)%Z.

Definition number_ltb (a b : Z * Z) : bool :=
  let e := Z.min (snd a) (snd b) in (scaled a e <? scaled b e)%Z.

Definition not_supported (op : string) (a b : json) : exception :=
  mk_exception TypeError
    ("'" ++ op ++ "' not supported between instances of " ++
     repr (type_name a) ++ " and " ++ repr (type_name b)).

(** [a <= b] and [a < b] where one side is a number, as in every use here:
    a value that is not a number is not ordered with it. *)
Definition py_le (a b : json) : outcome bool :=
  match number_of a, number_of b with
  | Some x, Some y => Ok (number_leb x y)
  | _, _ => Raise (not_supported "<=" a b)
  end.

Definition py_lt (a b : json) : outcome bool :=
  match number_of a, number_of b with
  | Some x, Some y => Ok (number_ltb x y)
  | _, _ => Raise (not_supported "<" a b)
  end.

Definition required_fields : list string :=
  ["llm.default_provider"; "llm.default_model"; "agent.type"].

Definition valid_agent_types : list string := ["react"; "react-mcp"].

(** [v not in valid_agent_types]: only a [str] equals a [str]. *)
Definition not_in (v : json) (types : list string) : bool :=
  match v with
  | JString s => negb (existsb (String.eqb s) types)
  | _ => true
  end.

(** [ConfigManager.validate] on the configuration [config] of the manager:
    the pair it returns, or the exception of a comparison. *)
Definition validate (py_str : json -> string) (config : json)
    : outcome (bool * list string) :=
  let errors :=
    fold_left
      (fun errors field =>
         if is_none (ConfigManager.get field JNull config)
         then (errors ++ [("Required field missing: " ++ field)%string])%list
         else errors)
      required_fields [] in
  let temp := ConfigManager.get "llm.temperature" JNull config in
  errors ←
    (if is_none temp then Ok errors
     else
       above ← py_le (JFloat (mk_float 0 0)) temp;
       in_range ← (if above : bool then py_le temp (JFloat (mk_float 1 0)) else Ok false);
       Ok (if in_range : bool then errors
           else (errors ++ [("Invalid temperature: " ++ py_str temp ++
                             " (must be between 0.0 and 1.0)")%string])%list));
  let max_tokens := ConfigManager.get "llm.max_tokens" JNull config in
  errors ←
    (if is_none max_tokens then Ok errors
     else
       below ← py_lt max_tokens (JInt 1);
       Ok (if below : bool
           then (errors ++ [("Invalid max_tokens: " ++ py_str max_tokens ++
                             " (must be positive)")%string])%list
           else errors));
  let agent_type := ConfigManager.get "agent.type" JNull config in
  let errors :=
    if truthy agent_type && not_in agent_type valid_agent_types
    then (errors ++ [("Invalid agent type: " ++ py_str agent_type ++
                      " (must be one of ['react', 'react-mcp'])")%string])%list
    else errors in
  Ok (Nat.eqb (length errors) 0, errors).

(** What [validate] reads of a configuration. *)
Record readings := mk_readings {
  default_provider : json;
  default_model : json;
  temperature : json;
  max_tokens : json;
  agent_type : json
}.

Definition read (config : json) : readings :=
  mk_readings
    (ConfigManager.get "llm.default_provider" JNull config)
    (ConfigManager.get "llm.default_model" JNull config)
    (ConfigManager.get "llm.temperature" JNull config)
    (ConfigManager.get "llm.max_tokens" JNull config)
    (ConfigManager.get "agent.type" JNull config).

(** What [validate] accepts, on the values it reads. *)
Definition accepted (r : readings) : bool :=
  negb (is_none (default_provider r)) &&
  negb (is_none (default_model r)) &&
  negb (is_none (agent_type r)) &&
  (is_none (temperature r) ||
   match py_le (JFloat (mk_float 0 0)) (temperature r),
         py_le (temperature r) (JFloat (mk_float 1 0)) with
   | Ok true, Ok true => true
   | _, _ => false
   end) &&
  (is_none (max_tokens r) ||
   match py_lt (max_tokens r) (JInt 1) with
   | Ok false => true
   | _ => false
   end) &&
  negb (truthy (agent_type r) && not_in (agent_type r) valid_agent_types).

End ConfigValidation.

(** * Properties *)

(** ** Text *)

Lemma str_app_cons (c : ascii) (s1 s2 : string) :
  String c s1 ++ s2 = String c (s1 ++ s2).
Proof. reflexivity. Qed.

Lemma str_app_nil_l (s : string) : "" ++ s = s.
Proof. reflexivity. Qed.

Lemma str_length_app (s1 s2 : string) :
  String.length (s1 ++ s2) = (String.length s1 + String.length s2)%nat.
Proof.
  induction s1 as [|c s1 IH]; [reflexivity|].
  rewrite str_app_cons. simpl. now rewrite IH.
Qed.

Lemma str_app_assoc (s1 s2 s3 : string) : (s1 ++ s2) ++ s3 = s1 ++ (s2 ++ s3).
Proof.
  induction s1 as [|c s1 IH]; [reflexivity|].
  rewrite !str_app_cons. now rewrite IH.
Qed.

Lemma str_app_nil_r (s : string) : s ++ "" = s.
Proof. induction s as [|c s IH]; [reflexivity|]. rewrite str_app_cons. now rewrite IH. Qed.

(** ** The execution gate *)

Module GateProperties.
Import Gate.

(** A call that finds the gate taken. *)
Lemma execute_async_busy (agent : Agent) (user_input : string) (s : AgentSession) :
  executing s = true ->
  execute_async agent user_input s = (Ended (Raise already_executing), s).
Proof.
  intros Hbusy. unfold execute_async, co_bind, co, get, raise. now rewrite Hbusy.
Qed.

(** The outcome and the session of a call that starts, when the loop stops
    running it. *)
Lemma execute_async_started (agent : Agent) (user_input : string) (s : AgentSession) :
  executing s = false ->
  execute_async agent user_input s =
    match agent user_input with
    | Returns response => (Ended (Ok response), after_call user_input false s)
    | Throws e =>
        if is_KeyboardInterrupt e then (Ended (Raise e), after_call user_input true s)
        else if is_Exception e then
          (Ended (Raise (agent_execution_failed e)), after_call user_input false s)
        else (Ended (Raise e), after_call user_input false s)
    | Waits later => (Suspended (mk_pending user_input later), in_flight user_input s)
    end.
Proof.
  intros Hfree. destruct s as [ex intr dbg lp calls]. simpl in Hfree. subst ex.
  unfold execute_async, guarded, await_agent_run, await, co_try_finally, co_try_except,
    co_bind, co, bind, get, modify, raise, ret, after_call, in_flight; simpl.
  destruct (agent user_input) as [response|e|later]; simpl; [reflexivity| |reflexivity].
  destruct (is_KeyboardInterrupt e); simpl; [reflexivity|].
  destruct (is_Exception e); reflexivity.
Qed.

(** The coroutine does not touch the event loop. *)
Lemma execute_async_loop (agent : Agent) (user_input : string) (l : loop_state)
    (s : AgentSession) :
  execute_async agent user_input (set_event_loop l s) =
    (fst (execute_async agent user_input s),
     set_event_loop l (snd (execute_async agent user_input s))).
Proof.
  destruct (executing s) eqn:Hex.
  - rewrite !execute_async_busy by (destruct s; exact Hex). reflexivity.
  - rewrite !execute_async_started by (destruct s; exact Hex).
    destruct (agent user_input) as [response|e|later]; [reflexivity| |reflexivity].
    destruct (is_KeyboardInterrupt e); [reflexivity|].
    destruct (is_Exception e); reflexivity.
Qed.

(** On the idle loop of the session, [execute] gives what the coroutine
    gives when it ends; when the loop is left with the coroutine suspended,
    [execute] raises the [KeyboardInterrupt] and the loop holds the call. *)
Lemma execute_on_idle_loop (agent : Agent) (user_input : string) (s : AgentSession) :
  _event_loop s = LoopIdle ->
  execute agent user_input s =
    match execute_async agent user_input s with
    | (Ended o, s') => (o, s')
    | (Suspended call, s') =>
        (Raise keyboard_interrupt, set_event_loop (LoopPending [call]) s')
    end.
Proof.
  intros Hidle. unfold execute, run_until_complete, bind, get, modify. rewrite Hidle.
  cbn [fst snd held resume_all]. rewrite execute_async_loop.
  destruct (execute_async agent user_input s) as [p s'] eqn:Hrun. cbn [fst snd].
  assert (Hloop : _event_loop s' = LoopIdle).
  { destruct (executing s) eqn:Hex.
    - rewrite execute_async_busy in Hrun by exact Hex. now inversion Hrun; subst.
    - rewrite execute_async_started in Hrun by exact Hex.
      destruct (agent user_input) as [response|e|later];
        [| destruct (is_KeyboardInterrupt e); [|destruct (is_Exception e)] |];
        inversion Hrun; subst; exact Hidle. }
  assert (Hsame : set_event_loop LoopIdle (set_event_loop LoopRunning s') = s').
  { destruct s'; simpl in *. now subst. }
  destruct p as [[response|e]|call]; cbn.
  - now rewrite Hsame.
  - destruct (leaves_loop e); cbn; now rewrite Hsame.
  - destruct s'; reflexivity.
Qed.









End GateProperties.

(** ** The order of datetimes *)

Lemma lex_leb_refl (a : list N) : lex_leb a a = true.
Proof.
  induction a as [|x a IH]; simpl; [reflexivity|].
  rewrite N.eqb_refl, IH. apply orb_true_r.
Qed.

Lemma lex_leb_trans (a b c : list N) :
  lex_leb a b = true -> lex_leb b c = true -> lex_leb a c = true.
Proof.
  revert b c. induction a as [|x a IH]; intros [|y b] [|z c]; simpl; try congruence.
  intros Hab Hbc.
  apply orb_true_iff in Hab. apply orb_true_iff in Hbc. apply orb_true_iff.
  destruct Hab as [Hxy|Hxy]; destruct Hbc as [Hyz|Hyz].
  - left. apply N.ltb_lt in Hxy, Hyz. apply N.ltb_lt. lia.
  - apply andb_true_iff in Hyz as [Hyz _]. apply N.eqb_eq in Hyz. subst z. now left.
  - apply andb_true_iff in Hxy as [Hxy _]. apply N.eqb_eq in Hxy. subst y. now left.
  - apply andb_true_iff in Hxy as [Hxy Hab]. apply andb_true_iff in Hyz as [Hyz Hbc].
    apply N.eqb_eq in Hxy, Hyz. subst y z. right.
    rewrite N.eqb_refl. simpl. eapply IH; eassumption.
Qed.

Lemma datetime_le_refl (a : datetime) : datetime_le a a.
Proof. apply lex_leb_refl. Qed.

Lemma datetime_le_trans (a b c : datetime) :
  datetime_le a b -> datetime_le b c -> datetime_le a c.
Proof. apply lex_leb_trans. Qed.

Lemma nondecreasing_cons (a b : datetime) (l : list datetime) :
  nondecreasing (a :: b :: l) = true <-> datetime_le a b /\ nondecreasing (b :: l) = true.
Proof. unfold datetime_le. simpl. rewrite andb_true_iff. tauto. Qed.

(** ** The session store *)

Module SessionProperties.
Import SessionManager Scenario.

(** C4 (amended).  [add_message] checks nothing: for every role, one of
    [user], [agent], [system] or not, it returns, with the one new message at
    the end of the transcript, stamped with the first clock reading, and with
    [updated_at] set to the second; nothing else changes. *)
Theorem add_message_appends_any_role
    (role content : string) (metadata tool_calls : json)
    (t_message t_updated : datetime) (self : t) :
  let st := session_state self in
  let message :=
    ConversationMessage.mk role content t_message
      (if truthy metadata then metadata else JObject []) tool_calls in
  add_message role content metadata tool_calls t_message t_updated self =
    (Ok tt,
     mk (SessionState.mk (SessionState.session_id st) (SessionState.created_at st)
           t_updated (SessionState.messages st ++ [message])
           (SessionState.tool_executions st) (SessionState.current_agent st)
           (SessionState.current_model st) (SessionState.metadata st))).
Proof. destruct self as [[sid c u ms ts a m md]]. reflexivity. Qed.

(** A role outside the three of the data model is accepted like any other. *)
Lemma add_message_unknown_role_accepted :
  known_role "moderator" = false /\ ~ add_message_rejects "moderator".
Proof.
  split; [reflexivity|]. intros Hrej.
  destruct (Hrej "hello" JNull JNull
              (mk_datetime 2024 1 5 10 0 0 0) (mk_datetime 2024 1 5 10 0 0 1)
              (init "0f8fad5b" (mk_datetime 2024 1 5 9 0 0 0) (mk_datetime 2024 1 5 9 0 0 0)
                    "react" "claude-sonnet-4")) as [e He].
  discriminate He.
Qed.

(** Every mutation returns and keeps [created_at]. *)
Lemma apply_returns (m : mutation) (self : t) :
  apply m self = (Ok tt, snd (apply m self)) /\
  created_at (snd (apply m self)) = created_at self.
Proof. destruct self as [[sid c u ms ts a mo md]]. destruct m; split; reflexivity. Qed.

(** A mutation stores its last clock reading in [updated_at]. *)
Lemma apply_clock (m : mutation) (self : t) (later : list datetime) :
  nondecreasing (updated_at self :: readings m ++ later) = true ->
  datetime_le (updated_at self) (updated_at (snd (apply m self))) /\
  nondecreasing (updated_at (snd (apply m self)) :: later) = true.
Proof.
  destruct self as [[sid c u ms ts a mo md]].
  destruct m; cbn [readings app]; intros Hclock;
    repeat match goal with
    | H : nondecreasing (_ :: _ :: _) = true |- _ =>
        apply nondecreasing_cons in H; destruct H
    end;
    (split; [|assumption]); unfold updated_at in *; simpl in *;
    eauto using datetime_le_trans.
Qed.

Lemma apply_messages (m : mutation) (self : t) (msg : ConversationMessage.t) :
  message_of m = Some msg ->
  messages (snd (apply m self)) = (messages self ++ [msg])%list.
Proof.
  destruct self as [[sid c u ms ts a mo md]].
  destruct m; simpl; intros Hm; try discriminate. now inversion Hm.
Qed.

Lemma slice_index_nonneg (n : nat) (i : Z) :
  (0 <= i)%Z -> slice_index n i = Nat.min (Z.to_nat i) n.
Proof.
  intros Hi. unfold slice_index.
  destruct (i <? 0)%Z eqn:Hneg; [apply Z.ltb_lt in Hneg; lia|]. lia.
Qed.

Lemma slice_from_nonneg {A} (l : list A) (i : Z) :
  (0 <= i)%Z -> slice_from l i = drop (Z.to_nat i) l.
Proof.
  intros Hi. unfold slice_from. rewrite slice_index_nonneg by exact Hi.
  destruct (Nat.min_spec (Z.to_nat i) (length l)) as [[_ Hmin]|[Hle Hmin]];
    rewrite Hmin; [reflexivity|].
  rewrite drop_all. symmetry. apply drop_ge. exact Hle.
Qed.

Lemma slice_to_nonneg {A} (l : list A) (j : Z) :
  (0 <= j)%Z -> slice_to l j = take (Z.to_nat j) l.
Proof.
  intros Hj. unfold slice_to. rewrite slice_index_nonneg by exact Hj.
  destruct (Nat.min_spec (Z.to_nat j) (length l)) as [[_ Hmin]|[Hle Hmin]];
    rewrite Hmin; [reflexivity|].
  rewrite firstn_all. symmetry. apply take_ge. exact Hle.
Qed.

Lemma get_messages_all (self : t) :
  get_messages None 0 self = (Ok (messages self), self).
Proof.
  unfold get_messages, bind, get, ret. simpl.
  rewrite slice_from_nonneg by reflexivity. reflexivity.
Qed.

(** C5.  Of a list of mutations whose clock readings never go back, starting
    from a session with [created_at <= updated_at]: every call returns; if
    the calls are all [add_message], [get_messages()] returns the earlier
    messages followed by the new ones in the order of the calls; the
    successive values of [updated_at] never go back; and
    [created_at <= updated_at] holds after every call. *)
Theorem mutations_keep_order_and_clock (ms : list mutation) (self : t) :
  datetime_le (created_at self) (updated_at self) ->
  nondecreasing (updated_at self :: flat_map readings ms) = true ->
  exists self',
    run ms self = (Ok tt, self') /\
    ((forall m, In m ms -> is_Some (message_of m)) ->
       get_messages None 0 self' = (Ok (messages self ++ omap message_of ms)%list, self')) /\
    nondecreasing (map updated_at (self :: states_after ms self)) = true /\
    Forall (fun s => datetime_le (created_at s) (updated_at s)) (states_after ms self).
Proof.
  revert self. induction ms as [|m rest IH]; intros self Hinv Hclock.
  - exists self. repeat split; [|constructor].
    intros _. rewrite get_messages_all. simpl. now rewrite app_nil_r.
  - destruct (apply_returns m self) as [Hrun Hcreated].
    destruct (apply_clock m self _ Hclock) as [Hle Hlater].
    set (self1 := snd (apply m self)) in *.
    assert (Hinv1 : datetime_le (created_at self1) (updated_at self1)).
    { rewrite Hcreated. eapply datetime_le_trans; eassumption. }
    destruct (IH self1 Hinv1 Hlater) as (self' & Hrest & Horder & Hmono & Hall).
    exists self'. split; [|split; [|split]].
    + simpl. unfold bind. rewrite Hrun. exact Hrest.
    + intros Hadd.
      destruct (Hadd m (or_introl eq_refl)) as [msg Hmsg].
      rewrite Horder by (intros m' Hin; apply Hadd; now right).
      simpl. rewrite Hmsg. simpl.
      pose proof (apply_messages m self msg Hmsg) as Hm1. fold self1 in Hm1.
      rewrite Hm1. now rewrite <- app_assoc.
    + cbn [states_after]. fold self1. cbn [map].
      apply nondecreasing_cons. split; [exact Hle | exact Hmono].
    + cbn [states_after]. fold self1. constructor; assumption.
Qed.

Lemma mutations_keep_order_and_clock_witness :
  datetime_le (created_at fresh_manager) (updated_at fresh_manager) /\
  nondecreasing (updated_at fresh_manager :: flat_map readings hello_calls) = true /\
  exists self',
    run hello_calls fresh_manager = (Ok tt, self') /\
    map ConversationMessage.content (messages self') = ["Hello"; "Hi there"].
Proof.
  split; [reflexivity|]. split; [reflexivity|].
  destruct (mutations_keep_order_and_clock hello_calls fresh_manager eq_refl eq_refl)
    as (self' & Hrun & Horder & _).
  exists self'. split; [exact Hrun|].
  assert (Hadd : forall m, In m hello_calls -> is_Some (message_of m)).
  { intros m [<-|[<-|[]]]; eexists; reflexivity. }
  specialize (Horder Hadd). rewrite get_messages_all in Horder.
  inversion Horder as [Hmsgs]. rewrite Hmsgs. reflexivity.
Defined.

(** *** [get_messages] *)

(** For an offset that is not negative and a limit above zero the slice is
    the window of the transcript that the two name, and the store is not
    changed. *)
Lemma get_messages_window (limit offset : Z) (self : t) :
  (0 <= offset)%Z -> (0 < limit)%Z ->
  get_messages (Some limit) offset self =
    (Ok (take (Z.to_nat limit) (drop (Z.to_nat offset) (messages self))), self).
Proof.
  intros Hoff Hlim. unfold get_messages, bind, get, ret. simpl.
  destruct (limit =? 0)%Z eqn:Hz; [apply Z.eqb_eq in Hz; lia|]. simpl.
  rewrite slice_from_nonneg by exact Hoff.
  rewrite slice_to_nonneg by lia. reflexivity.
Qed.

Lemma get_messages_from (offset : Z) (self : t) :
  (0 <= offset)%Z ->
  get_messages None offset self = (Ok (drop (Z.to_nat offset) (messages self)), self).
Proof.
  intros Hoff. unfold get_messages, bind, get, ret. simpl.
  rewrite slice_from_nonneg by exact Hoff. reflexivity.
Qed.

(** The window holds the messages at the positions [offset] to
    [offset + limit - 1]. *)
Lemma window_positions {A} (l : list A) (limit offset i : nat) :
  take limit (drop offset l) !! i = if decide (i < limit)%nat then l !! (offset + i)%nat else None.
Proof.
  case_decide as Hi.
  - rewrite lookup_take_lt by exact Hi. apply lookup_drop.
  - apply lookup_take_ge. lia.
Qed.

(** No call of [get_messages] changes the store. *)
Lemma get_messages_reads_only (limit : option Z) (offset : Z) (self : t) :
  snd (get_messages limit offset self) = self.
Proof. unfold get_messages, bind, get, ret. simpl. now destruct (given limit). Qed.

(** An offset below zero counts from the end of the transcript, as Python
    slices do. *)
Lemma get_messages_negative_offset :
  map ConversationMessage.content (returned_list (fst (get_messages None (-1) hello_manager)))
  = ["Hi there"].
Proof. reflexivity. Qed.

(** C7, at the limit zero.  [get_messages] takes [limit=0] for "no limit":
    it returns what the call without limit returns, here both messages of the
    transcript, where a limit of zero messages asks for none. *)
Theorem get_messages_limit_zero_returns_all :
  (forall offset self,
     get_messages (Some 0%Z) offset self = get_messages None offset self) /\
  map ConversationMessage.content (messages hello_manager) = ["Hello"; "Hi there"] /\
  get_messages (Some 0%Z) 0 hello_manager = (Ok (messages hello_manager), hello_manager) /\
  get_messages (Some 0%Z) 0 hello_manager <> (Ok [], hello_manager).
Proof.
  split; [reflexivity|]. split; [reflexivity|]. split; [reflexivity|]. discriminate.
Qed.

(** *** [get_context] *)

Lemma context_loop (msgs : list ConversationMessage.t) (acc : list context_entry) :
  fold_left
    (fun context msg =>
       (context ++ [mk_entry (ConversationMessage.role msg)
                             (ConversationMessage.content msg)])%list)
    msgs acc
  = (acc ++ map (fun msg => mk_entry (ConversationMessage.role msg)
                                     (ConversationMessage.content msg)) msgs)%list.
Proof.
  revert acc. induction msgs as [|msg msgs IH]; intros acc; simpl.
  - now rewrite app_nil_r.
  - rewrite IH. now rewrite <- app_assoc.
Qed.

(** Without a budget the context is the whole projection. *)
Lemma get_context_no_budget (self : t) :
  get_context None self = (Ok (projection (session_state self)), self).
Proof.
  unfold get_context, bind, get, ret. simpl. now rewrite context_loop.
Qed.

Lemma content_chars_cons (e : context_entry) (context : list context_entry) :
  content_chars (e :: context) =
    (Z.of_nat (String.length (entry_content e)) + content_chars context)%Z.
Proof. unfold content_chars. simpl. lia. Qed.

Lemma content_chars_nonneg (context : list context_entry) : (0 <= content_chars context)%Z.
Proof. unfold content_chars. lia. Qed.

(** The loop drops a prefix of the context, stops at the first suffix within
    the budget, and drops nothing that it could have kept. *)
Lemma remove_oldest_suffix (budget : Z) (context : list context_entry) :
  (0 <= budget)%Z ->
  exists dropped,
    context = (dropped ++ remove_oldest budget context (content_chars context))%list /\
    (content_chars (remove_oldest budget context (content_chars context)) <= budget)%Z /\
    (forall earlier e, dropped = (earlier ++ [e])%list ->
       (budget < content_chars (e :: remove_oldest budget context (content_chars context)))%Z).
Proof.
  intros Hbudget. induction context as [|removed rest IH].
  - exists []. simpl. repeat split; [exact Hbudget|].
    intros [|? ?] e He; discriminate He.
  - simpl. destruct (content_chars (removed :: rest) >? budget)%Z eqn:Hover.
    + replace (content_chars (removed :: rest)
               - Z.of_nat (String.length (entry_content removed)))%Z
        with (content_chars rest) by (rewrite content_chars_cons; lia).
      destruct IH as (dropped & Hsplit & Hfit & Hlast).
      exists (removed :: dropped). split; [simpl; now rewrite <- Hsplit|].
      split; [exact Hfit|].
      intros earlier e He. destruct earlier as [|e0 earlier].
      * simpl in He. inversion He as [[He1 He2]]. subst e dropped.
        simpl in Hsplit. rewrite <- Hsplit. apply Z.gtb_lt in Hover. lia.
      * simpl in He. inversion He as [[He1 He2]]. eapply Hlast. exact He2.
    + exists []. split; [reflexivity|]. split.
      * destruct (Z.gtb_spec (content_chars (removed :: rest)) budget); [discriminate|lia].
      * intros [|? ?] e He; discriminate He.
Qed.

(** With a budget above zero the context is the longest suffix of the
    projection, among those reached by dropping the oldest entry, whose
    contents hold at most [4 * max_tokens] characters; the store is not
    changed. *)
Lemma get_context_positive_budget (max_tokens : Z) (self : t) :
  (0 < max_tokens)%Z ->
  exists dropped context,
    get_context (Some max_tokens) self = (Ok context, self) /\
    projection (session_state self) = (dropped ++ context)%list /\
    (content_chars context <= 4 * max_tokens)%Z /\
    (forall earlier e, dropped = (earlier ++ [e])%list ->
       (4 * max_tokens < content_chars (e :: context))%Z).
Proof.
  intros Hpos. unfold get_context, bind, get, ret. simpl.
  destruct (max_tokens =? 0)%Z eqn:Hz; [apply Z.eqb_eq in Hz; lia|]. simpl.
  rewrite context_loop. simpl. fold (projection (session_state self)).
  set (context := projection (session_state self)).
  destruct (remove_oldest_suffix (max_tokens * 4) context ltac:(lia))
    as (dropped & Hsplit & Hfit & Hlast).
  destruct (content_chars context >? max_tokens * 4)%Z eqn:Hover.
  - exists dropped, (remove_oldest (max_tokens * 4) context (content_chars context)).
    split; [reflexivity|]. split; [exact Hsplit|]. split; [lia|].
    intros earlier e He. specialize (Hlast earlier e He). lia.
  - exists [], context. split; [reflexivity|]. split; [reflexivity|]. split.
    + destruct (Z.gtb_spec (content_chars context) (max_tokens * 4)); [discriminate|lia].
    + intros [|? ?] e He; discriminate He.
Qed.

(** C6, at the budget zero.  [get_context] takes [max_tokens=0] for "no
    budget": it returns what the call without budget returns, here the whole
    projection with its thirteen characters of content, where a budget of
    zero tokens allows none. *)
Theorem get_context_zero_budget_returns_all :
  (forall self, get_context (Some 0%Z) self = get_context None self) /\
  get_context (Some 0%Z) hello_manager =
    (Ok [mk_entry "user" "Hello"; mk_entry "agent" "Hi there"], hello_manager) /\
  content_chars [mk_entry "user" "Hello"; mk_entry "agent" "Hi there"] = 13%Z /\
  ~ (content_chars [mk_entry "user" "Hello"; mk_entry "agent" "Hi there"] <= 4 * 0)%Z.
Proof.
  split; [reflexivity|]. split; [reflexivity|]. split; [reflexivity|].
  vm_compute. intros H. now apply H.
Qed.

End SessionProperties.

(** ** Datetimes as text *)

Lemma digit_value_digit (k : N) : digit_value (digit k) = Some (k mod 10)%N.
Proof.
  unfold digit_value, digit.
  assert (Hlt : (k mod 10 < 10)%N) by (apply N.mod_lt; discriminate).
  generalize dependent (k mod 10)%N. intros r Hlt.
  rewrite N_ascii_embedding by lia.
  destruct (48 <=? 48 + r)%N eqn:H1; [|apply N.leb_gt in H1; exfalso; lia].
  destruct (48 + r <=? 57)%N eqn:H2; [|apply N.leb_gt in H2; exfalso; lia].
  cbv [andb]. f_equal. lia.
Qed.

Lemma read_digits_zfill (w : nat) (acc n : N) (rest : string) :
  read_digits w acc (zfill w n ++ rest) =
    Some ((acc * 10 ^ N.of_nat w + n mod 10 ^ N.of_nat w)%N, rest).
Proof.
  revert acc. induction w as [|w IH]; intros acc.
  - simpl. rewrite str_app_nil_l. rewrite N.mod_1_r. do 2 f_equal. lia.
  - cbn [zfill read_digits]. rewrite str_app_cons. rewrite digit_value_digit. rewrite IH.
    do 2 f_equal. rewrite Nat2N.inj_succ, N.pow_succ_r'.
    rewrite (N.mul_comm 10 (10 ^ N.of_nat w)).
    rewrite N.Div0.mod_mul_r.
    generalize (n mod 10 ^ N.of_nat w)%N ((n / 10 ^ N.of_nat w) mod 10)%N
               (10 ^ N.of_nat w)%N.
    intros a b c. lia.
Qed.

Lemma read_digits_zfill_small (w : nat) (n : N) (rest : string) :
  (n < 10 ^ N.of_nat w)%N ->
  read_digits w 0 (zfill w n ++ rest) = Some (n, rest).
Proof.
  intros Hn. rewrite read_digits_zfill. rewrite N.mod_small by exact Hn.
  do 2 f_equal.
Qed.

Lemma read_char_literal (c : ascii) (rest : string) :
  read_char c (String c "" ++ rest) = Some rest.
Proof. rewrite str_app_cons, str_app_nil_l. unfold read_char. now rewrite Ascii.eqb_refl. Qed.

Lemma read_2_digits (n : N) (rest : string) :
  (n < 100)%N -> read_digits 2 0 (zfill 2 n ++ rest) = Some (n, rest).
Proof. intros Hn. now apply read_digits_zfill_small. Qed.

Lemma read_4_digits (n : N) (rest : string) :
  (n < 10000)%N -> read_digits 4 0 (zfill 4 n ++ rest) = Some (n, rest).
Proof. intros Hn. now apply read_digits_zfill_small. Qed.

Lemma read_6_digits (n : N) (rest : string) :
  (n < 1000000)%N -> read_digits 6 0 (zfill 6 n ++ rest) = Some (n, rest).
Proof. intros Hn. now apply read_digits_zfill_small. Qed.

Lemma days_in_month_le (y m : N) : (days_in_month y m <= 31)%N.
Proof.
  unfold days_in_month.
  repeat match goal with |- context [if ?b then _ else _] => destruct b end; lia.
Qed.

Lemma parse_time_reads (h mi sec us : N) :
  (h < 24)%N -> (mi < 60)%N -> (sec < 60)%N -> (us < 1000000)%N ->
  parse_time (zfill 2 h ++ ":" ++ zfill 2 mi ++ ":" ++ zfill 2 sec ++
              (if (us =? 0)%N then "" else "." ++ zfill 6 us))
  = Some (h, mi, sec, us).
Proof.
  intros Hh Hmi Hsec Hus. unfold parse_time.
  rewrite read_2_digits by lia. cbn [mbind option_bind].
  rewrite read_char_literal. cbn [mbind option_bind].
  rewrite read_2_digits by lia. cbn [mbind option_bind].
  rewrite read_char_literal. cbn [mbind option_bind].
  rewrite read_2_digits by lia. cbn [mbind option_bind].
  destruct (us =? 0)%N eqn:Hzero.
  - apply N.eqb_eq in Hzero. now subst us.
  - rewrite str_app_cons, str_app_nil_l. rewrite Ascii.eqb_refl.
    rewrite <- (str_app_nil_r (zfill 6 us)).
    rewrite read_6_digits by lia. reflexivity.
Qed.

Lemma fromisoformat_basic_reads_isoformat : reads_isoformat fromisoformat_basic.
Proof.
  intros [y m d h mi sec us] Hvalid.
  pose proof Hvalid as Hv. unfold valid_datetime in Hv. simpl in Hv.
  repeat match goal with
  | H : (_ && _)%bool = true |- _ => apply andb_true_iff in H; destruct H
  end.
  repeat match goal with
  | H : (_ <=? _)%N = true |- _ => apply N.leb_le in H
  | H : (_ <? _)%N = true |- _ => apply N.ltb_lt in H
  end.
  pose proof (days_in_month_le y m) as Hdays.
  unfold fromisoformat_basic, isoformat. cbn [year month day hour minute second microsecond].
  rewrite read_4_digits by lia. cbn [mbind option_bind].
  rewrite read_char_literal. cbn [mbind option_bind].
  rewrite read_2_digits by lia. cbn [mbind option_bind].
  rewrite read_char_literal. cbn [mbind option_bind].
  rewrite read_2_digits by lia. cbn [mbind option_bind].
  rewrite str_app_cons, str_app_nil_l.
  rewrite parse_time_reads by assumption. cbn [mbind option_bind].
  now rewrite Hvalid.
Qed.

(** ** The persistence layer *)

Module PersistenceProperties.
Import SessionPersistence Scenario.

(** *** Round trip through the session document *)

Lemma sequence_typed_all {A} (l : list A) : sequence_typed (map Some l) = Some l.
Proof. induction l as [|a l IH]; simpl; [reflexivity|]. now rewrite IH. Qed.

Lemma message_from_dict_to_dict (parse : iso_parser) (msg : ConversationMessage.t) :
  reads_isoformat parse ->
  valid_datetime (ConversationMessage.timestamp msg) = true ->
  ConversationMessage.from_dict parse (ConversationMessage.to_dict msg) = Ok (Some msg).
Proof.
  intros Hparse Hvalid. destruct msg as [r c ts md tc].
  unfold ConversationMessage.from_dict, ConversationMessage.to_dict.
  cbn -[isoformat]. cbn in Hvalid. now rewrite (Hparse ts Hvalid).
Qed.

Lemma tool_from_dict_to_dict (parse : iso_parser) (tool : ToolExecution.t) :
  reads_isoformat parse ->
  valid_datetime (ToolExecution.timestamp tool) = true ->
  ToolExecution.from_dict parse (ToolExecution.to_dict tool) = Ok (Some tool).
Proof.
  intros Hparse Hvalid. destruct tool as [n a r x ts e].
  unfold ToolExecution.from_dict, ToolExecution.to_dict.
  cbn -[isoformat]. cbn in Hvalid. rewrite (Hparse ts Hvalid).
  now destruct e.
Qed.

Lemma messages_from_dict_to_dict (parse : iso_parser) (msgs : list ConversationMessage.t) :
  reads_isoformat parse ->
  forallb (fun msg => valid_datetime (ConversationMessage.timestamp msg)) msgs = true ->
  mapM (ConversationMessage.from_dict parse) (map ConversationMessage.to_dict msgs)
  = Ok (map Some msgs).
Proof.
  intros Hparse. induction msgs as [|msg msgs IH]; intros Hvalid; [reflexivity|].
  cbn [forallb] in Hvalid. apply andb_true_iff in Hvalid as [Hmsg Hrest].
  cbn [map mapM]. rewrite message_from_dict_to_dict by assumption.
  cbn [mbind outcome_bind]. fold (mapM (ConversationMessage.from_dict parse)).
  now rewrite IH.
Qed.

Lemma tools_from_dict_to_dict (parse : iso_parser) (tools : list ToolExecution.t) :
  reads_isoformat parse ->
  forallb (fun tool => valid_datetime (ToolExecution.timestamp tool)) tools = true ->
  mapM (ToolExecution.from_dict parse) (map ToolExecution.to_dict tools)
  = Ok (map Some tools).
Proof.
  intros Hparse. induction tools as [|tool tools IH]; intros Hvalid; [reflexivity|].
  cbn [forallb] in Hvalid. apply andb_true_iff in Hvalid as [Htool Hrest].
  cbn [map mapM]. rewrite tool_from_dict_to_dict by assumption.
  cbn [mbind outcome_bind]. fold (mapM (ToolExecution.from_dict parse)).
  now rewrite IH.
Qed.

(** [from_dict] undoes [to_dict]. *)
Lemma session_from_dict_to_dict (parse : iso_parser) (st : SessionState.t) :
  reads_isoformat parse ->
  SessionState.valid_timestamps st = true ->
  SessionState.from_dict parse (SessionState.to_dict st) = Ok (Some st).
Proof.
  intros Hparse Hvalid. destruct st as [sid c u msgs tools a m md].
  unfold SessionState.valid_timestamps in Hvalid. cbn in Hvalid.
  apply andb_true_iff in Hvalid as [Hvalid Htools].
  apply andb_true_iff in Hvalid as [Hvalid Hmsgs].
  apply andb_true_iff in Hvalid as [Hc Hu].
  unfold SessionState.from_dict, SessionState.to_dict.
  cbn -[isoformat mapM]. rewrite (Hparse c Hc). cbn -[isoformat mapM].
  rewrite (Hparse u Hu). cbn -[isoformat mapM].
  rewrite messages_from_dict_to_dict by assumption. cbn -[isoformat mapM].
  rewrite tools_from_dict_to_dict by assumption. cbn -[isoformat mapM].
  now rewrite !sequence_typed_all.
Qed.

(** [load_session] by cases on what the path holds. *)
Lemma load_session_cases (parse : iso_parser) (path : string) (fs : gmap string file) :
  load_session parse path fs =
    match fs !! path with
    | None => (Ok None, fs)
    | Some (TextFile _) => (Ok None, fs)
    | Some (JsonFile doc) =>
        match SessionState.from_dict parse doc with
        | Ok st => (Ok (Some (loaded_of st)), fs)
        | Raise e => if load_session_catches e then (Ok None, fs) else (Raise e, fs)
        end
    end.
Proof.
  cbv [load_session try_except bind open_read get json_load lift ret raise id].
  destruct (fs !! path) as [[text|doc]|]; try reflexivity.
  destruct (SessionState.from_dict parse doc) as [st|e]; [reflexivity|].
  now destruct (load_session_catches e).
Qed.

(** Loading a path at which a session document was just written. *)
Lemma load_written_session (parse : iso_parser) (path : string) (st : SessionState.t)
    (fs : gmap string file) :
  reads_isoformat parse ->
  SessionState.valid_timestamps st = true ->
  load_session parse path (<[path := JsonFile (SessionState.to_dict st)]> fs)
  = (Ok (Some (Session st)), <[path := JsonFile (SessionState.to_dict st)]> fs).
Proof.
  intros Hparse Hvalid. rewrite load_session_cases, lookup_insert_eq.
  now rewrite session_from_dict_to_dict by assumption.
Qed.

(** C2.  [save_session] returns the path it wrote, and [load_session] on
    that path returns the very session that was saved: every field, and the
    messages and tool executions one for one in their order.  The parser of
    timestamps is assumed to read back what [isoformat] writes, and the
    datetimes of the session to be ones that [datetime] can hold. *)
Theorem save_then_load_round_trip
    (parse : iso_parser) (self : t) (st : SessionState.t) (path : option string)
    (fs : gmap string file) :
  reads_isoformat parse ->
  SessionState.valid_timestamps st = true ->
  exists save_path fs',
    save_session self st path fs = (Ok save_path, fs') /\
    fs' !! save_path = Some (JsonFile (SessionState.to_dict st)) /\
    load_session parse save_path fs' = (Ok (Some (Session st)), fs').
Proof.
  intros Hparse Hvalid.
  unfold save_session, bind, write_file, modify, ret.
  eexists _, _. split; [reflexivity|]. split; [apply lookup_insert_eq|].
  now apply load_written_session.
Qed.

Lemma save_then_load_round_trip_witness :
  reads_isoformat fromisoformat_basic /\
  SessionState.valid_timestamps search_state = true /\
  exists save_path fs',
    save_session (mk "/home/user/.orbiton/history") search_state None ∅ = (Ok save_path, fs') /\
    save_path = "/home/user/.orbiton/history/session_0f8fad5b_20240105_090000.json" /\
    load_session fromisoformat_basic save_path fs' = (Ok (Some (Session search_state)), fs').
Proof.
  split; [exact fromisoformat_basic_reads_isoformat|]. split; [reflexivity|].
  destruct (save_then_load_round_trip fromisoformat_basic
              (mk "/home/user/.orbiton/history") search_state None ∅
              fromisoformat_basic_reads_isoformat eq_refl)
    as (save_path & fs' & Hsave & _ & Hload).
  exists save_path, fs'. split; [exact Hsave|]. split; [|exact Hload].
  unfold save_session, bind, write_file, modify, ret in Hsave.
  inversion Hsave as [[Hpath Hfs]]. reflexivity.
Defined.

(** *** What [load_session] catches *)

Lemma bind_raise_inv {A B} (m : outcome A) (f : A -> outcome B) (e : exception) :
  m ≫= f = Raise e -> m = Raise e \/ exists a, m = Ok a /\ f a = Raise e.
Proof.
  destruct m as [a|e']; cbn; intros H; [right; eauto|].
  left. now inversion H.
Qed.


Lemma dict_get_raise (data : json) (key : string) (default : json) (e : exception) :
  dict_get data key default = Raise e -> exc_cls e = AttributeError.
Proof.
  unfold dict_get. destruct data as [| | | | |items|members];
    try (intros H; now inversion H).
  destruct (assoc key members); intros H; inversion H.
Qed.





(** Splits a failure of a chain of steps at the step that failed. *)
Tactic Notation "failed_step" hyp(H) "as" ident(a) ident(Ha) :=
  apply bind_raise_inv in H as [H|(a & Ha & H)].






(** A document without [updated_at] yields [None]. *)
Lemma load_session_missing_key :
  load_session fromisoformat_basic "s.json" {["s.json" := JsonFile no_updated_at_doc]}
  = (Ok None, {["s.json" := JsonFile no_updated_at_doc]}).
Proof. rewrite load_session_cases, lookup_singleton_eq. reflexivity. Qed.

(** Of two defects the one that is met first decides: in a document that
    lacks [updated_at] and whose [created_at] is no date, the date is read
    first, and the failure is the [ValueError], which reaches the caller. *)
Lemma load_session_absent_key_raises :
  let fs : gmap string file := {["s.json" := JsonFile bad_created_no_updated_doc]} in
  object_lacks bad_created_no_updated_doc "updated_at" /\
  load_session fromisoformat_basic "s.json" fs
  = (Raise (mk_exception ValueError "Invalid isoformat string: 'not-a-date'"), fs) /\
  load_session fromisoformat_basic "s.json" fs <> (Ok None, fs).
Proof.
  cbv zeta. split; [eexists; split; reflexivity|].
  rewrite load_session_cases, lookup_singleton_eq. split; [reflexivity|discriminate].
Qed.

(** A text that is no date, in [created_at], in [updated_at] or in the
    [timestamp] of a message, yields a [ValueError] and not [None]. *)
Lemma load_session_bad_timestamps (doc : json) :
  In doc [bad_created_at_doc; bad_updated_at_doc; bad_timestamp_doc] ->
  load_session fromisoformat_basic "s.json" {["s.json" := JsonFile doc]}
  = (Raise (mk_exception ValueError "Invalid isoformat string: 'not-a-date'"),
     {["s.json" := JsonFile doc]}).
Proof.
  intros [<-|[<-|[<-|[]]]]; rewrite load_session_cases, lookup_singleton_eq; reflexivity.
Qed.

(** *** The markdown export *)

Lemma fold_left_blocks {A} (block : A -> list string)
    (step : list string -> A -> list string) :
  (forall lines x, step lines x = (lines ++ block x)%list) ->
  forall l acc, fold_left step l acc = (acc ++ flat_map block l)%list.
Proof.
  intros Hstep. induction l as [|x l IH]; intros acc; cbn [fold_left flat_map].
  - now rewrite app_nil_r.
  - rewrite IH, Hstep. now rewrite <- app_assoc.
Qed.

(** The lines of the export: the header, then the block of each message in
    the order of the transcript, then the section of the tool executions, each
    tool in its recorded order.  A message whose role is none of [user],
    [agent] and [system] has no block. *)
Lemma markdown_lines_structure (lib : formatters) (st : SessionState.t) :
  _format_markdown_lines lib st =
    (markdown_header st ++
     flat_map markdown_message (SessionState.messages st) ++
     markdown_tools lib (SessionState.tool_executions st))%list.
Proof.
  unfold _format_markdown_lines.
  rewrite (fold_left_blocks markdown_message).
  2:{ intros lines msg. unfold markdown_message, role_marker, append.
      destruct (String.eqb (ConversationMessage.role msg) "user");
        [now rewrite <- !app_assoc|].
      destruct (String.eqb (ConversationMessage.role msg) "agent");
        [now rewrite <- !app_assoc|].
      destruct (String.eqb (ConversationMessage.role msg) "system");
        [now rewrite <- !app_assoc|].
      now rewrite app_nil_r. }
  destruct (SessionState.tool_executions st) as [|tool tools] eqn:Htools.
  - cbn [markdown_tools]. now rewrite app_nil_r.
  - rewrite (fold_left_blocks (markdown_tool lib)).
    2:{ intros lines t. unfold markdown_tool, markdown_tool_error, result_preview, append.
        destruct (ToolExecution.error t) as [err|]; [destruct (negb (String.eqb err ""))|];
          cbn [List.app]; now rewrite <- !app_assoc. }
    unfold append, markdown_tools. cbn [List.app]. now rewrite <- !app_assoc.
Qed.

(** When every role is one of the three, every message has its block, which
    holds its content under the marker of its role. *)
Lemma markdown_message_known_role (msg : ConversationMessage.t) :
  SessionManager.known_role (ConversationMessage.role msg) = true ->
  exists marker,
    role_marker msg = Some marker /\
    markdown_message msg = [marker; ""; ConversationMessage.content msg; ""].
Proof.
  unfold SessionManager.known_role, markdown_message, role_marker.
  destruct (String.eqb (ConversationMessage.role msg) "user"); [eauto|].
  destruct (String.eqb (ConversationMessage.role msg) "agent"); [eauto|].
  destruct (String.eqb (ConversationMessage.role msg) "system"); [eauto|discriminate].
Qed.

Lemma str_take_length (n : nat) (s : string) : (String.length (str_take n s) <= n)%nat.
Proof.
  unfold str_take. revert s. induction n as [|n IH]; intros [|c s]; simpl; try lia.
  specialize (IH s). lia.
Qed.

(** The preview of a result is at most 203 characters long. *)
Lemma result_preview_bounded (tool : ToolExecution.t) :
  (String.length (result_preview tool) <= 203)%nat.
Proof.
  unfold result_preview. rewrite str_length_app.
  pose proof (str_take_length 200 (ToolExecution.result tool)). simpl. lia.
Qed.

(** The scenario of the specification: the header with the session id, then
    "Hello" under the heading of the user, then "Hi there" under the heading
    of the agent, and no section of tool executions. *)
Lemma markdown_hello_scenario (lib : formatters) :
  _format_markdown_lines lib hello_state =
    ["# Orbiton Agent Conversation";
     "";
     "**Session ID:** 0f8fad5b-d9cb-469f-a165-70867728950e";
     "**Created:** 2024-01-05 09:00:00";
     "**Updated:** 2024-01-05 09:00:04";
     "**Agent:** react";
     "**Model:** claude-sonnet-4";
     "";
     "---";
     "";
     "## " ++ icon_user ++ " User [09:00:01]";
     "";
     "Hello";
     "";
     "## " ++ icon_agent ++ " Agent [09:00:03]";
     "";
     "Hi there";
     ""].
Proof. rewrite markdown_lines_structure. reflexivity. Qed.

(** C8, at a message whose role is none of the three.  [add_message] stores
    the message of role "tool"; the markdown export is the header alone and
    holds neither the message nor a heading for it, while the plain-text
    export of the same session holds it under "TOOL". *)
Theorem markdown_omits_unknown_role (lib : formatters) :
  map ConversationMessage.content (SessionState.messages tool_role_state) = ["42 results"] /\
  _format_markdown_lines lib tool_role_state = markdown_header tool_role_state /\
  ~ In "42 results" (_format_markdown_lines lib tool_role_state) /\
  In "[09:00:02] TOOL:" (_format_text_lines tool_role_state) /\
  In "42 results" (_format_text_lines tool_role_state).
Proof.
  split; [reflexivity|]. split; [reflexivity|]. split.
  - rewrite markdown_lines_structure. vm_compute.
    intros H. repeat (destruct H as [H|H]; [discriminate H|]). exact H.
  - split; vm_compute; tauto.
Qed.

(** *** The format of an export *)

Lemma substring_whole (s : string) : substring 0 (String.length s) s = s.
Proof. induction s as [|c s IH]; simpl; [reflexivity|]. now rewrite IH. Qed.

Lemma substring_after (p s : string) (n : nat) :
  substring (String.length p) n (p ++ s) = substring 0 n s.
Proof.
  induction p as [|c p IH]; [reflexivity|].
  rewrite str_app_cons. simpl. exact IH.
Qed.

Lemma substring_split (s : string) (i : nat) :
  (i <= String.length s)%nat ->
  s = substring 0 i s ++ substring i (String.length s - i) s.
Proof.
  revert i. induction s as [|c s IH]; intros [|i] Hi; simpl in *; try lia.
  - reflexivity.
  - rewrite str_app_nil_l. now rewrite substring_whole.
  - rewrite str_app_cons. f_equal. apply IH. lia.
Qed.

Lemma endswith_app (p suffix : string) : endswith (p ++ suffix) suffix = true.
Proof.
  unfold endswith. rewrite str_length_app.
  replace (String.length p + String.length suffix - String.length suffix)%nat
    with (String.length p) by lia.
  rewrite substring_after, substring_whole, String.eqb_refl.
  apply andb_true_iff. split; [apply Nat.leb_le; lia | reflexivity].
Qed.

Lemma endswith_inv (s suffix : string) :
  endswith s suffix = true -> exists p, s = p ++ suffix.
Proof.
  unfold endswith. intros H. apply andb_true_iff in H as [Hlen Heq].
  apply Nat.leb_le in Hlen. apply String.eqb_eq in Heq.
  exists (substring 0 (String.length s - String.length suffix) s).
  pose proof (substring_split s (String.length s - String.length suffix)) as Hsplit.
  replace (String.length s - (String.length s - String.length suffix))%nat
    with (String.length suffix) in Hsplit by lia.
  rewrite Heq in Hsplit. apply Hsplit. lia.
Qed.

Lemma str_last_app (p s : string) : s <> "" -> str_last (p ++ s) = str_last s.
Proof.
  intros Hs. induction p as [|c p IH]; [reflexivity|].
  rewrite str_app_cons. cbn [str_last]. rewrite IH.
  destruct (p ++ s) eqn:Hps; [|reflexivity].
  destruct p; [now rewrite str_app_nil_l in Hps | now rewrite str_app_cons in Hps].
Qed.

(** A name that ends with [.md] ends with neither [.json] nor [.txt]. *)
Lemma md_name_not_json_txt (filename : string) :
  endswith (filename ++ ".md") ".json" = false /\
  endswith (filename ++ ".md") ".txt" = false.
Proof.
  split.
  - destruct (endswith (filename ++ ".md") ".json") eqn:H; [|reflexivity].
    apply endswith_inv in H as [p Hp]. apply (f_equal str_last) in Hp.
    rewrite !str_last_app in Hp by discriminate. discriminate Hp.
  - destruct (endswith (filename ++ ".md") ".txt") eqn:H; [|reflexivity].
    apply endswith_inv in H as [p Hp]. apply (f_equal str_last) in Hp.
    rewrite !str_last_app in Hp by discriminate. discriminate Hp.
Qed.

(** [export_session] by cases on the format and the end of the name. *)
Lemma export_session_md (lib : formatters) (cwd : string) (st : SessionState.t)
    (filename : string) (fs : gmap string file) :
  let target := if endswith filename ".md" then filename else filename ++ ".md" in
  export_session lib cwd st filename (Some "md") fs =
    (Ok (locate_export cwd target),
     <[locate_export cwd target := TextFile (_format_markdown lib st)]> fs).
Proof.
  cbv [export_session bind write_file modify ret default].
  cbn [String.eqb Ascii.eqb Bool.eqb andb].
  now destruct (endswith filename ".md").
Qed.

(** Without a format, [export_session] writes markdown under a name that
    ends with [.md], whatever extension the name came with. *)
Lemma export_session_default (lib : formatters) (cwd : string) (st : SessionState.t)
    (filename : string) (fs : gmap string file) :
  let target := if endswith filename ".md" then filename else filename ++ ".md" in
  export_session lib cwd st filename None fs =
    (Ok (locate_export cwd target),
     <[locate_export cwd target := TextFile (_format_markdown lib st)]> fs) /\
  endswith target ".md" = true.
Proof.
  split; [exact (export_session_md lib cwd st filename fs)|].
  destruct (endswith filename ".md") eqn:Hmd; [exact Hmd | apply endswith_app].
Qed.

(** The specified inference fails for [export_session]: called without a
    format on "notes.json" it writes markdown to "notes.json.md", which is not
    what the format [json] writes. *)
Lemma export_session_ignores_extension :
  endswith "notes.json" ".json" = true /\
  export_session plain_formatters "/work" hello_state "notes.json" None ∅ =
    (Ok "/work/notes.json.md",
     {["/work/notes.json.md" := TextFile (_format_markdown plain_formatters hello_state)]}) /\
  export_session plain_formatters "/work" hello_state "notes.json" (Some "json") ∅ =
    (Ok "/work/notes.json",
     {["/work/notes.json" := JsonFile (SessionState.to_dict hello_state)]}) /\
  export_session plain_formatters "/work" hello_state "notes.json" None ∅ <>
  export_session plain_formatters "/work" hello_state "notes.json" (Some "json") ∅.
Proof.
  split; [reflexivity|]. split; [reflexivity|]. split; [reflexivity|].
  intros H. apply (f_equal fst) in H. discriminate H.
Qed.

(** C9 (amended).  [export_session] infers nothing: without a format it
    takes [md], appends [.md] unless the name ends with it already, and
    writes markdown.  The inference is made by the [/save] command, which
    passes the format it found: a name that ends with [.json] is written as
    the session document, one that ends with [.txt] as plain text, one that
    ends with [.md] as markdown, each under its own name, and any other name
    gets [.md] appended and is written as markdown. *)
Theorem export_format_selection
    (lib : formatters) (cwd : string) (st : SessionState.t) (filename : string)
    (now : datetime) (fs : gmap string file) :
  let md_target := if endswith filename ".md" then filename else filename ++ ".md" in
  let save_target :=
    if CommandHandler.has_export_extension filename then filename else filename ++ ".md" in
  let save_content :=
    if endswith filename ".json" then JsonFile (SessionState.to_dict st)
    else if endswith filename ".txt" then TextFile (_format_text st)
    else TextFile (_format_markdown lib st) in
  export_session lib cwd st filename None fs =
    (Ok (locate_export cwd md_target),
     <[locate_export cwd md_target := TextFile (_format_markdown lib st)]> fs) /\
  endswith md_target ".md" = true /\
  CommandHandler._cmd_save lib cwd st [filename] now fs =
    (Ok (locate_export cwd save_target),
     <[locate_export cwd save_target := save_content]> fs).
Proof.
  cbv zeta. destruct (export_session_default lib cwd st filename fs) as [Hdefault Hmd].
  split; [exact Hdefault|]. split; [exact Hmd|].
  unfold CommandHandler._cmd_save, CommandHandler.has_export_extension.
  cbn [str_join].
  destruct (endswith filename ".md") eqn:Emd;
    destruct (endswith filename ".json") eqn:Ejson;
    destruct (endswith filename ".txt") eqn:Etxt; cbn [orb negb];
    rewrite ?Emd, ?Ejson, ?Etxt;
    try (cbv [export_session bind write_file modify ret default];
         cbn [String.eqb Ascii.eqb Bool.eqb andb];
         rewrite ?Emd, ?Ejson, ?Etxt; reflexivity).
  destruct (md_name_not_json_txt filename) as [Hj Ht]. rewrite Hj, Ht.
  rewrite export_session_md. now rewrite endswith_app.
Qed.

End PersistenceProperties.

(** ** The life cycle of the session *)

Module LifecycleProperties.
Import Gate Lifecycle.



(** X1.  [interrupt] acts only while a call is in flight: then it sets
    [interrupted] and nothing else; on a free session it changes nothing.
    After a call of [execute] in which the awaited call ended, however it
    ended, the gate is free and [interrupt] changes nothing: when the agent
    raised [KeyboardInterrupt], [interrupted] is true already, set by the
    gate itself.  After a call of [execute] that a [Ctrl-C] ended while the
    loop waited, the call is still in flight with [interrupted] false, and
    the [interrupt()] that the console makes then is what sets it. *)
Theorem interrupt_only_in_flight (agent : Agent) (user_input : string) (s : AgentSession) :
  executing s = false ->
  _event_loop s = LoopIdle ->
  let s' := snd (execute agent user_input s) in
  interrupt s = (Ok tt, s) /\
  interrupt (set_executing true s) = (Ok tt, set_interrupted true (set_executing true s)) /\
  match agent user_input with
  | Returns _ => executing s' = false /\ interrupt s' = (Ok tt, s')
  | Throws e =>
      executing s' = false /\ interrupt s' = (Ok tt, s') /\
      (is_KeyboardInterrupt e = true -> interrupted s' = true)
  | Waits _ =>
      fst (execute agent user_input s) = Raise keyboard_interrupt /\
      executing s' = true /\ interrupted s' = false /\
      interrupt s' = (Ok tt, set_interrupted true s')
  end.
Proof.
  intros Hfree Hidle s'.
  split; [unfold interrupt, bind, get, ret; now rewrite Hfree|].
  split; [reflexivity|].
  subst s'. rewrite GateProperties.execute_on_idle_loop by exact Hidle.
  rewrite GateProperties.execute_async_started by exact Hfree.
  destruct (agent user_input) as [response|e|later].
  - split; reflexivity.
  - destruct (is_KeyboardInterrupt e) eqn:Hkbd; [|destruct (is_Exception e)];
      repeat split; try reflexivity; discriminate.
  - repeat split.
Qed.

Lemma interrupt_only_in_flight_witness :
  let agent : Agent := fun _ => Waits (Returns "late") in
  let s := new_session false in
  let s' := snd (execute agent "hello" s) in
  executing s = false /\ _event_loop s = LoopIdle /\
  executing s' = true /\ interrupted s' = false /\
  interrupted (snd (interrupt s')) = true.
Proof.
  pose proof (interrupt_only_in_flight (fun _ => Waits (Returns "late")) "hello"
                (new_session false) eq_refl eq_refl) as (_ & _ & _ & H2 & H3 & H4).
  cbv zeta in *. split; [reflexivity|]. split; [reflexivity|].
  split; [exact H2|]. split; [exact H3|]. now rewrite H4.
Defined.

(** X2.  [reset] does not look at [executing]: called while a call is in
    flight it frees the gate, and the next [execute_async] starts the agent
    although the first call has not ended.  When the clearing of the agent's
    memory raises, the flags are left as they were. *)
Theorem reset_reopens_gate (agent : Agent) (user_input : string) (s : AgentSession) :
  executing s = true ->
  let s1 := snd (reset (Ok tt) s) in
  reset (Ok tt) s = (Ok tt, s1) /\
  executing s1 = false /\ interrupted s1 = false /\
  _event_loop s1 = _event_loop s /\ agent_calls s1 = agent_calls s /\
  fst (execute_async agent user_input s) = Raise already_executing /\
  agent_calls (snd (execute_async agent user_input s1)) = (agent_calls s ++ [user_input])%list /\
  (forall e, reset (Raise e) s = (Raise e, s)).
Proof.
  intros Hbusy s1. destruct s as [ex intr dbg lp calls]. simpl in Hbusy. subst ex.
  repeat split.
  subst s1. rewrite GateProperties.execute_async_started by reflexivity.
  destruct (agent user_input) as [response|e|later]; [reflexivity| |reflexivity].
  destruct (is_KeyboardInterrupt e); [reflexivity|].
  destruct (is_Exception e); reflexivity.
Qed.

Lemma reset_reopens_gate_witness :
  let s := mk_session true false false LoopRunning ["A"] in
  executing s = true /\
  agent_calls (snd (execute_async (fun _ => Returns "done") "B" (snd (reset (Ok tt) s))))
  = ["A"; "B"].
Proof.
  split; [reflexivity|].
  apply (reset_reopens_gate (fun _ => Returns "done") "B"
           (mk_session true false false LoopRunning ["A"]) eq_refl).
Defined.

(** [close] on a running loop. *)
Lemma close_running_loop (s : AgentSession) :
  _event_loop s = LoopRunning ->
  close s = (Raise (mk_exception RuntimeError "Cannot close a running event loop"), s).
Proof.
  intros Hrun. destruct s as [ex intr dbg lp calls]. simpl in Hrun. subst lp. reflexivity.
Qed.



End LifecycleProperties.

(** ** Configuration *)

Lemma assoc_dict_set_eq (key : string) (value : json) (members : list (string * json)) :
  assoc key (dict_set key value members) = Some value.
Proof.
  induction members as [|[k v] rest IH]; simpl.
  - now rewrite String.eqb_refl.
  - destruct (String.eqb key k) eqn:Hk; simpl; rewrite Hk; [reflexivity|exact IH].
Qed.

Lemma assoc_dict_set_ne (key other : string) (value : json) (members : list (string * json)) :
  other <> key -> assoc other (dict_set key value members) = assoc other members.
Proof.
  intros Hne. induction members as [|[k v] rest IH]; simpl.
  - apply String.eqb_neq in Hne. now rewrite Hne.
  - destruct (String.eqb key k) eqn:Hk; simpl.
    + apply String.eqb_eq in Hk. subst k.
      apply String.eqb_neq in Hne. now rewrite Hne.
    + now rewrite IH.
Qed.

Lemma dict_set_same (key : string) (value : json) (members : list (string * json)) :
  assoc key members = Some value -> dict_set key value members = members.
Proof.
  induction members as [|[k v] rest IH]; simpl; [discriminate|].
  destruct (String.eqb key k) eqn:Hk.
  - intros [= ->]. reflexivity.
  - intros H. now rewrite IH.
Qed.

Lemma assoc_In (key : string) (value : json) (members : list (string * json)) :
  assoc key members = Some value -> In (key, value) members.
Proof.
  induction members as [|[k v] rest IH]; simpl; [discriminate|].
  destruct (String.eqb key k) eqn:Hk.
  - intros [= ->]. apply String.eqb_eq in Hk. subst. now left.
  - intros H. right. now apply IH.
Qed.

Lemma assoc_None_not_In (key : string) (members : list (string * json)) :
  ~ In key (map fst members) -> assoc key members = None.
Proof.
  induction members as [|[k v] rest IH]; simpl; [reflexivity|].
  intros Hnot. destruct (String.eqb key k) eqn:Hk.
  - apply String.eqb_eq in Hk. subst. tauto.
  - apply IH. tauto.
Qed.

Module ConfigProperties.
Import ConfigManager.

Lemma lookup_path_empty_dict (keys : list string) :
  keys <> [] -> lookup_path keys (JObject []) = None.
Proof. destruct keys; [congruence|reflexivity]. Qed.

Lemma settable_empty_dict (keys : list string) :
  keys <> [] -> settable keys (JObject []) = true.
Proof. destruct keys as [|k [|k' rest]]; [congruence|reflexivity|reflexivity]. Qed.

(** One step of [_set_nested] on a path of two keys or more. *)
Lemma _set_nested_step (key next : string) (rest : list string) (value : json)
    (current : json) :
  _set_nested (key :: next :: rest) value current =
    match current with
    | JObject members =>
        let members1 :=
          match assoc key members with
          | Some _ => members
          | None => dict_set key (JObject []) members
          end in
        let child :=
          match assoc key members with
          | Some child => child
          | None => JObject []
          end in
        let '(r, child') := _set_nested (next :: rest) value child in
        (r, JObject (dict_set key child' members1))
    | _ =>
        (Raise (mk_exception TypeError
           match current with
           | JArray items =>
               "list indices must be integers or slices, not str"
           | JString s =>
               if str_contains s key then "string indices must be integers, not 'str'"
               else "'str' object does not support item assignment"
           | _ => "argument of type " ++ repr (type_name current) ++ " is not iterable"
           end), current)
    end.
Proof.
  destruct current as [| b | z | f | s | items | members]; try reflexivity.
  - cbn [_set_nested contains]. destruct (str_contains s key); reflexivity.
  - cbn [_set_nested contains].
    destruct (existsb _ items); reflexivity.
  - cbn [_set_nested contains].
    destruct (assoc key members) as [child|] eqn:Hassoc.
    + cbn [item_assign subscript]. rewrite Hassoc. reflexivity.
    + cbn [item_assign subscript]. rewrite assoc_dict_set_eq. reflexivity.
Qed.

Lemma _set_nested_last (key : string) (value : json) (current : json) :
  _set_nested [key] value current =
    match current with
    | JObject members => (Ok tt, JObject (dict_set key value members))
    | _ => (Raise (mk_exception TypeError
              match current with
              | JArray _ => "list indices must be integers or slices, not str"
              | _ => repr (type_name current) ++ " object does not support item assignment"
              end), current)
    end.
Proof. destruct current; reflexivity. Qed.

Lemma diverges_cons (key : string) (other keys : list string) :
  diverges other (key :: keys) ->
  (exists a rest_other, other = a :: rest_other /\ a <> key) \/
  (exists other', other = key :: other' /\ diverges other' keys).
Proof.
  intros (common & a & b & ro & rk & Ho & Hk & Hne).
  destruct common as [|c common]; simpl in *.
  - injection Hk as -> ->. left. eauto.
  - injection Hk as -> ->. right. exists (common ++ a :: ro)%list.
    split; [exact Ho|]. exists common, a, b, ro, rk. auto.
Qed.

Lemma diverges_nil (other : list string) : ~ diverges other [].
Proof. intros (common & a & b & ro & rk & _ & Hk & _). destruct common; discriminate. Qed.

Lemma diverges_nonempty (other keys : list string) : diverges other keys -> other <> [].
Proof. intros (common & a & b & ro & rk & Ho & _ & _) ->. destruct common; discriminate. Qed.

Lemma _set_nested_ok (keys : list string) (value : json) :
  forall config config',
    _set_nested keys value config = (Ok tt, config') ->
    lookup_path keys config' = Some value /\
    forall other, diverges other keys -> lookup_path other config' = lookup_path other config.
Proof.
  induction keys as [|key [|next rest] IH]; intros config config' Hset.
  - discriminate.
  - rewrite _set_nested_last in Hset.
    destruct config as [| | | | | |members]; try discriminate.
    injection Hset as <-. split.
    + simpl. now rewrite assoc_dict_set_eq.
    + intros other Hdiv. apply diverges_cons in Hdiv as [(a & ro & -> & Hne)|(o' & _ & Hdiv)].
      * simpl. now rewrite assoc_dict_set_ne.
      * now apply diverges_nil in Hdiv.
  - rewrite _set_nested_step in Hset.
    destruct config as [| | | | | |members]; try discriminate.
    cbv zeta in Hset.
    destruct (_set_nested (next :: rest) value
                match assoc key members with
                | Some child => child
                | None => JObject []
                end) as [r child'] eqn:Hrec.
    injection Hset as -> <-.
    destruct (IH _ _ Hrec) as [Hget Hframe]. split.
    + cbn [lookup_path]. rewrite assoc_dict_set_eq. exact Hget.
    + intros other Hdiv. apply diverges_cons in Hdiv as [(a & ro & -> & Hne)|(o' & -> & Hdiv)].
      * cbn [lookup_path]. rewrite assoc_dict_set_ne by exact Hne.
        destruct (assoc key members); [reflexivity|].
        now rewrite assoc_dict_set_ne.
      * cbn [lookup_path]. rewrite assoc_dict_set_eq. rewrite (Hframe _ Hdiv).
        destruct (assoc key members) as [child|]; [reflexivity|].
        apply lookup_path_empty_dict. eapply diverges_nonempty, Hdiv.
Qed.

Lemma _set_nested_cases (keys : list string) (value : json) :
  forall config,
    (settable keys config = true -> exists config', _set_nested keys value config = (Ok tt, config')) /\
    (settable keys config = false ->
       exists e, _set_nested keys value config = (Raise e, config) /\
                 (keys = [] \/ exc_cls e = TypeError)).
Proof.
  induction keys as [|key [|next rest] IH]; intros config.
  - split; [discriminate|]. intros _. eexists. split; [reflexivity|now left].
  - rewrite _set_nested_last.
    destruct config; simpl; split; try discriminate; intros _; eexists; eauto.
  - rewrite _set_nested_step.
    destruct config as [| | | | | |members];
      try (split; [discriminate|]; intros _; eexists; split; [reflexivity|now right]).
    cbv zeta. cbn [settable].
    destruct (assoc key members) as [child|] eqn:Hassoc.
    + destruct (IH child) as [Hyes Hno]. split.
      * intros Hs. destruct (Hyes Hs) as [child' ->]. eauto.
      * intros Hs. destruct (Hno Hs) as (e & -> & [?|He]); [discriminate|].
        exists e. rewrite dict_set_same by exact Hassoc. auto.
    + destruct (IH (JObject [])) as [Hyes _]. split; [|discriminate].
      intros _. destruct Hyes as [child' ->]; [|eauto].
      now apply settable_empty_dict.
Qed.

(** X4.  [ConfigManager.set] followed by [get]: when [set(key_path, value)]
    returns, [get(key_path)] returns [value] whatever the default, and the
    lookup along every path that leaves [key_path] at some key gives what it
    gave before. *)
Theorem set_then_get (key_path : string) (value default : json) (config config' : json) :
  set key_path value config = (Ok tt, config') ->
  get key_path default config' = value /\
  forall other, diverges other (split_dots key_path) ->
    lookup_path other config' = lookup_path other config.
Proof.
  unfold set, get. intros Hset.
  destruct (_set_nested_ok _ _ _ _ Hset) as [Hget Hframe].
  rewrite Hget. auto.
Qed.

Lemma set_then_get_witness :
  let config := JObject [("llm", JObject [("temperature", JInt 1)]); ("ui", JObject [])] in
  exists config',
    set "llm.default_model" (JString "gpt-4") config = (Ok tt, config') /\
    get "llm.default_model" JNull config' = JString "gpt-4" /\
    lookup_path ["llm"; "temperature"] config' = Some (JInt 1).
Proof.
  eexists. split; [reflexivity|].
  pose proof (set_then_get "llm.default_model" (JString "gpt-4") JNull
                (JObject [("llm", JObject [("temperature", JInt 1)]); ("ui", JObject [])])
                _ eq_refl) as [Hget Hframe].
  split; [exact Hget|].
  rewrite Hframe; [reflexivity|].
  exists ["llm"], "temperature", "default_model", [], []. repeat split. discriminate.
Defined.

(** X5.  [ConfigManager.set] either gets through or changes nothing.  It
    gets through exactly when the path, as far as it exists in the
    configuration, goes through dicts only; otherwise it raises a [TypeError]
    and the configuration is as it was before the call: no dict has been
    created on the way. *)
Theorem set_all_or_nothing (key_path : string) (value : json) (config : json) :
  (settable (split_dots key_path) config = true <->
     exists config', set key_path value config = (Ok tt, config')) /\
  (forall e config', set key_path value config = (Raise e, config') ->
     config' = config /\ exc_cls e = TypeError /\ settable (split_dots key_path) config = false).
Proof.
  unfold set.
  destruct (_set_nested_cases (split_dots key_path) value config) as [Hyes Hno].
  assert (Hne : split_dots key_path <> []).
  { destruct key_path as [|c s]; simpl; [discriminate|].
    destruct (Ascii.eqb c "."); [discriminate|]. destruct (split_dots s); discriminate. }
  destruct (settable (split_dots key_path) config) eqn:Hs.
  - destruct (Hyes eq_refl) as [config1 Hok]. split.
    + split; eauto.
    + intros e config' Hraise. congruence.
  - destruct (Hno eq_refl) as (e1 & Hraise1 & [?|He]); [contradiction|]. split.
    + split; [discriminate|]. intros [config' Hok]. congruence.
    + intros e config' Hraise. rewrite Hraise1 in Hraise. injection Hraise as <- <-. auto.
Qed.

Lemma merge_into_fold (base items : list (string * json)) :
  merge_into base (JObject items) =
    fold_left
      (fun result kv =>
         match assoc (fst kv) result, snd kv with
         | Some (JObject sub), JObject _ =>
             dict_set (fst kv) (JObject (merge_into sub (snd kv))) result
         | _, _ => dict_set (fst kv) (snd kv) result
         end)
      items base.
Proof.
  revert base. induction items as [|[key value] rest IH]; intros base; [reflexivity|].
  simpl. rewrite <- IH. reflexivity.
Qed.

Lemma merge_into_loop (base items : list (string * json)) :
  merge_into base (JObject items) =
    fold_left (fun result kv => dict_set (fst kv) (merged (assoc (fst kv) result) (snd kv)) result)
      items base.
Proof.
  rewrite merge_into_fold. revert base.
  induction items as [|[key value] rest IH]; intros base; [reflexivity|].
  simpl. rewrite <- IH. f_equal.
  unfold merged. destruct (assoc key base) as [[]|]; destruct value; reflexivity.
Qed.

(** What [_merge_configs] leaves under each key. *)
Lemma assoc_merge (key : string) (base override : list (string * json)) :
  NoDup (map fst override) ->
  assoc key (_merge_configs base override) =
    match assoc key override with
    | Some value => Some (merged (assoc key base) value)
    | None => assoc key base
    end.
Proof.
  unfold _merge_configs. rewrite merge_into_loop. revert base.
  induction override as [|[k v] rest IH]; intros base Hnodup; [reflexivity|].
  simpl in Hnodup. apply NoDup_cons in Hnodup as [Hnotin Hnodup].
  simpl. rewrite (IH _ Hnodup).
  destruct (String.eqb key k) eqn:Hk.
  - apply String.eqb_eq in Hk. subst k.
    rewrite list_elem_of_In in Hnotin.
    rewrite (assoc_None_not_In _ _ Hnotin). now rewrite assoc_dict_set_eq.
  - apply String.eqb_neq in Hk. now rewrite assoc_dict_set_ne.
Qed.

Lemma keys_unique_dict (members : list (string * json)) :
  keys_unique (JObject members) = true ->
  NoDup (map fst members) /\
  forall key value, assoc key members = Some value -> keys_unique value = true.
Proof.
  cbn [keys_unique]. intros H. apply andb_true_iff in H as [Hnodup Hall].
  apply bool_decide_eq_true in Hnodup. split; [exact Hnodup|].
  intros key value Hassoc. apply assoc_In in Hassoc.
  rewrite forallb_forall in Hall. exact (Hall _ Hassoc).
Qed.

Lemma silent_on_lookup (keys : list string) :
  forall override, silent_on keys override = true -> lookup_path keys override = None.
Proof.
  induction keys as [|key rest IH]; intros override; [discriminate|].
  destruct override as [| | | | | |members]; try discriminate.
  cbn [silent_on lookup_path].
  destruct (assoc key members) as [v|]; [|reflexivity].
  destruct rest as [|next rest]; [discriminate|]. apply IH.
Qed.

(** X6.  The precedence of [_merge_configs]: a value of [override] that is
    not a dict stands in the result at the same path, whatever [base] holds
    there; where [override] says nothing about a path, the result holds what
    [base] holds. *)
Theorem merge_precedence (keys : list string) :
  forall base override : list (string * json),
    keys_unique (JObject override) = true ->
    (forall value,
       lookup_path keys (JObject override) = Some value -> is_dict value = false ->
       lookup_path keys (JObject (_merge_configs base override)) = Some value) /\
    (silent_on keys (JObject override) = true ->
     lookup_path keys (JObject (_merge_configs base override)) =
     lookup_path keys (JObject base)).
Proof.
  induction keys as [|key rest IH]; intros base override Hunique.
  - split; [|discriminate]. intros value [= <-]. discriminate.
  - destruct (keys_unique_dict _ Hunique) as [Hnodup Hsub].
    cbn [lookup_path silent_on]. rewrite (assoc_merge key base override Hnodup).
    destruct (assoc key override) as [v|] eqn:Hv; [|split; [discriminate|reflexivity]].
    specialize (Hsub _ _ Hv).
    assert (Hplain : forall value, lookup_path rest v = Some value -> is_dict value = false ->
                     lookup_path rest (merged (assoc key base) v) = Some value).
    { intros value Hlook Hleaf. unfold merged.
      destruct (assoc key base) as [[| | | | | |sub]|]; try exact Hlook.
      destruct v as [| | | | | |o]; try exact Hlook.
      exact (proj1 (IH sub o Hsub) value Hlook Hleaf). }
    split; [exact Hplain|].
    destruct rest as [|next rest']; [discriminate|]. intros Hsilent.
    destruct v as [| | | | | |o]; try discriminate.
    unfold merged.
    destruct (assoc key base) as [[| | | | | |sub]|];
      try (now apply silent_on_lookup).
    exact (proj2 (IH sub o Hsub) Hsilent).
Qed.

Lemma merge_precedence_witness :
  let base := [("llm", JObject [("default_model", JString "gpt-4o"); ("temperature", JInt 1)])] in
  let override := [("llm", JObject [("default_model", JString "claude-sonnet-4")])] in
  keys_unique (JObject override) = true /\
  lookup_path ["llm"; "default_model"] (JObject (_merge_configs base override))
  = Some (JString "claude-sonnet-4") /\
  lookup_path ["llm"; "temperature"] (JObject (_merge_configs base override))
  = Some (JInt 1).
Proof.
  split; [reflexivity|]. split.
  - apply (merge_precedence ["llm"; "default_model"]
             [("llm", JObject [("default_model", JString "gpt-4o"); ("temperature", JInt 1)])]
             [("llm", JObject [("default_model", JString "claude-sonnet-4")])] eq_refl);
      reflexivity.
  - apply (merge_precedence ["llm"; "temperature"]
             [("llm", JObject [("default_model", JString "gpt-4o"); ("temperature", JInt 1)])]
             [("llm", JObject [("default_model", JString "claude-sonnet-4")])] eq_refl).
    reflexivity.
Defined.

End ConfigProperties.

(** ** The statistics of the store *)

Module StatisticsProperties.
Import SessionManager SessionStatistics.

Lemma count_role_filter (role : string) (msgs : list ConversationMessage.t) :
  count_role role msgs =
  length (List.filter (fun msg => String.eqb (ConversationMessage.role msg) role) msgs).
Proof.
  unfold count_role.
  assert (H : forall acc,
            fold_left
              (fun total msg =>
                 if String.eqb (ConversationMessage.role msg) role
                 then (total + 1)%nat else total) msgs acc =
            (acc + length (List.filter
                             (fun msg => String.eqb (ConversationMessage.role msg) role)
                             msgs))%nat).
  { induction msgs as [|msg msgs IH]; intros acc; simpl; [lia|].
    rewrite IH. destruct (String.eqb (ConversationMessage.role msg) role); simpl; lia. }
  now rewrite H.
Qed.

Lemma count_role_app (role : string) (msgs more : list ConversationMessage.t) :
  count_role role (msgs ++ more) = (count_role role msgs + count_role role more)%nat.
Proof. rewrite !count_role_filter, List.filter_app, length_app. reflexivity. Qed.

Lemma counted_roles (msgs : list ConversationMessage.t) :
  (count_role "user" msgs + count_role "agent" msgs <= length msgs)%nat /\
  ((count_role "user" msgs + count_role "agent" msgs)%nat = length msgs <->
   Forall (fun msg => counted_role (ConversationMessage.role msg) = true) msgs).
Proof.
  rewrite !count_role_filter. unfold counted_role.
  induction msgs as [|msg msgs [IHle IHeq]]; simpl.
  - split; [lia|]. split; [constructor|reflexivity].
  - rewrite Forall_cons. cbn beta. rewrite <- IHeq.
    destruct (String.eqb (ConversationMessage.role msg) "user") eqn:Hu.
    + assert (Ha : String.eqb (ConversationMessage.role msg) "agent" = false).
      { apply String.eqb_eq in Hu. rewrite Hu. reflexivity. }
      rewrite Ha. simpl. split; [lia|].
      split; [intros H; split; [reflexivity|lia] | intros [_ H]; lia].
    + destruct (String.eqb (ConversationMessage.role msg) "agent") eqn:Ha; simpl.
      * split; [lia|].
        split; [intros H; split; [reflexivity|lia] | intros [_ H]; lia].
      * split; [lia|]. split; [lia|]. intros [H _]. discriminate.
Qed.

(** X7.  [get_statistics] reads the store and leaves it as it is.  The
    total is the length of the transcript; the messages of the user and of
    the agent together never exceed it, and make it up exactly when no
    message has another role ([system] messages are counted in the total
    only); without tool executions the average is the integer 0.  One
    [add_message] raises the total by one and the count of its role, if it
    is one of the two, by one. *)
Theorem statistics_counts (mean : list float -> float) (self : t)
    (role content : string) (metadata tool_calls : json) (t_message t_updated : datetime) :
  exists stats stats',
    let self' := snd (add_message role content metadata tool_calls t_message t_updated self) in
    get_statistics mean self = (Ok stats, self) /\
    get_statistics mean self' = (Ok stats', self') /\
    total_messages stats = length (messages self) /\
    (user_messages stats + agent_messages stats <= total_messages stats)%nat /\
    ((user_messages stats + agent_messages stats)%nat = total_messages stats <->
     Forall (fun msg => counted_role (ConversationMessage.role msg) = true) (messages self)) /\
    (total_tool_executions stats = 0%nat -> avg_tool_execution_time stats = JInt 0) /\
    total_messages stats' = S (total_messages stats) /\
    user_messages stats' =
      (user_messages stats + if String.eqb role "user" then 1 else 0)%nat /\
    agent_messages stats' =
      (agent_messages stats + if String.eqb role "agent" then 1 else 0)%nat.
Proof.
  destruct self as [st].
  eexists _, _. cbv zeta. split; [reflexivity|]. split; [reflexivity|].
  cbn -[count_role Nat.ltb].
  destruct (counted_roles (SessionState.messages st)) as [Hle Heq].
  split; [reflexivity|]. split; [exact Hle|]. split; [exact Heq|]. split.
  - intros Hnone. unfold messages in *. now rewrite Hnone.
  - rewrite length_app, !count_role_app. cbn [length]. split; [lia|].
    assert (Hone : forall r msg, count_role r [msg] =
                     if String.eqb (ConversationMessage.role msg) r then 1%nat else 0%nat)
      by (intros r msg; unfold count_role; simpl; now destruct (String.eqb _ r)).
    rewrite !Hone. split; reflexivity.
Qed.

End StatisticsProperties.
(** ** Session files *)

Lemma str_app_inv_head (p a b : string) : p ++ a = p ++ b -> a = b.
Proof.
  induction p as [|c p IH]; [auto|]. rewrite !str_app_cons. intros [= H]. auto.
Qed.

Lemma str_app_inv_length (a1 a2 r1 r2 : string) :
  a1 ++ r1 = a2 ++ r2 -> String.length r1 = String.length r2 -> a1 = a2 /\ r1 = r2.
Proof.
  revert a2. induction a1 as [|c a1 IH]; intros [|c2 a2] Heq Hlen.
  - auto.
  - exfalso. rewrite str_app_nil_l in Heq. subst r1.
    rewrite str_app_cons in Hlen. simpl in Hlen. rewrite str_length_app in Hlen. lia.
  - exfalso. rewrite str_app_nil_l in Heq. subst r2.
    rewrite str_app_cons in Hlen. simpl in Hlen. rewrite str_length_app in Hlen. lia.
  - rewrite !str_app_cons in Heq. injection Heq as -> Heq.
    destruct (IH _ Heq Hlen) as [-> ->]. auto.
Qed.

Lemma zfill_length (w : nat) (n : N) : String.length (zfill w n) = w.
Proof. induction w as [|w IH]; simpl; [reflexivity|]. now rewrite IH. Qed.

Lemma zfill_inj (w : nat) (n n' : N) (r r' : string) :
  (n < 10 ^ N.of_nat w)%N -> (n' < 10 ^ N.of_nat w)%N ->
  zfill w n ++ r = zfill w n' ++ r' -> n = n' /\ r = r'.
Proof.
  intros Hn Hn' Heq. apply (f_equal (read_digits w 0)) in Heq.
  rewrite !read_digits_zfill_small in Heq by assumption.
  injection Heq as -> ->. auto.
Qed.

Lemma strftime_compact_length (d : datetime) : String.length (strftime_compact d) = 15%nat.
Proof.
  unfold strftime_compact. rewrite !str_length_app, !zfill_length. reflexivity.
Qed.

Lemma strftime_compact_inj (d1 d2 : datetime) :
  valid_datetime d1 = true -> valid_datetime d2 = true ->
  strftime_compact d1 = strftime_compact d2 ->
  [year d1; month d1; day d1; hour d1; minute d1; second d1] =
  [year d2; month d2; day d2; hour d2; minute d2; second d2].
Proof.
  unfold valid_datetime. intros H1 H2 Heq.
  repeat (apply andb_true_iff in H1 as [H1 ?]).
  repeat (apply andb_true_iff in H2 as [H2 ?]).
  repeat match goal with
         | H : (_ <=? _)%N = true |- _ => apply N.leb_le in H
         | H : (_ <? _)%N = true |- _ => apply N.ltb_lt in H
         end.
  pose proof (days_in_month_le (year d1) (month d1)).
  pose proof (days_in_month_le (year d2) (month d2)).
  unfold strftime_compact in Heq.
  apply zfill_inj in Heq as [Hy Heq]; [|simpl; lia..].
  apply zfill_inj in Heq as [Hm Heq]; [|simpl; lia..].
  apply zfill_inj in Heq as [Hd Heq]; [|simpl; lia..].
  apply str_app_inv_head in Heq.
  apply zfill_inj in Heq as [Hh Heq]; [|simpl; lia..].
  apply zfill_inj in Heq as [Hmi Heq]; [|simpl; lia..].
  rewrite <- (str_app_nil_r (zfill 2 (second d1))) in Heq.
  rewrite <- (str_app_nil_r (zfill 2 (second d2))) in Heq.
  apply zfill_inj in Heq as [Hs _]; [|simpl; lia..].
  congruence.
Qed.

Module FilesProperties.
Import SessionPersistence TextExport.

(** Where [save_session] writes when it is given no path. *)
Lemma save_session_auto (self : t) (st : SessionState.t) (fs : gmap string file) :
  save_session self st None fs =
    (Ok (path_join (history_dir self) (session_filename st)),
     <[path_join (history_dir self) (session_filename st) :=
         JsonFile (SessionState.to_dict st)]> fs).
Proof. reflexivity. Qed.

Lemma run_identity (ms : list SessionManager.mutation) (self : SessionManager.t) :
  SessionManager.run ms self = (Ok tt, snd (SessionManager.run ms self)) /\
  SessionState.session_id (SessionManager.session_state (snd (SessionManager.run ms self)))
  = SessionState.session_id (SessionManager.session_state self) /\
  SessionState.created_at (SessionManager.session_state (snd (SessionManager.run ms self)))
  = SessionState.created_at (SessionManager.session_state self).
Proof.
  revert self. induction ms as [|m ms IH]; intros self; [auto|].
  cbn [SessionManager.run]. unfold bind.
  assert (Hm : exists self1,
            SessionManager.apply m self = (Ok tt, self1) /\
            SessionState.session_id (SessionManager.session_state self1)
            = SessionState.session_id (SessionManager.session_state self) /\
            SessionState.created_at (SessionManager.session_state self1)
            = SessionState.created_at (SessionManager.session_state self)).
  { destruct self as [st]. destruct m; eexists; repeat split. }
  destruct Hm as (self1 & -> & Hid & Hcreated).
  destruct (IH self1) as (Hrun & Hid1 & Hcreated1).
  split; [exact Hrun|]. split; congruence.
Qed.

(** X8.  No mutation of the store changes the identifier of the session
    or its time of creation, so the file that [save_session] and [auto_save]
    make up for the session stays the same through any run of mutations: a
    later save replaces the document of an earlier one, and the two leave the
    files as the later one alone would. *)
Theorem autosave_path_stable (self : t) (ms : list SessionManager.mutation)
    (store : SessionManager.t) (fs : gmap string file) :
  let st := SessionManager.session_state store in
  let st' := SessionManager.session_state (snd (SessionManager.run ms store)) in
  SessionState.session_id st' = SessionState.session_id st /\
  SessionState.created_at st' = SessionState.created_at st /\
  fst (save_session self st' None fs) = fst (save_session self st None fs) /\
  snd (save_session self st' None (snd (save_session self st None fs))) =
  snd (save_session self st' None fs).
Proof.
  intros st st'.
  destruct (run_identity ms store) as (_ & Hid & Hcreated).
  fold st st' in Hid, Hcreated.
  assert (Hname : session_filename st' = session_filename st).
  { unfold session_filename. now rewrite Hid, Hcreated. }
  split; [exact Hid|]. split; [exact Hcreated|].
  rewrite !save_session_auto. cbn [fst snd]. rewrite Hname.
  split; [reflexivity|]. apply insert_insert_eq.
Qed.

(** X9.  [auto_save] writes nothing for a session without messages.  So
    once a session with messages has been saved and its history cleared,
    [auto_save] leaves the file as it is, and [load_session] still restores
    the transcript from before the clearing. *)
Theorem auto_save_skips_cleared_session (parse : iso_parser) (self : t)
    (store : SessionManager.t) (t_cleared : datetime) (fs : gmap string file) :
  reads_isoformat parse ->
  SessionState.valid_timestamps (SessionManager.session_state store) = true ->
  SessionManager.messages store <> [] ->
  let st := SessionManager.session_state store in
  let cleared :=
    SessionManager.session_state (snd (SessionManager.clear_history t_cleared store)) in
  exists save_path fs',
    auto_save self st fs = (Ok (Some save_path), fs') /\
    SessionState.messages cleared = [] /\
    auto_save self cleared fs' = (Ok None, fs') /\
    (forall files, auto_save self cleared files = (Ok None, files)) /\
    load_session parse save_path fs' = (Ok (Some (Session st)), fs').
Proof.
  intros Hparse Hvalid Hmsgs st cleared.
  unfold SessionManager.messages in Hmsgs. fold st in Hmsgs, Hvalid.
  exists (path_join (history_dir self) (session_filename st)),
         (<[path_join (history_dir self) (session_filename st) :=
              JsonFile (SessionState.to_dict st)]> fs).
  split.
  - unfold auto_save. destruct (SessionState.messages st); [congruence|].
    unfold bind. now rewrite save_session_auto.
  - split; [reflexivity|]. split; [reflexivity|]. split; [reflexivity|].
    now apply PersistenceProperties.load_written_session.
Qed.

Lemma auto_save_skips_cleared_session_witness :
  exists save_path fs',
    auto_save (mk "/home/user/.orbiton/history") Scenario.hello_state ∅
    = (Ok (Some save_path), fs') /\
    auto_save (mk "/home/user/.orbiton/history")
      (SessionManager.session_state
         (snd (SessionManager.clear_history (Scenario.clock 9 5 0) Scenario.hello_manager)))
      fs' = (Ok None, fs') /\
    load_session fromisoformat_basic save_path fs' = (Ok (Some (Session Scenario.hello_state)), fs').
Proof.
  destruct (auto_save_skips_cleared_session fromisoformat_basic
              (mk "/home/user/.orbiton/history") Scenario.hello_manager
              (Scenario.clock 9 5 0) ∅ fromisoformat_basic_reads_isoformat)
    as (save_path & fs' & Hsave & _ & Hskip & _ & Hload).
  - reflexivity.
  - discriminate.
  - exists save_path, fs'. auto.
Defined.

(** X10.  Which sessions share a file.  The names that [save_session]
    makes up for two sessions are the same exactly when the identifiers agree
    on their first eight characters and the sessions were created in the same
    second; the later save then replaces the document of the other
    session. *)
Theorem session_file_shared (self : t) (st1 st2 : SessionState.t) (fs : gmap string file) :
  valid_datetime (SessionState.created_at st1) = true ->
  valid_datetime (SessionState.created_at st2) = true ->
  (fst (save_session self st1 None fs) = fst (save_session self st2 None fs) <->
   str_take 8 (SessionState.session_id st1) = str_take 8 (SessionState.session_id st2) /\
   created_second st1 = created_second st2) /\
  (fst (save_session self st1 None fs) = fst (save_session self st2 None fs) ->
   snd (save_session self st2 None (snd (save_session self st1 None fs))) =
   snd (save_session self st2 None fs)).
Proof.
  intros Hv1 Hv2. rewrite !save_session_auto. cbn [fst snd]. split.
  - split.
    + intros [= Hpath]. unfold path_join in Hpath.
      apply str_app_inv_head, str_app_inv_head in Hpath.
      unfold session_filename in Hpath.
      apply str_app_inv_head in Hpath.
      apply str_app_inv_length in Hpath as [Hid Hrest].
      2:{ rewrite !str_length_app, !strftime_compact_length. reflexivity. }
      split; [exact Hid|].
      apply str_app_inv_head in Hrest.
      apply str_app_inv_length in Hrest as [Htime _]; [|reflexivity].
      now apply strftime_compact_inj.
    + intros [Hid Htime]. unfold session_filename, strftime_compact.
      unfold created_second in Htime. injection Htime as -> -> -> -> -> ->.
      now rewrite Hid.
  - intros [= ->]. apply insert_insert_eq.
Qed.

Lemma session_file_shared_witness :
  let st1 := Scenario.hello_state in
  let st2 := SessionState.mk "0f8fad5b-0000-4000-8000-000000000000"
               (Scenario.clock 9 0 0) (Scenario.clock 9 0 0) [] [] "react" "gpt-4"
               (JObject []) in
  SessionState.session_id st1 <> SessionState.session_id st2 /\
  fst (save_session (mk "/h") st1 None ∅) = fst (save_session (mk "/h") st2 None ∅) /\
  snd (save_session (mk "/h") st2 None (snd (save_session (mk "/h") st1 None ∅))) !!
    "/h/session_0f8fad5b_20240105_090000.json" = Some (JsonFile (SessionState.to_dict st2)).
Proof.
  cbv zeta.
  pose proof (session_file_shared (mk "/h") Scenario.hello_state
                (SessionState.mk "0f8fad5b-0000-4000-8000-000000000000"
                   (Scenario.clock 9 0 0) (Scenario.clock 9 0 0) [] [] "react" "gpt-4"
                   (JObject []))
                ∅ eq_refl eq_refl) as [Hiff Hreplace].
  assert (Hsame := proj2 Hiff (conj eq_refl eq_refl)).
  split; [discriminate|]. split; [exact Hsame|].
  rewrite (Hreplace Hsame). reflexivity.
Defined.

(** X11.  The plain-text export holds every message, whatever its role:
    after the ten lines of the header come five lines for each message in the
    order of the transcript, with the role in capitals, under a name of its
    own for [user], [agent] and [system], and the content.  The tool
    executions are not part of this export.  (The roles are taken to have
    their capitals among the characters below 256, that is to hold neither
    [µ] nor [ÿ].) *)
Theorem text_export_complete (st : SessionState.t) :
  (forall msg, In msg (SessionState.messages st) ->
     upper_below_256 (ConversationMessage.role msg) = true) ->
  _format_text_lines st =
    (text_header st ++ flat_map text_message (SessionState.messages st))%list /\
  length (_format_text_lines st) = (10 + 5 * length (SessionState.messages st))%nat /\
  (forall msg, In msg (SessionState.messages st) ->
     In ("[" ++ strftime_time (ConversationMessage.timestamp msg) ++ "] " ++
         role_display msg ++ ":") (_format_text_lines st) /\
     In (ConversationMessage.content msg) (_format_text_lines st)) /\
  (forall tools,
     _format_text_lines (SessionState.set_tool_executions tools st) = _format_text_lines st).
Proof.
  intros _.
  assert (Hlines : _format_text_lines st =
            (text_header st ++ flat_map text_message (SessionState.messages st))%list).
  { unfold _format_text_lines.
    rewrite (PersistenceProperties.fold_left_blocks text_message); [reflexivity|].
    intros lines msg. unfold text_message, role_display, append.
    now rewrite <- !app_assoc. }
  split; [exact Hlines|]. split; [|split].
  - rewrite Hlines, length_app.
    assert (Hblocks : forall msgs,
              length (flat_map text_message msgs) = (5 * length msgs)%nat).
    { induction msgs as [|msg msgs IH]; [reflexivity|].
      change (flat_map text_message (msg :: msgs))
        with (text_message msg ++ flat_map text_message msgs)%list.
      rewrite length_app, IH. simpl. lia. }
    rewrite Hblocks. reflexivity.
  - intros msg Hin. rewrite Hlines.
    split; apply in_or_app; right; apply in_flat_map; exists msg;
      (split; [exact Hin|]); cbn [text_message In]; auto.
  - intros tools. reflexivity.
Qed.

(** A transcript with a role of Latin-1, [ét], which the export shows as
    [ÉT]. *)
Lemma text_export_complete_witness :
  let msg := ConversationMessage.mk (String (ascii_of_nat 233) "t") "42 results"
               (Scenario.clock 9 0 2) (JObject []) JNull in
  let st := SessionState.mk "0f8fad5b" (Scenario.clock 9 0 0) (Scenario.clock 9 0 2)
              [msg] [] "react" "gpt-4" (JObject []) in
  upper_below_256 (ConversationMessage.role msg) = true /\
  In ("[09:00:02] " ++ String (ascii_of_nat 201) "T" ++ ":") (_format_text_lines st) /\
  length (_format_text_lines st) = 15%nat.
Proof.
  cbv zeta. split; [reflexivity|].
  destruct (text_export_complete
              (SessionState.mk "0f8fad5b" (Scenario.clock 9 0 0) (Scenario.clock 9 0 2)
                 [ConversationMessage.mk (String (ascii_of_nat 233) "t") "42 results"
                    (Scenario.clock 9 0 2) (JObject []) JNull]
                 [] "react" "gpt-4" (JObject [])))
    as (_ & Hlen & Hin & _).
  - intros msg [<-|[]]. reflexivity.
  - split; [|exact Hlen].
    exact (proj1 (Hin _ (or_introl eq_refl))).
Defined.

(** X12.  [/save] with a name that ends in [.json] writes the session
    document, and [load_session] on the path that the command reports gives
    the session back. *)
Theorem save_json_then_load (lib : formatters) (parse : iso_parser) (cwd : string)
    (st : SessionState.t) (args : list string) (now : datetime) (fs : gmap string file) :
  reads_isoformat parse ->
  SessionState.valid_timestamps st = true ->
  endswith (str_join " " args) ".json" = true ->
  args <> [] ->
  let path := locate_export cwd (str_join " " args) in
  let fs' := <[path := JsonFile (SessionState.to_dict st)]> fs in
  CommandHandler._cmd_save lib cwd st args now fs = (Ok path, fs') /\
  load_session parse path fs' = (Ok (Some (Session st)), fs').
Proof.
  intros Hparse Hvalid Hjson Hargs path fs'. split.
  - unfold CommandHandler._cmd_save, CommandHandler.has_export_extension.
    destruct args as [|arg args]; [congruence|].
    set (filename := str_join " " (arg :: args)) in *.
    rewrite Hjson. rewrite orb_true_r. cbn [negb orb].
    rewrite Hjson.
    cbv [export_session bind write_file modify ret default].
    cbn [String.eqb Ascii.eqb Bool.eqb andb]. rewrite Hjson. reflexivity.
  - now apply PersistenceProperties.load_written_session.
Qed.

Lemma save_json_then_load_witness :
  let path := "/work/notes.json" in
  let fs' : gmap string file := {[path := JsonFile (SessionState.to_dict Scenario.hello_state)]} in
  CommandHandler._cmd_save Scenario.plain_formatters "/work" Scenario.hello_state
    ["notes.json"] (Scenario.clock 9 1 0) ∅ = (Ok path, fs') /\
  load_session fromisoformat_basic path fs' = (Ok (Some (Session Scenario.hello_state)), fs').
Proof.
  apply (save_json_then_load Scenario.plain_formatters fromisoformat_basic "/work"
           Scenario.hello_state ["notes.json"] (Scenario.clock 9 1 0) ∅
           fromisoformat_basic_reads_isoformat); [reflexivity|reflexivity|discriminate].
Defined.

End FilesProperties.

(** ** The console *)

Lemma ascii_lower_idempotent (c : ascii) : ascii_lower (ascii_lower c) = ascii_lower c.
Proof. destruct c as [[] [] [] [] [] [] [] []]; reflexivity. Qed.

Lemma str_lower_idempotent (s : string) : str_lower (str_lower s) = str_lower s.
Proof.
  induction s as [|c s IH]; [reflexivity|].
  cbn [str_lower]. now rewrite ascii_lower_idempotent, IH.
Qed.

Module ConsoleProperties.
Import Console.

Lemma commands_get_set_eq (name : string) (entry : handler * string * list string)
    (table : commands) :
  commands_get name (commands_set name entry table) = Some entry.
Proof.
  induction table as [|[n e] rest IH]; simpl.
  - now rewrite String.eqb_refl.
  - destruct (String.eqb name n) eqn:Hn; simpl; rewrite Hn; [reflexivity|exact IH].
Qed.

Lemma commands_get_set_ne (name other : string) (entry : handler * string * list string)
    (table : commands) :
  other <> name ->
  commands_get other (commands_set name entry table) = commands_get other table.
Proof.
  intros Hne. induction table as [|[n e] rest IH]; simpl.
  - apply String.eqb_neq in Hne. now rewrite Hne.
  - destruct (String.eqb name n) eqn:Hn; simpl.
    + apply String.eqb_eq in Hn. subst n. apply String.eqb_neq in Hne. now rewrite Hne.
    + now rewrite IH.
Qed.

Lemma register_aliases (h : handler) (description : string) (aliases : list string) :
  forall (table : commands) (name : string),
    (exists a, commands_get name table = Some (h, description, a)) ->
    exists a,
      commands_get name
        (fold_left (fun table alias => commands_set alias (h, description, []) table)
           aliases table) = Some (h, description, a).
Proof.
  induction aliases as [|alias aliases IH]; intros table name Hget; [exact Hget|].
  cbn [fold_left]. apply IH.
  destruct (String.eqb name alias) eqn:Hn.
  - apply String.eqb_eq in Hn. subst alias. rewrite commands_get_set_eq. eauto.
  - apply String.eqb_neq in Hn. now rewrite commands_get_set_ne.
Qed.

Lemma register_aliases_in (h : handler) (description : string) (aliases : list string) :
  forall (table : commands) (name : string),
    In name aliases ->
    exists a,
      commands_get name
        (fold_left (fun table alias => commands_set alias (h, description, []) table)
           aliases table) = Some (h, description, a).
Proof.
  induction aliases as [|alias aliases IH]; intros table name Hin; [destruct Hin|].
  cbn [fold_left]. destruct Hin as [->|Hin].
  - apply register_aliases. rewrite commands_get_set_eq. eauto.
  - now apply IH.
Qed.

Lemma register_aliases_other (h : handler) (description : string) (aliases : list string) :
  forall (table : commands) (name : string),
    ~ In name aliases ->
    commands_get name
      (fold_left (fun table alias => commands_set alias (h, description, []) table)
         aliases table) = commands_get name table.
Proof.
  induction aliases as [|alias aliases IH]; intros table name Hnot; [reflexivity|].
  cbn [fold_left]. rewrite IH by (simpl in Hnot; tauto).
  apply commands_get_set_ne. simpl in Hnot. intros ->. tauto.
Qed.

(** What [execute] does with a line that has a word in it. *)
Lemma execute_word (table : commands) (command_string first : string)
    (cmd_args : list string) (app : App) :
  str_split (str_strip command_string) = first :: cmd_args ->
  execute table command_string app =
    match commands_get (str_lower first) table with
    | Some (h, _, _) =>
        match h cmd_args app with
        | (Ok _, app') => (Ok true, app')
        | (Raise e, app') =>
            if is_Exception e then
              let app'' :=
                set_console
                  (console app' ++
                   [Render "render_error"
                      ["Error executing command: " ++ exc_str e; "Command Error"]]) app' in
              (if debug app' then Raise e else Ok true, app'')
            else (Raise e, app')
        end
    | None =>
        (Ok false,
         set_console
           (console app ++
            [Render "render_warning" ["Unknown command: " ++ str_lower first];
             Render "render_info" ["Type [cyan]/help[/] for available commands"]]) app)
    end.
Proof.
  intros Hsplit. unfold execute. rewrite Hsplit.
  destruct (commands_get (str_lower first) table) as [[[h d] a]|].
  - unfold try_except, bind, ret. destruct (h cmd_args app) as [[u|e] app']; [reflexivity|].
    destruct (is_Exception e); [|reflexivity].
    unfold render_error, emit, modify, get, raise. cbn.
    destruct (debug app'); reflexivity.
  - unfold render_warning, render_info, emit, bind, modify, ret. cbn.
    now rewrite <- app_assoc.
Qed.

(** X13.  The dispatch of [execute].  A line without a word raises
    [IndexError], before any handler is looked up.  Otherwise the first word,
    in lower case, names the command: an unknown name gives [False] and two
    lines on the terminal and nothing else; a known name gives [True] when the
    handler returns.  When the handler raises an exception that derives from
    [Exception] and the application is not in debug mode, [execute] still
    returns [True]: no such exception leaves it.  A command registered under
    a name with a capital letter is never run. *)
Theorem execute_dispatch (table : commands) (command_string : string) (app : App) :
  (str_split (str_strip command_string) = [] ->
   execute table command_string app =
     (Raise (mk_exception (OtherException "IndexError") "list index out of range"), app)) /\
  (forall first cmd_args,
     str_split (str_strip command_string) = first :: cmd_args ->
     let '(r, app') := execute table command_string app in
     (r = Ok false <-> commands_get (str_lower first) table = None) /\
     (r = Ok false ->
      app' = set_console
               (console app ++
                [Render "render_warning" ["Unknown command: " ++ str_lower first];
                 Render "render_info" ["Type [cyan]/help[/] for available commands"]]) app) /\
     (forall h d a, commands_get (str_lower first) table = Some (h, d, a) ->
        (forall u, fst (h cmd_args app) = Ok u -> (r, app') = (Ok true, snd (h cmd_args app))) /\
        (forall e, fst (h cmd_args app) = Raise e -> is_Exception e = true ->
           debug (snd (h cmd_args app)) = false -> r = Ok true) /\
        (forall e, fst (h cmd_args app) = Raise e -> is_Exception e = false -> r = Raise e)) /\
     (forall name h d a, str_lower name <> name ->
        commands_get (str_lower first) (commands_set name (h, d, a) table) =
        commands_get (str_lower first) table)).
Proof.
  split.
  - intros Hblank. unfold execute. now rewrite Hblank.
  - intros first cmd_args Hsplit. rewrite (execute_word _ _ _ _ _ Hsplit).
    assert (Hcap : forall name h d a, str_lower name <> name ->
              commands_get (str_lower first) (commands_set name (h, d, a) table) =
              commands_get (str_lower first) table).
    { intros name h' d' a' Hname. apply commands_get_set_ne.
      intros Heq. apply Hname. rewrite <- Heq. apply str_lower_idempotent. }
    destruct (commands_get (str_lower first) table) as [[[h d] a]|] eqn:Hget.
    + destruct (h cmd_args app) as [[u|e] app1] eqn:Hrun.
      * split; [split; discriminate|]. split; [discriminate|]. split; [|exact Hcap].
        intros h' d' a' [= <- <- <-]. rewrite Hrun. cbn [fst snd].
        split; [reflexivity|]. split; discriminate.
      * destruct (is_Exception e) eqn:Hexc.
        -- cbv zeta. split; [split; [destruct (debug app1)|]; discriminate|].
           split; [destruct (debug app1); discriminate|]. split; [|exact Hcap].
           intros h' d' a' [= <- <- <-]. rewrite Hrun. cbn [fst snd].
           split; [discriminate|]. split.
           ++ intros e' [= <-] _ ->. reflexivity.
           ++ intros e' [= <-] He'. congruence.
        -- split; [split; discriminate|]. split; [discriminate|]. split; [|exact Hcap].
           intros h' d' a' [= <- <- <-]. rewrite Hrun. cbn [fst snd].
           split; [discriminate|]. split.
           ++ intros e' [= <-] He'. congruence.
           ++ intros e' [= <-] _. reflexivity.
    + split; [split; auto|]. split; [auto|]. split; [discriminate|exact Hcap].
Qed.

(** X14.  [register_command] makes the name and every alias run the
    handler, and leaves every other name as it was. *)
Theorem register_command_aliases (table : commands) (name : string) (h : handler)
    (description : string) (aliases : list string) (word : string) :
  (In word (name :: aliases) ->
   exists a, commands_get word (register_command name h description aliases table)
             = Some (h, description, a)) /\
  (~ In word (name :: aliases) ->
   commands_get word (register_command name h description aliases table)
   = commands_get word table).
Proof.
  unfold register_command. split.
  - intros [<-|Hin].
    + apply register_aliases. rewrite commands_get_set_eq. eauto.
    + now apply register_aliases_in.
  - intros Hnot. rewrite register_aliases_other by (simpl in Hnot; tauto).
    apply commands_get_set_ne. simpl in Hnot. intros ->. tauto.
Qed.

Lemma config_assign_cases (section key : string) (value : json) (app : App) :
  config_assign section key value app =
    match subscript (config app) section with
    | Raise e => (Raise e, app)
    | Ok sub =>
        match item_assign sub key value with
        | Raise e => (Raise e, app)
        | Ok sub' =>
            (Ok tt,
             set_config match config app with
                        | JObject members => JObject (dict_set section sub' members)
                        | _ => config app
                        end app)
        end
    end.
Proof.
  unfold config_assign, bind, get, lift, modify.
  destruct (subscript (config app) section) as [sub|e]; [|reflexivity].
  destruct (item_assign sub key value); reflexivity.
Qed.

Lemma recreate_agent_cases (env : environment) (agent_type : string) (app : App) :
  recreate_agent env agent_type app =
    match class_of app with
    | TUIWrapper =>
        (Raise (mk_exception AttributeError
                  "'TUIWrapper' object has no attribute 'callback_handler'"), app)
    | ConsoleApp =>
        match create_agent env agent_type (config app) with
        | (Raise e, cfg') => (Raise e, set_config cfg' app)
        | (Ok agent, cfg') =>
            match AgentSession_init cfg' with
            | Raise e => (Raise e, set_config cfg' app)
            | Ok session =>
                (Ok tt,
                 set_agent_session (Some (mk_running (fst agent) (snd agent) session))
                   (set_config cfg' app))
            end
        end
    end.
Proof.
  unfold recreate_agent, callback_handler, bind, get, raise, ret, lift, modify.
  destruct (class_of app); [|reflexivity].
  destruct (create_agent env agent_type (config app)) as [[agent|e] cfg']; [|reflexivity].
  cbn. destruct (AgentSession_init cfg'); reflexivity.
Qed.

Lemma create_agent_mcp (env : environment) (cfg : json) :
  create_agent env "mcp" cfg =
    (Raise (mk_exception ValueError
              "Unknown agent type: mcp. Valid types: ['react', 'react-mcp']"), cfg).
Proof. reflexivity. Qed.

(** The branch of [_cmd_agent] that switches. *)
Lemma _cmd_agent_switch (env : environment) (agent_type : string) (rest : list string)
    (app : App) :
  String.eqb agent_type "current" = false ->
  String.eqb agent_type "list" = false ->
  (String.eqb agent_type "react" || String.eqb agent_type "mcp") = true ->
  _cmd_agent env (agent_type :: rest) app =
    match config_assign "agent" "type" (JString agent_type) app with
    | (Raise e, app1) => (Raise e, app1)
    | (Ok _, app1) =>
        let app2 := set_current_agent_type agent_type app1 in
        match recreate_agent env agent_type app2 with
        | (Ok _, app3) =>
            (Ok tt,
             set_console
               (console app3 ++
                [Render "render_success" ["Switched to agent: [cyan]" ++ agent_type ++ "[/]"]])
               app3)
        | (Raise e, app3) =>
            if is_Exception e then
              (Ok tt,
               set_console
                 (console app3 ++
                  [Render "render_error"
                     ["Failed to switch agent: " ++ exc_str e; "Agent Error"]]) app3)
            else (Raise e, app3)
        end
    end.
Proof.
  intros Hcurrent Hlist Hknown. unfold _cmd_agent. rewrite Hcurrent, Hlist, Hknown.
  cbn [negb]. unfold bind at 1.
  destruct (config_assign "agent" "type" (JString agent_type) app) as [[u|e] app1];
    [|reflexivity].
  unfold bind at 1, modify at 1. unfold try_except, bind.
  destruct (recreate_agent env agent_type (set_current_agent_type agent_type app1))
    as [[u'|e] app3]; [reflexivity|].
  destruct (is_Exception e); reflexivity.
Qed.

(** What [_cmd_agent] leaves alone. *)
Lemma _cmd_agent_frame (env : environment) (args : list string) (app : App) :
  (agent_session (snd (_cmd_agent env args app)) = agent_session app \/
   (class_of app = ConsoleApp /\ exists rest, args = "react" :: rest)) /\
  session_manager (snd (_cmd_agent env args app)) = session_manager app.
Proof.
  destruct args as [|first rest]; [split; [left|]; reflexivity|].
  destruct (String.eqb first "current") eqn:Hcurrent.
  { unfold _cmd_agent. rewrite Hcurrent. split; [left|]; reflexivity. }
  destruct (String.eqb first "list") eqn:Hlist.
  { unfold _cmd_agent. rewrite Hcurrent, Hlist.
    destruct app as [[] cfg dbg run model atype sm sess err con fs];
      split; [left| |left|]; reflexivity. }
  destruct (String.eqb first "react" || String.eqb first "mcp") eqn:Hknown.
  2:{ unfold _cmd_agent. rewrite Hcurrent, Hlist, Hknown. split; [left|]; reflexivity. }
  rewrite (_cmd_agent_switch env first rest app Hcurrent Hlist Hknown).
  rewrite config_assign_cases.
  destruct (subscript (config app) "agent") as [sub|e]; [|split; [left|]; reflexivity].
  destruct (item_assign sub "type" (JString first)) as [sub'|e];
    [|split; [left|]; reflexivity].
  cbv zeta. rewrite recreate_agent_cases.
  destruct app as [cls cfg dbg run model atype sm sess err con fs]. cbn.
  destruct cls; [|split; [left|]; reflexivity].
  destruct (String.eqb first "react") eqn:Hreact.
  - apply String.eqb_eq in Hreact. subst first.
    destruct (create_agent env "react" _) as [[agent|e] cfg'].
    + destruct (AgentSession_init cfg'); [split; [right; eauto|reflexivity]|].
      destruct (is_Exception e); split; try left; reflexivity.
    + destruct (is_Exception e); split; try left; reflexivity.
  - cbn [orb] in Hknown. apply String.eqb_eq in Hknown. subst first.
    rewrite create_agent_mcp. split; [left|]; reflexivity.
Qed.

(** X15.  [/agent] can switch to [react] only, and only in the console
    application.  Whatever the arguments, the agent session is replaced only
    by [/agent react] in a [ConsoleApp]; the session manager is never
    touched.  [/agent mcp] passes the check of the command but not the one
    of the factory, which knows [react] and [react-mcp]: the command puts
    [mcp] into the configuration and into [current_agent_type], renders the
    failure, and the session stays the one there was. *)
Theorem agent_command_switches_to_react_only (env : environment) (args : list string)
    (app : App) :
  (agent_session (snd (_cmd_agent env args app)) <> agent_session app ->
   class_of app = ConsoleApp /\ exists rest, args = "react" :: rest) /\
  session_manager (snd (_cmd_agent env args app)) = session_manager app /\
  (forall rest members,
     args = "mcp" :: rest ->
     subscript (config app) "agent" = Ok (JObject members) ->
     class_of app = ConsoleApp ->
     exists app',
       _cmd_agent env args app = (Ok tt, app') /\
       agent_session app' = agent_session app /\
       current_agent_type app' = "mcp" /\
       ConfigManager.lookup_path ["agent"; "type"] (config app') = Some (JString "mcp") /\
       console app' =
         (console app ++
          [Render "render_error"
             ["Failed to switch agent: Unknown agent type: mcp. Valid types: ['react', 'react-mcp']";
              "Agent Error"]])%list).
Proof.
  destruct (_cmd_agent_frame env args app) as [[Hsame|Hreact] Hsm].
  - split; [congruence|]. split; [exact Hsm|].
    intros rest members -> Hsub Hclass.
    rewrite (_cmd_agent_switch env "mcp" rest app eq_refl eq_refl eq_refl).
    rewrite config_assign_cases, Hsub. cbn [item_assign]. cbv zeta.
    rewrite recreate_agent_cases.
    destruct app as [cls cfg dbg run model atype sm sess err con fs].
    cbn in Hclass, Hsub |- *. subst cls. cbn.
    eexists. split; [reflexivity|]. cbn.
    destruct cfg as [| | | | | |top]; try discriminate.
    cbn [ConfigManager.lookup_path]. rewrite !assoc_dict_set_eq. repeat split.
  - split; [auto|]. split; [exact Hsm|].
    destruct Hreact as [_ [rest0 ->]]. intros rest members [=].
Qed.

(** The branch of [_cmd_model] that switches. *)
Lemma _cmd_model_switch (env : environment) (model : string) (rest : list string)
    (app : App) :
  String.eqb model "current" = false ->
  String.eqb model "list" = false ->
  _cmd_model env (model :: rest) app =
    match config_assign "llm" "default_model" (JString model) app with
    | (Raise e, app1) => (Raise e, app1)
    | (Ok _, app1) =>
        let app2 := set_current_model model app1 in
        match recreate_agent env (current_agent_type app2) app2 with
        | (Ok _, app3) =>
            (Ok tt,
             set_console
               (console app3 ++
                [Render "render_success" ["Switched to model: [cyan]" ++ model ++ "[/]"]])
               app3)
        | (Raise e, app3) =>
            if is_Exception e then
              (Ok tt,
               set_console
                 (console app3 ++
                  [Render "render_error"
                     ["Failed to switch model: " ++ exc_str e; "Model Error"]]) app3)
            else (Raise e, app3)
        end
    end.
Proof.
  intros Hcurrent Hlist. unfold _cmd_model. rewrite Hcurrent, Hlist.
  unfold bind at 1.
  destruct (config_assign "llm" "default_model" (JString model) app) as [[u|e] app1];
    [|reflexivity].
  unfold bind at 1, modify at 1. unfold try_except, bind, get.
  destruct (recreate_agent env _ (set_current_model model app1))
    as [[u'|e] app3]; [reflexivity|].
  destruct (is_Exception e); reflexivity.
Qed.

(** X16.  [/model] and the session.  The command never touches the
    session manager, so the session keeps naming the model that the
    application started with.  In the TUI, where the command handler works on
    a wrapper that has no [callback_handler], neither [/model] nor [/agent]
    ever replaces the agent session: [/model name] puts the name into the
    configuration and into [current_model] and then fails on the missing
    attribute. *)
Theorem model_command_in_the_tui (env : environment) (args : list string) (app : App) :
  session_manager (snd (_cmd_model env args app)) = session_manager app /\
  (class_of app = TUIWrapper ->
   agent_session (snd (_cmd_model env args app)) = agent_session app /\
   agent_session (snd (_cmd_agent env args app)) = agent_session app /\
   forall model rest members,
     args = model :: rest ->
     String.eqb model "current" = false ->
     String.eqb model "list" = false ->
     subscript (config app) "llm" = Ok (JObject members) ->
     exists app',
       _cmd_model env args app = (Ok tt, app') /\
       current_model app' = model /\
       ConfigManager.lookup_path ["llm"; "default_model"] (config app')
       = Some (JString model) /\
       console app' =
         (console app ++
          [Render "render_error"
             ["Failed to switch model: 'TUIWrapper' object has no attribute 'callback_handler'";
              "Model Error"]])%list).
Proof.
  assert (Hmodel : session_manager (snd (_cmd_model env args app)) = session_manager app /\
                   (class_of app = TUIWrapper ->
                    agent_session (snd (_cmd_model env args app)) = agent_session app)).
  { destruct args as [|first rest]; [split; reflexivity|].
    destruct (String.eqb first "current") eqn:Hcurrent.
    { unfold _cmd_model. rewrite Hcurrent. split; reflexivity. }
    destruct (String.eqb first "list") eqn:Hlist.
    { unfold _cmd_model. rewrite Hcurrent, Hlist.
      destruct app as [[] cfg dbg run model atype sm sess err con fs]; split; reflexivity. }
    rewrite (_cmd_model_switch env first rest app Hcurrent Hlist).
    rewrite config_assign_cases.
    destruct (subscript (config app) "llm") as [sub|e]; [|split; reflexivity].
    destruct (item_assign sub "default_model" (JString first)) as [sub'|e];
      [|split; reflexivity].
    cbv zeta. rewrite recreate_agent_cases.
    destruct app as [cls cfg dbg run model atype sm sess err con fs]. cbn.
    destruct cls; [|split; reflexivity].
    destruct (create_agent env atype _) as [[agent|e] cfg'].
    - destruct (AgentSession_init cfg'); [split; [reflexivity|discriminate]|].
      destruct (is_Exception e); split; reflexivity.
    - destruct (is_Exception e); split; reflexivity. }
  destruct Hmodel as [Hsm Hsession]. split; [exact Hsm|].
  intros Hclass. split; [exact (Hsession Hclass)|]. split.
  - destruct (_cmd_agent_frame env args app) as [[Hsame|[Hconsole _]] _];
      [exact Hsame|congruence].
  - intros model rest members -> Hcurrent Hlist Hsub.
    rewrite (_cmd_model_switch env model rest app Hcurrent Hlist).
    rewrite config_assign_cases, Hsub. cbn [item_assign]. cbv zeta.
    rewrite recreate_agent_cases.
    destruct app as [cls cfg dbg run m atype sm sess err con fs]. cbn in Hclass, Hsub |- *.
    subst cls. cbn. eexists. split; [reflexivity|]. cbn.
    destruct cfg as [| | | | | |top]; try discriminate.
    cbn [ConfigManager.lookup_path]. rewrite !assoc_dict_set_eq. repeat split.
Qed.

Lemma content_preview_length (content : string) :
  (String.length (content_preview content) <= 83)%nat.
Proof.
  unfold content_preview. destruct (80 <? String.length content)%nat eqn:Hlong.
  - rewrite str_length_app. pose proof (PersistenceProperties.str_take_length 80 content).
    simpl. lia.
  - apply Nat.ltb_ge in Hlong. lia.
Qed.

(** X17.  [/history N] takes the first [N] messages of the transcript, the
    oldest ones, and leaves the session as it is.  On the console of
    [ConsoleApp] they appear as the rows of a table, each with its time, its
    role and at most 83 characters of its content, before an empty line.  In
    the TUI the console of the wrapper shows the [str] of the table object
    and none of its rows.  ([N] is a string of decimal digits that [int]
    reads as a positive number.) *)
Theorem history_shows_oldest (first : string) (rest : list string) (n : Z) (app : App) :
  str_isdigit first = true ->
  int_of_digits first = Ok n ->
  (0 < n)%Z ->
  transcript app <> [] ->
  let shown := take (Z.to_nat n) (transcript app) in
  _cmd_history (first :: rest) app =
    (Ok tt,
     set_console
       (console app ++
        match class_of app with
        | ConsoleApp =>
            [Table ("Conversation History (" ++ str_of_nat (length shown) ++ " messages)")
               (map history_row shown);
             Blank]
        | TUIWrapper => [TableObject]
        end) app) /\
  (forall i msg, shown !! i = Some msg -> transcript app !! i = Some msg) /\
  (forall row, In row (map history_row shown) ->
     exists time role content,
       row = [time; role; content] /\ (String.length content <= 83)%nat).
Proof.
  intros Hdigit Hint Hpos Hsome shown. split; [|split].
  - unfold _cmd_history. rewrite Hdigit.
    unfold bind at 1. unfold bind at 1, lift at 1. rewrite Hint.
    unfold ret at 1. unfold bind at 1.
    unfold on_session_manager.
    rewrite (SessionProperties.get_messages_window n 0 (session_manager app)) by lia.
    change (Z.to_nat 0) with 0%nat. rewrite drop_0.
    fold (transcript app). fold shown.
    assert (Hshown : shown <> []).
    { subst shown. destruct (transcript app) as [|msg msgs]; [congruence|].
      destruct (Z.to_nat n) eqn:Hn; [lia|]. discriminate. }
    destruct shown as [|msg msgs] eqn:Hs; [congruence|].
    unfold print_table, print_blank, emit, bind, get, modify, ret. cbn [fst snd].
    destruct app as [cls cfg dbg run model atype sm sess err con fs]; destruct cls; cbn;
      [now rewrite <- app_assoc|reflexivity].
  - intros i msg Hi. subst shown. apply lookup_take_Some in Hi. tauto.
  - intros row Hin. apply in_map_iff in Hin as (msg & <- & _).
    unfold history_row. eexists _, _, _. split; [reflexivity|].
    apply content_preview_length.
Qed.

Lemma history_shows_oldest_witness :
  let app := mk_app ConsoleApp (JObject []) false true "gpt-4" "react" Scenario.hello_manager
               None None [] ∅ in
  let tui := mk_app TUIWrapper (JObject []) false true "gpt-4" "react" Scenario.hello_manager
               None None [] ∅ in
  _cmd_history ["1"] app =
    (Ok tt,
     set_console
       [Table "Conversation History (1 messages)" [["09:00:01"; "user"; "Hello"]]; Blank] app) /\
  _cmd_history ["1"] tui = (Ok tt, set_console [TableObject] tui).
Proof.
  split.
  - apply (history_shows_oldest "1" [] 1
             (mk_app ConsoleApp (JObject []) false true "gpt-4" "react" Scenario.hello_manager
                None None [] ∅)); [reflexivity|reflexivity|lia|discriminate].
  - apply (history_shows_oldest "1" [] 1
             (mk_app TUIWrapper (JObject []) false true "gpt-4" "react" Scenario.hello_manager
                None None [] ∅)); [reflexivity|reflexivity|lia|discriminate].
Defined.

(** X18.  One round of the console loop on a message for the agent, with
    the gate free and the loop idle.  The message of the user joins the
    transcript, followed by the response of the agent when there is one that
    is not empty, and by nothing when the agent fails or is interrupted.  The
    agent is called once, with the input.  When the awaited call ends, the
    gate is free again afterwards; out of debug mode nothing that derives
    from [Exception] leaves the round, and a [KeyboardInterrupt] of the agent
    ends it normally, with [interrupted] set by the gate.  When a [Ctrl-C]
    arrives while the loop waits for the agent, the round ends normally with
    the warning, but the call stays suspended in the loop: [executing] is
    still true, and [interrupted] is true because the console calls
    [interrupt()]. *)
Theorem message_round (table : commands) (user_input : string)
    (t_user t_user_updated t_message t_updated : datetime) (app : App) (r : running_agent) :
  agent_session app = Some r ->
  Gate.executing (session_of r) = false ->
  Gate._event_loop (session_of r) = Gate.LoopIdle ->
  String.eqb (str_strip user_input) "" = false ->
  startswith user_input "/" = false ->
  let said := ConversationMessage.mk "user" user_input t_user (JObject []) JNull in
  let reply :=
    match run_of r user_input with
    | Gate.Returns response =>
        if String.eqb response "" then []
        else [ConversationMessage.mk "agent" response t_message (JObject []) JNull]
    | Gate.Throws _ => []
    | Gate.Waits _ => []
    end in
  let out := fst (handle_input table user_input t_user t_user_updated t_message t_updated app) in
  let app' := snd (handle_input table user_input t_user t_user_updated t_message t_updated app) in
  transcript app' = (transcript app ++ said :: reply)%list /\
  (exists s',
     agent_session app' = Some (mk_running (agent_of r) (run_of r) s') /\
     Gate.agent_calls s' = (Gate.agent_calls (session_of r) ++ [user_input])%list /\
     match run_of r user_input with
     | Gate.Returns _ =>
         Gate.executing s' = false /\ Gate._event_loop s' = Gate.LoopIdle
     | Gate.Throws e =>
         Gate.executing s' = false /\ Gate._event_loop s' = Gate.LoopIdle /\
         (is_KeyboardInterrupt e = true -> Gate.interrupted s' = true /\ out = Ok tt)
     | Gate.Waits later =>
         out = Ok tt /\
         Gate.executing s' = true /\ Gate.interrupted s' = true /\
         Gate._event_loop s' = Gate.LoopPending [Gate.mk_pending user_input later] /\
         console app' =
           (console app ++
            [Render "render_user_message" [user_input]; Blank;
             Render "render_warning" ["Interrupted by user"]])%list
     end) /\
  (debug app = false ->
   match out with
   | Ok _ => True
   | Raise e =>
       run_of r user_input = Gate.Throws e /\
       is_Exception e = false /\ is_KeyboardInterrupt e = false
   end).
Proof.
  intros Hsession Hfree Hidle Hblank Hslash said reply out app'.
  subst out app'. unfold handle_input. rewrite Hblank, Hslash.
  destruct app as [cls cfg dbg run model atype sm sess err con fs].
  destruct r as [acls agent s].
  cbn in Hsession, Hfree, Hidle. subst sess.
  pose proof (GateProperties.execute_on_idle_loop agent user_input s Hidle) as Hexec.
  rewrite (GateProperties.execute_async_started agent user_input s Hfree) in Hexec.
  destruct s as [ex intr sdbg lp calls]. cbn in Hfree, Hidle. subst ex lp.
  destruct sm as [st].
  subst said reply. cbn [run_of session_of agent_of Gate.agent_calls debug].
  cbv [_process_message on_session_manager on_agent_session bind get ret raise modify
       try_except try_finally lift emit render_warning render_error render_info
       SessionManager.add_message SessionManager.update_state Gate.interrupt].
  cbn -[String.eqb dict_get Gate.execute].
  destruct (agent user_input) as [response|e|later] eqn:Hrun.
  - rewrite Hexec. cbn -[String.eqb dict_get].
    destruct (String.eqb response "") eqn:Hempty; cbn [negb].
    + cbn. split; [reflexivity|]. split; [|auto].
      eexists. do 2 (split; [reflexivity|]). split; reflexivity.
    + destruct (dict_get cfg "ui" (JObject []) ≫= λ ui : json, dict_get ui "show_timestamps" JNull)
        as [shown|e] eqn:Hui.
      * cbn. rewrite Hui. cbn. split; [now rewrite <- app_assoc|]. split; [|auto].
        eexists. do 2 (split; [reflexivity|]). split; reflexivity.
      * assert (Hattr : exc_cls e = AttributeError).
        { apply PersistenceProperties.bind_raise_inv in Hui as [Hui|(ui & _ & Hui)];
            eapply PersistenceProperties.dict_get_raise; eassumption. }
        cbn. rewrite Hui. cbn. unfold is_KeyboardInterrupt, is_Exception. rewrite Hattr.
        cbn. split; [destruct dbg; cbn; now rewrite <- app_assoc|].
        split; [|intros ->; exact I].
        eexists. split; [destruct dbg; reflexivity|].
        split; [reflexivity|]. split; reflexivity.
  - destruct (is_KeyboardInterrupt e) eqn:Hkbd.
    + rewrite Hexec. cbn. rewrite Hkbd. cbn. split; [reflexivity|]. split; [|auto].
      eexists. do 4 (split; [reflexivity|]). intros _. split; reflexivity.
    + destruct (is_Exception e) eqn:Hexc; rewrite Hexec; cbn.
      * split; [destruct dbg; reflexivity|]. split.
        -- eexists. split; [destruct dbg; reflexivity|].
           do 3 (split; [reflexivity|]). congruence.
        -- intros ->. exact I.
      * rewrite Hkbd, Hexc. cbn. split; [reflexivity|]. split; [|auto].
        eexists. do 4 (split; [reflexivity|]). congruence.
  - rewrite Hexec. cbn. split; [reflexivity|]. split; [|auto].
    eexists. do 6 (split; [reflexivity|]). now rewrite <- !app_assoc.
Qed.

Lemma message_round_witness :
  let r := mk_running SpoonReactAI (fun _ => Gate.Returns "Hi there") (Lifecycle.new_session false) in
  let app := mk_app ConsoleApp (JObject []) false true "gpt-4" "react" Scenario.fresh_manager
               (Some r) None [] ∅ in
  map ConversationMessage.content
    (transcript (snd (handle_input [] "Hello" (Scenario.clock 9 0 1) (Scenario.clock 9 0 1)
                        (Scenario.clock 9 0 3) (Scenario.clock 9 0 4) app)))
  = ["Hello"; "Hi there"].
Proof.
  pose proof (message_round [] "Hello" (Scenario.clock 9 0 1) (Scenario.clock 9 0 1)
                (Scenario.clock 9 0 3) (Scenario.clock 9 0 4)
                (mk_app ConsoleApp (JObject []) false true "gpt-4" "react"
                   Scenario.fresh_manager
                   (Some (mk_running SpoonReactAI (fun _ => Gate.Returns "Hi there")
                            (Lifecycle.new_session false))) None [] ∅)
                (mk_running SpoonReactAI (fun _ => Gate.Returns "Hi there")
                   (Lifecycle.new_session false))
                eq_refl eq_refl eq_refl eq_refl eq_refl) as [Htranscript _].
  cbv zeta in Htranscript |- *. rewrite Htranscript. reflexivity.
Defined.

(** X19.  [/exit] saves to the directory of a [SessionPersistence()] made
    on the spot, not to the one of the configuration, and never touches the
    session manager.  Where the system lets the directory be made and the
    file be written, the command tells "Session saved", also when the session
    has no message and nothing was written, and stops the application.
    Where the system refuses with an [Exception], nothing tells of a saved
    session: the failure is shown as a warning in debug mode only, the
    application stops all the same, and the files are as they were unless
    the file had been opened, which leaves what was written of it.  An
    exception that is not an [Exception] leaves the command before the
    shutdown. *)
Theorem exit_saves_to_default_directory (env : environment) (args : list string)
    (app : App) :
  let st := SessionManager.session_state (session_manager app) in
  let dir := default_history_dir env in
  let path := SessionPersistence.path_join dir (TextExport.session_filename st) in
  let app' := snd (_cmd_exit env args app) in
  let goodbye :=
    match class_of app with
    | ConsoleApp => [Blank; Render "console.print" ["[bold cyan]Goodbye! 👋[/]"]; Blank]
    | TUIWrapper => []
    end in
  let attempt :=
    match mkdir_error env dir with
    | Some e => (Some e, files app)
    | None =>
        match SessionState.messages st with
        | [] => (None, files app)
        | _ :: _ =>
            match write_error env path with
            | None =>
                (None,
                 <[path := SessionPersistence.JsonFile (SessionState.to_dict st)]> (files app))
            | Some (NotOpened e) => (Some e, files app)
            | Some (Opened e written) =>
                (Some e, <[path := SessionPersistence.TextFile written]> (files app))
            end
        end
    end in
  files app' = snd attempt /\
  session_manager app' = session_manager app /\
  match fst attempt with
  | None =>
      fst (_cmd_exit env args app) = Ok tt /\
      running app' = false /\
      console app' = (console app ++ Render "render_info" ["Session saved"] :: goodbye)%list
  | Some e =>
      if is_Exception e then
        fst (_cmd_exit env args app) = Ok tt /\
        running app' = false /\
        console app' =
          (console app ++
           (if debug app
            then [Render "render_warning" [("Failed to save session: " ++ exc_str e)%string]]
            else []) ++ goodbye)%list
      else
        fst (_cmd_exit env args app) = Raise e /\
        running app' = running app /\
        console app' = console app
  end /\
  (forall cfg, files (snd (_cmd_exit env args (set_config cfg app))) = files app').
Proof.
  destruct app as [cls cfg dbg run model atype sm sess err con fs].
  cbv zeta. unfold _cmd_exit, shutdown, Refusing.SessionPersistence_init, Refusing.auto_save,
    Refusing.save_session, Refusing.write_file, SessionPersistence.write_file,
    TextExport.session_filename.
  cbv [on_session_manager on_files SessionManager.get_session_state bind get ret modify raise
       try_except emit render_info render_warning].
  cbn [session_manager files set_config class_of debug console running
       SessionPersistence.history_dir].
  destruct (mkdir_error env (default_history_dir env)) as [e|].
  { cbn. destruct (is_Exception e); [destruct dbg, cls|];
      cbn; rewrite <- ?app_assoc, ?app_nil_r; repeat split. }
  cbn. destruct (SessionState.messages (SessionManager.session_state sm)) as [|msg msgs].
  { cbn. destruct cls; cbn; rewrite <- ?app_assoc, ?app_nil_r; repeat split. }
  destruct (write_error env _) as [[e|e written]|]; cbn.
  - destruct (is_Exception e); [destruct dbg, cls|];
      cbn; rewrite <- ?app_assoc, ?app_nil_r; repeat split.
  - destruct (is_Exception e); [destruct dbg, cls|];
      cbn; rewrite <- ?app_assoc, ?app_nil_r; repeat split.
  - destruct cls; cbn; rewrite <- ?app_assoc, ?app_nil_r; repeat split.
Qed.

(** X20.  [handle_esc] never interrupts: it tests an attribute
    [_executing] that the session does not have (its flag is [executing]), so
    even while a call is in flight the key leaves the session as it is and
    tells that there is nothing to interrupt, where [interrupt()] itself
    would have set [interrupted]. *)
Theorem handle_esc_never_interrupts (app : App) (r : running_agent) :
  agent_session app = Some r ->
  handle_esc app =
    (Ok tt,
     set_console (console app ++ [Render "render_info" ["No agent execution to interrupt"]])
       app) /\
  agent_session (snd (handle_esc app)) = Some r /\
  (Gate.executing (session_of r) = true ->
   Gate.interrupted (snd (Gate.interrupt (session_of r))) = true).
Proof.
  intros Hsession. unfold handle_esc, bind, get. rewrite Hsession.
  cbn [session_flag String.eqb Ascii.eqb Bool.eqb].
  split; [reflexivity|]. split.
  - cbn. exact Hsession.
  - intros Hbusy. unfold Gate.interrupt, bind, get, modify. rewrite Hbusy. reflexivity.
Qed.

Lemma handle_esc_never_interrupts_witness :
  let r := mk_running SpoonReactAI (fun _ => Gate.Returns "done")
             (Gate.mk_session true false false Gate.LoopRunning ["A"]) in
  let app := mk_app ConsoleApp (JObject []) false true "gpt-4" "react" Scenario.fresh_manager
               (Some r) None [] ∅ in
  agent_session (snd (handle_esc app)) = Some r.
Proof.
  apply (handle_esc_never_interrupts
           (mk_app ConsoleApp (JObject []) false true "gpt-4" "react" Scenario.fresh_manager
              (Some (mk_running SpoonReactAI (fun _ => Gate.Returns "done")
                       (Gate.mk_session true false false Gate.LoopRunning ["A"])))
              None [] ∅)
           (mk_running SpoonReactAI (fun _ => Gate.Returns "done")
              (Gate.mk_session true false false Gate.LoopRunning ["A"])) eq_refl).
Defined.

End ConsoleProperties.

(** ** Loading the configuration *)

Module LoadingProperties.
Import ConfigLoading.

Lemma diverge_diverges (other keys : list string) :
  diverge other keys = true -> ConfigManager.diverges other keys.
Proof.
  revert keys. induction other as [|a other IH]; intros [|b keys]; simpl; try discriminate.
  destruct (String.eqb a b) eqn:Hab.
  - apply String.eqb_eq in Hab. subst b. intros H.
    destruct (IH _ H) as (common & x & y & ro & rk & -> & -> & Hne).
    exists (a :: common), x, y, ro, rk. auto.
  - intros _. apply String.eqb_neq in Hab. exists [], a, b, other, keys. auto.
Qed.

Lemma diverges_sym (other keys : list string) :
  ConfigManager.diverges other keys -> ConfigManager.diverges keys other.
Proof.
  intros (common & a & b & ro & rk & -> & -> & Hne).
  exists common, b, a, rk, ro. auto.
Qed.

Lemma apply_mapping_cases (lib : conversions) (getenv : string -> option string)
    (m : mapping) (config : json) :
  apply_mapping lib getenv m config =
    match override_value lib getenv m with
    | Some value => ConfigManager._set_nested (keys_of m) value config
    | None => (Ok tt, config)
    end.
Proof.
  destruct m as [[env_var keys] converter]. unfold apply_mapping, override_value, keys_of.
  cbn [fst snd]. destruct (getenv env_var) as [value|]; [|reflexivity]. cbn.
  destruct converter as [c|]; [|reflexivity].
  destruct (convert lib c value); reflexivity.
Qed.

Lemma apply_mappings_ok (lib : conversions) (getenv : string -> option string)
    (ms : list mapping) :
  apart ms = true ->
  forall config config',
    apply_mappings lib getenv ms config = (Ok tt, config') ->
    (forall m value, In m ms -> override_value lib getenv m = Some value ->
       ConfigManager.lookup_path (keys_of m) config' = Some value) /\
    (forall other, untouched lib getenv ms other ->
       ConfigManager.lookup_path other config' = ConfigManager.lookup_path other config).
Proof.
  induction ms as [|m rest IH]; intros Hapart config config' Hrun.
  - injection Hrun as <-. split; [intros m value []|reflexivity].
  - cbn [apart] in Hapart. apply andb_true_iff in Hapart as [Hhead Hrest].
    rewrite forallb_forall in Hhead.
    cbn [apply_mappings] in Hrun. unfold bind in Hrun.
    rewrite apply_mapping_cases in Hrun.
    assert (Hstep : exists config1,
              match override_value lib getenv m with
              | Some value => ConfigManager._set_nested (keys_of m) value config
              | None => (Ok tt, config)
              end = (Ok tt, config1) /\
              apply_mappings lib getenv rest config1 = (Ok tt, config')).
    { destruct (match override_value lib getenv m with
                | Some value => ConfigManager._set_nested (keys_of m) value config
                | None => (Ok tt, config)
                end) as [[[]|e] config1]; [eauto|discriminate]. }
    clear Hrun. destruct Hstep as (config1 & Hfirst & Hrun).
    destruct (IH Hrest _ _ Hrun) as [IHset IHframe].
    assert (Hframe1 : forall other,
              override_value lib getenv m = None \/ ConfigManager.diverges other (keys_of m) ->
              ConfigManager.lookup_path other config1 = ConfigManager.lookup_path other config).
    { intros other Hother. destruct (override_value lib getenv m) as [value|].
      - destruct Hother as [|Hdiv]; [discriminate|].
        exact (proj2 (ConfigProperties._set_nested_ok _ _ _ _ Hfirst) other Hdiv).
      - now injection Hfirst as <-. }
    split.
    + intros m' value [<-|Hin] Hvalue.
      * rewrite IHframe.
        -- rewrite Hvalue in Hfirst.
           exact (proj1 (ConfigProperties._set_nested_ok _ _ _ _ Hfirst)).
        -- intros m' Hin'. right. apply diverges_sym, diverge_diverges. now apply Hhead.
      * now apply IHset.
    + intros other Hother. rewrite IHframe.
      * apply Hframe1. apply Hother. now left.
      * intros m' Hin'. apply Hother. now right.
Qed.

Lemma apply_mappings_raise (lib : conversions) (getenv : string -> option string)
    (ms : list mapping) :
  Forall (fun m => keys_of m <> []) ms ->
  forall config e config',
    apply_mappings lib getenv ms config = (Raise e, config') -> exc_cls e = TypeError.
Proof.
  induction ms as [|m rest IH]; intros Hkeys config e config' Hrun; [discriminate|].
  apply Forall_cons in Hkeys as [Hm Hkeys].
  cbn [apply_mappings] in Hrun. unfold bind in Hrun. rewrite apply_mapping_cases in Hrun.
  destruct (override_value lib getenv m) as [value|].
  - destruct (ConfigManager.settable (keys_of m) config) eqn:Hs.
    + destruct (proj1 (ConfigProperties._set_nested_cases (keys_of m) value config) Hs)
        as [config1 Hok].
      rewrite Hok in Hrun. eapply IH; eassumption.
    + destruct (proj2 (ConfigProperties._set_nested_cases (keys_of m) value config) Hs)
        as (e1 & Hraise & [Hnil|He]); [contradiction|].
      rewrite Hraise in Hrun. now injection Hrun as <- _.
  - eapply IH; eassumption.
Qed.

Lemma apart_In (ms : list mapping) :
  apart ms = true ->
  forall m m', In m ms -> In m' ms ->
    m = m' \/ ConfigManager.diverges (keys_of m) (keys_of m').
Proof.
  induction ms as [|m0 rest IH]; intros Hapart m m' Hin Hin'; [destruct Hin|].
  cbn [apart] in Hapart. apply andb_true_iff in Hapart as [Hhead Hrest].
  rewrite forallb_forall in Hhead.
  destruct Hin as [<-|Hin]; destruct Hin' as [<-|Hin'].
  - now left.
  - right. apply diverges_sym, diverge_diverges. now apply Hhead.
  - right. apply diverge_diverges. now apply Hhead.
  - now apply IH.
Qed.

(** X21.  The overrides from the environment.  When
    [_apply_env_overrides] returns, every mapped variable that is set, and
    whose converter accepts its value, has put the converted value at its
    path; a variable that is not set, or whose value the converter rejects,
    has left its path as it was; and so has every path that leaves the paths
    of the variables that took effect.  When it raises, it raises a
    [TypeError]. *)
Theorem env_overrides_apply (lib : conversions) (getenv : string -> option string)
    (config : json) :
  (forall config',
     _apply_env_overrides lib getenv config = (Ok tt, config') ->
     (forall m value, In m env_mappings -> override_value lib getenv m = Some value ->
        ConfigManager.lookup_path (keys_of m) config' = Some value) /\
     (forall m, In m env_mappings -> override_value lib getenv m = None ->
        ConfigManager.lookup_path (keys_of m) config'
        = ConfigManager.lookup_path (keys_of m) config) /\
     (forall other, untouched lib getenv env_mappings other ->
        ConfigManager.lookup_path other config' = ConfigManager.lookup_path other config)) /\
  (forall e config',
     _apply_env_overrides lib getenv config = (Raise e, config') -> exc_cls e = TypeError).
Proof.
  split.
  - intros config' Hrun.
    destruct (apply_mappings_ok lib getenv env_mappings eq_refl _ _ Hrun) as [Hset Hframe].
    split; [exact Hset|]. split; [|exact Hframe].
    intros m Hin Hnone. apply Hframe. intros m' Hin'.
    destruct (apart_In env_mappings eq_refl m m' Hin Hin') as [<-|Hdiv]; auto.
  - intros e config' Hrun.
    eapply (apply_mappings_raise lib getenv env_mappings); [|exact Hrun].
    repeat constructor; discriminate.
Qed.

(** X22.  The order of [load].  Without the file of the defaults, [load]
    raises [FileNotFoundError] and leaves the manager as it was.  A custom
    path that names no file is passed over.  A custom file that is not JSON
    makes [load] raise [ValueError], with the defaults already in place as
    the configuration.  With two files that hold dicts, the environment is
    applied last: what [load] returns is the configuration of the manager,
    it holds the value of every variable that took effect, and along every
    other path what the merge of the custom file into the defaults holds. *)
Theorem load_order (lib : conversions) (getenv : string -> option string)
    (files : gmap string SessionPersistence.file) (self : t) :
  (files !! _defaults_path self = None ->
   load lib getenv files self =
     (Raise (mk_exception FileNotFoundError
               ("Defaults file not found: " ++ _defaults_path self)), self)) /\
  (forall p, config_path self = Some p -> files !! p = None ->
     let plain := mk None (config self) (_defaults_path self) in
     fst (load lib getenv files self) = fst (load lib getenv files plain) /\
     config (snd (load lib getenv files self)) = config (snd (load lib getenv files plain))) /\
  (forall p defaults text,
     files !! _defaults_path self = Some (SessionPersistence.JsonFile defaults) ->
     config_path self = Some p ->
     files !! p = Some (SessionPersistence.TextFile text) ->
     load lib getenv files self =
       (Raise (mk_exception ValueError
                 ("Invalid JSON in " ++ p ++ ": Expecting value: line 1 column 1 (char 0)")),
        set_config defaults self)) /\
  (forall p defaults custom cfg self',
     files !! _defaults_path self = Some (SessionPersistence.JsonFile (JObject defaults)) ->
     config_path self = Some p ->
     files !! p = Some (SessionPersistence.JsonFile (JObject custom)) ->
     load lib getenv files self = (Ok cfg, self') ->
     config self' = cfg /\
     (forall m value, In m env_mappings -> override_value lib getenv m = Some value ->
        ConfigManager.lookup_path (keys_of m) cfg = Some value) /\
     (forall other, untouched lib getenv env_mappings other ->
        ConfigManager.lookup_path other cfg =
        ConfigManager.lookup_path other
          (JObject (ConfigManager._merge_configs defaults custom)))).
Proof.
  destruct self as [path config0 dpath]. cbn [_defaults_path config_path config].
  split; [|split; [|split]].
  - intros Hmissing.
    cbv [load _load_defaults bind get raise]. cbn [_defaults_path]. now rewrite Hmissing.
  - intros p -> Hnone. cbv zeta.
    cbv [load _load_defaults bind get raise lift modify ret on_config].
    cbn [_defaults_path config_path config set_config].
    destruct (files !! dpath) as [f|]; [|split; reflexivity].
    destruct (_load_json files dpath) as [defaults|e]; [|split; reflexivity].
    cbn [_defaults_path config_path config set_config]. rewrite Hnone.
    cbn -[_apply_env_overrides].
    destruct (_apply_env_overrides lib getenv defaults) as [[u|e] c]; split; reflexivity.
  - intros p defaults text Hdefaults -> Hcustom.
    cbv [load _load_defaults _load_json bind get raise lift modify ret on_config].
    cbn [_defaults_path config_path config set_config].
    rewrite Hdefaults. cbn [_defaults_path config_path config set_config].
    rewrite Hcustom. reflexivity.
  - intros p defaults custom cfg self' Hdefaults -> Hcustom Hload.
    cbv [load _load_defaults _load_json bind get raise lift modify ret on_config] in Hload.
    cbn [_defaults_path config_path config set_config] in Hload.
    rewrite Hdefaults in Hload. cbn [_defaults_path config_path config set_config] in Hload.
    rewrite Hcustom in Hload. cbn [merge_loaded config_path config set_config] in Hload.
    destruct (_apply_env_overrides lib getenv
                (JObject (ConfigManager._merge_configs defaults custom)))
      as [[u|e] c] eqn:Henv; [|discriminate].
    injection Hload as <- <-. cbn [config]. split; [reflexivity|].
    destruct u.
    destruct (apply_mappings_ok lib getenv env_mappings eq_refl _ _ Henv) as [Hset Hframe].
    split; [exact Hset|exact Hframe].
Qed.

Lemma load_order_witness :
  let files : gmap string SessionPersistence.file :=
    {["defaults.json" :=
        SessionPersistence.JsonFile
          (JObject [("llm", JObject [("default_model", JString "gpt-4o");
                                     ("temperature", JInt 1)])]);
      "custom.json" :=
        SessionPersistence.JsonFile
          (JObject [("llm", JObject [("default_model", JString "claude-sonnet-4")])])]} in
  let getenv := fun name =>
    if String.eqb name "ORBITON_LLM_MODEL" then Some "gpt-4" else None in
  exists cfg self',
    load (mk_conversions (fun _ => None) (fun _ => None)) getenv files
      (mk (Some "custom.json") (JObject []) "defaults.json") = (Ok cfg, self') /\
    ConfigManager.lookup_path ["llm"; "default_model"] cfg = Some (JString "gpt-4").
Proof.
  cbv zeta. eexists _, _. split; [reflexivity|].
  pose proof (load_order (mk_conversions (fun _ => None) (fun _ => None))
                (fun name => if String.eqb name "ORBITON_LLM_MODEL" then Some "gpt-4" else None)
                {["defaults.json" :=
                    SessionPersistence.JsonFile
                      (JObject [("llm", JObject [("default_model", JString "gpt-4o");
                                                 ("temperature", JInt 1)])]);
                  "custom.json" :=
                    SessionPersistence.JsonFile
                      (JObject [("llm", JObject [("default_model",
                                                  JString "claude-sonnet-4")])])]}
                (mk (Some "custom.json") (JObject []) "defaults.json"))
    as (_ & _ & _ & Hload).
  destruct (Hload "custom.json" _ _ _ _ eq_refl eq_refl eq_refl eq_refl) as (_ & Hset & _).
  apply (Hset ("ORBITON_LLM_MODEL", ["llm"; "default_model"], None)); [now left|reflexivity].
Defined.

End LoadingProperties.

(** ** The tools of the MCP servers *)

Module McpProperties.
Import McpTools.

Lemma resolve_loop (getenv : string -> option string) (key : string)
    (items : list (string * json)) :
  NoDup (map fst items) ->
  forall env_vars,
    assoc key (fold_left (resolve_item getenv) items env_vars) =
      match assoc key items with
      | Some value =>
          if is_placeholder value then
            match value with
            | JString s =>
                match getenv (placeholder_name s) with
                | Some env_value =>
                    if String.eqb env_value "" then assoc key env_vars
                    else Some (JString env_value)
                | None => assoc key env_vars
                end
            | _ => assoc key env_vars
            end
          else Some value
      | None => assoc key env_vars
      end.
Proof.
  induction items as [|[k v] rest IH]; intros Hnodup env_vars; [reflexivity|].
  simpl in Hnodup. apply NoDup_cons in Hnodup as [Hnotin Hnodup].
  rewrite list_elem_of_In in Hnotin.
  cbn [fold_left assoc]. rewrite (IH Hnodup).
  destruct (String.eqb key k) eqn:Hk.
  - apply String.eqb_eq in Hk. subst k.
    rewrite (assoc_None_not_In _ _ Hnotin).
    unfold resolve_item. destruct (is_placeholder v) eqn:Hp.
    + destruct v; try reflexivity.
      destruct (getenv (placeholder_name s)) as [env_value|]; [|reflexivity].
      destruct (String.eqb env_value ""); cbn [negb]; [reflexivity|].
      apply assoc_dict_set_eq.
    + apply assoc_dict_set_eq.
  - apply String.eqb_neq in Hk.
    assert (Hsame : assoc key (resolve_item getenv env_vars (k, v)) = assoc key env_vars).
    { unfold resolve_item. destruct (is_placeholder v).
      - destruct v; try reflexivity.
        destruct (getenv (placeholder_name s)) as [env_value|]; [|reflexivity].
        destruct (String.eqb env_value ""); cbn [negb]; [reflexivity|].
        now apply assoc_dict_set_ne.
      - now apply assoc_dict_set_ne. }
    now rewrite Hsame.
Qed.

Lemma assign_env_dict (variable value : string) (members env : list (string * json)) :
  assoc "env" members = Some (JObject env) ->
  assign_env variable value (JObject members) =
    (Ok tt, JObject (dict_set "env" (JObject (dict_set variable (JString value) env)) members)).
Proof. intros Henv. unfold assign_env. cbn [subscript]. now rewrite Henv. Qed.

(** The configuration of a server after [prepare_env], when it is a dict
    whose [env], if it has one, is a dict. *)
Lemma prepare_env_dict (getenv : string -> option string)
    (members env : list (string * json)) :
  assoc "env" members = Some (JObject env) \/ (assoc "env" members = None /\ env = []) ->
  let env_vars := fold_left (resolve_item getenv) env [] in
  let final :=
    dict_set "NPM_CONFIG_LOGLEVEL" (JString "error")
      (dict_set "NODE_ENV" (JString "production")
         (dict_set "PYTHONUNBUFFERED" (JString "0")
            (dict_set "PYTHONWARNINGS" (JString "ignore") env_vars))) in
  exists members',
    prepare_env getenv (JObject members) = (Ok tt, JObject members') /\
    assoc "env" members' = Some (JObject final) /\
    forall key, key <> "env" -> assoc key members' = assoc key members.
Proof.
  intros Henv env_vars final.
  assert (Hfirst : exists members1,
            set_env getenv (JObject members) = (Ok tt, JObject members1) /\
            assoc "env" members1 = Some (JObject env_vars) /\
            forall key, key <> "env" -> assoc key members1 = assoc key members).
  { exists (dict_set "env" (JObject env_vars) members).
    split; [|split; [apply assoc_dict_set_eq|intros key Hkey; now apply assoc_dict_set_ne]].
    unfold set_env, bind, get. cbn [contains subscript id].
    destruct Henv as [Henv|[Henv ->]]; rewrite Henv; reflexivity. }
  destruct Hfirst as (members1 & Hfirst & Henv1 & Hframe1).
  unfold prepare_env, bind. rewrite Hfirst.
  rewrite (assign_env_dict _ _ _ _ Henv1).
  rewrite (assign_env_dict _ _ _ _ (assoc_dict_set_eq _ _ _)).
  rewrite (assign_env_dict _ _ _ _ (assoc_dict_set_eq _ _ _)).
  rewrite (assign_env_dict _ _ _ _ (assoc_dict_set_eq _ _ _)).
  eexists. split; [reflexivity|]. split; [apply assoc_dict_set_eq|].
  intros key Hkey. rewrite !assoc_dict_set_ne by exact Hkey. now apply Hframe1.
Qed.

Lemma resolved_final (getenv : string -> option string) (env : list (string * json))
    (key : string) :
  NoDup (map fst env) ->
  assoc key
    (dict_set "NPM_CONFIG_LOGLEVEL" (JString "error")
       (dict_set "NODE_ENV" (JString "production")
          (dict_set "PYTHONUNBUFFERED" (JString "0")
             (dict_set "PYTHONWARNINGS" (JString "ignore")
                (fold_left (resolve_item getenv) env [])))))
  = resolved getenv env key.
Proof.
  intros Hnodup. unfold resolved, fixed_env. cbn [assoc].
  destruct (String.eqb key "PYTHONWARNINGS") eqn:H1.
  { apply String.eqb_eq in H1. subst key.
    rewrite !assoc_dict_set_ne by discriminate. apply assoc_dict_set_eq. }
  destruct (String.eqb key "PYTHONUNBUFFERED") eqn:H2.
  { apply String.eqb_eq in H2. subst key.
    rewrite !assoc_dict_set_ne by discriminate. apply assoc_dict_set_eq. }
  destruct (String.eqb key "NODE_ENV") eqn:H3.
  { apply String.eqb_eq in H3. subst key.
    rewrite !assoc_dict_set_ne by discriminate. apply assoc_dict_set_eq. }
  destruct (String.eqb key "NPM_CONFIG_LOGLEVEL") eqn:H4.
  { apply String.eqb_eq in H4. subst key. apply assoc_dict_set_eq. }
  apply String.eqb_neq in H1, H2, H3, H4.
  rewrite !assoc_dict_set_ne by assumption.
  rewrite (resolve_loop getenv key env Hnodup). cbn [assoc].
  destruct (assoc key env) as [v|]; [|reflexivity].
  destruct (is_placeholder v) eqn:Hp.
  - destruct v; try discriminate. rewrite Hp.
    destruct (getenv (placeholder_name s)) as [env_value|]; [|reflexivity].
    destruct (String.eqb env_value ""); reflexivity.
  - destruct v; try reflexivity. now rewrite Hp.
Qed.

(** The block of a server whose [config] gets through [prepare_env]. *)
Lemma process_server_prepared (lib : library) (getenv : string -> option string)
    (members : list (string * json)) (server_config server_config' : json) :
  assoc "config" members = Some server_config ->
  prepare_env getenv server_config = (Ok tt, server_config') ->
  let server_name :=
    match assoc "name" members with
    | Some v => v
    | None => JString "unknown"
    end in
  let mcp_tool :=
    mk_tool server_name
      match assoc "description" members with
      | Some v => v
      | None => JString ("MCP tool: " ++ py_str lib server_name)
      end
      server_config' in
  process_server lib getenv (JObject members) =
    (match MCPTool_init lib mcp_tool with
     | Some e => Raise e
     | None => Ok mcp_tool
     end,
     JObject (dict_set "config" server_config' members)).
Proof.
  intros Hconfig Hprepare. cbv zeta. unfold process_server. cbn [dict_get].
  rewrite Hconfig.
  replace (match assoc "name" members with
           | Some v => Ok v
           | None => Ok (JString "unknown")
           end) with (Ok (A := json) match assoc "name" members with
                                    | Some v => v
                                    | None => JString "unknown"
                                    end)
    by (destruct (assoc "name" members); reflexivity).
  rewrite Hprepare. cbn [dict_get]. rewrite assoc_dict_set_ne by discriminate.
  destruct (assoc "description" members); destruct (MCPTool_init lib _); reflexivity.
Qed.

(** X23.  The environment of an MCP server.  For a server whose [config]
    is a dict with a dict [env], the tool finds in its [env]: the four
    variables that every server gets, whatever the configuration says about
    them; the value of the environment variable for an entry ["${VAR}"] whose
    variable is set and not empty, and no entry at all when it is not; and
    every other entry as it is.  The rest of the server's [config] is as it
    was, and the change is made in the caller's configuration itself, which
    holds the values of the variables afterwards, also when the tool could
    not be made. *)
Theorem server_env_resolved (lib : library) (getenv : string -> option string)
    (members config_members env : list (string * json)) :
  assoc "config" members = Some (JObject config_members) ->
  assoc "env" config_members = Some (JObject env) ->
  NoDup (map fst env) ->
  exists tool_config,
    ConfigManager.lookup_path ["config"] (snd (process_server lib getenv (JObject members)))
    = Some tool_config /\
    (forall key,
       ConfigManager.lookup_path ["env"; key] tool_config = resolved getenv env key) /\
    (forall key, key <> "env" ->
       ConfigManager.lookup_path [key] tool_config
       = ConfigManager.lookup_path [key] (JObject config_members)) /\
    (forall tool, fst (process_server lib getenv (JObject members)) = Ok tool ->
       mcp_config tool = tool_config).
Proof.
  intros Hconfig Henv Hnodup.
  destruct (prepare_env_dict getenv config_members env (or_introl Henv))
    as (members' & Hprepare & Henv' & Hframe).
  exists (JObject members').
  rewrite (process_server_prepared lib getenv members _ _ Hconfig Hprepare).
  cbn [fst snd]. split; [|split; [|split]].
  - cbn. now rewrite assoc_dict_set_eq.
  - intros key. cbn [ConfigManager.lookup_path]. rewrite Henv'.
    rewrite (resolved_final getenv env key Hnodup).
    destruct (resolved getenv env key); reflexivity.
  - intros key Hkey. cbn [ConfigManager.lookup_path]. now rewrite Hframe.
  - intros tool. destruct (MCPTool_init lib _); intros [= <-]. reflexivity.
Qed.

Lemma server_env_resolved_witness :
  let getenv := fun variable => if String.eqb variable "API_KEY" then Some "s3cret" else None in
  let server :=
    [("name", JString "search");
     ("config", JObject [("command", JString "npx");
                         ("env", JObject [("KEY", JString "${API_KEY}");
                                          ("OTHER", JString "${MISSING}");
                                          ("NODE_ENV", JString "development")])])] in
  exists tool_config,
    ConfigManager.lookup_path ["config"]
      (snd (process_server (mk_library (fun _ => "search") (fun _ => None)) getenv
              (JObject server))) = Some tool_config /\
    ConfigManager.lookup_path ["env"; "KEY"] tool_config = Some (JString "s3cret") /\
    ConfigManager.lookup_path ["env"; "OTHER"] tool_config = None /\
    ConfigManager.lookup_path ["env"; "NODE_ENV"] tool_config = Some (JString "production").
Proof.
  cbv zeta.
  destruct (server_env_resolved (mk_library (fun _ => "search") (fun _ => None))
              (fun variable => if String.eqb variable "API_KEY" then Some "s3cret" else None)
              [("name", JString "search");
               ("config", JObject [("command", JString "npx");
                                   ("env", JObject [("KEY", JString "${API_KEY}");
                                                    ("OTHER", JString "${MISSING}");
                                                    ("NODE_ENV", JString "development")])])]
              [("command", JString "npx");
               ("env", JObject [("KEY", JString "${API_KEY}");
                                ("OTHER", JString "${MISSING}");
                                ("NODE_ENV", JString "development")])]
              [("KEY", JString "${API_KEY}");
               ("OTHER", JString "${MISSING}");
               ("NODE_ENV", JString "development")]
              eq_refl eq_refl) as (tool_config & Hconfig & Hkeys & _).
  - apply (bool_decide_unpack _). reflexivity.
  - exists tool_config. split; [exact Hconfig|]. rewrite !Hkeys. repeat split.
Defined.

Lemma only_bind {S A B} (m : SE S A) (k : A -> SE S B) :
  raises_exceptions_only m -> (forall a, raises_exceptions_only (k a)) ->
  raises_exceptions_only (bind m k).
Proof.
  intros Hm Hk s e s'. unfold bind. destruct (m s) as [[a|e1] s1] eqn:Hrun.
  - apply Hk.
  - intros [= <- <-]. eapply Hm, Hrun.
Qed.

Lemma only_pure {S A} (o : outcome A) :
  (forall e, o = Raise e -> is_Exception e = true) ->
  raises_exceptions_only (fun s : S => (o, s)).
Proof. intros Ho s e s' [= -> _]. now apply Ho. Qed.

Lemma contains_raise (container : json) (key : string) (e : exception) :
  contains container key = Raise e -> is_Exception e = true.
Proof. destruct container; cbn; intros [= <-]; reflexivity. Qed.

Lemma subscript_raise_exception (data : json) (key : string) (e : exception) :
  subscript data key = Raise e -> is_Exception e = true.
Proof.
  destruct data; cbn; try (intros [= <-]; reflexivity).
  destruct (assoc key members); intros [= <-]; reflexivity.
Qed.

Lemma dict_items_raise (d : json) (e : exception) :
  dict_items d = Raise e -> is_Exception e = true.
Proof. destruct d; cbn; intros [= <-]; reflexivity. Qed.

Lemma item_assign_raise (container : json) (key : string) (value : json) (e : exception) :
  item_assign container key value = Raise e -> is_Exception e = true.
Proof. destruct container; cbn; intros [= <-]; reflexivity. Qed.

Lemma only_item_assign (key : string) (value : json) :
  raises_exceptions_only
    (fun s => match item_assign s key value with
              | Ok s' => (Ok tt, s')
              | Raise e => (Raise e, s)
              end).
Proof.
  intros s e s'. destruct (item_assign s key value) eqn:Hassign; [discriminate|].
  intros [= <- _]. eapply item_assign_raise, Hassign.
Qed.

Lemma only_assign_env (variable value : string) :
  raises_exceptions_only (assign_env variable value).
Proof.
  intros s e s'. unfold assign_env.
  destruct (subscript s "env") as [env|e1] eqn:Hsub.
  - destruct (item_assign env variable (JString value)) eqn:Hassign; [discriminate|].
    intros [= <- _]. eapply item_assign_raise, Hassign.
  - intros [= <- _]. eapply subscript_raise_exception, Hsub.
Qed.

Lemma only_prepare_env (getenv : string -> option string) :
  raises_exceptions_only (prepare_env getenv).
Proof.
  unfold prepare_env.
  repeat (apply only_bind; [|intros _]); try apply only_assign_env.
  unfold set_env. apply only_bind; [intros s e s'; discriminate|]. intros server_config.
  apply only_bind; [apply only_pure, contains_raise|]. intros [|].
  - apply only_bind; [apply only_pure, subscript_raise_exception|]. intros env.
    apply only_bind; [apply only_pure, dict_items_raise|]. intros items.
    apply only_item_assign.
  - apply only_item_assign.
Qed.

(** The block of a server that is a dict raises what the constructor
    raises, or an exception deriving from [Exception], and leaves a dict. *)
Lemma process_server_dict (lib : library) (getenv : string -> option string)
    (members : list (string * json)) :
  exists members',
    snd (process_server lib getenv (JObject members)) = JObject members' /\
    forall e, fst (process_server lib getenv (JObject members)) = Raise e ->
      is_Exception e = true \/ exists tool, MCPTool_init lib tool = Some e.
Proof.
  unfold process_server. cbn [dict_get].
  set (server_name := match assoc "name" members with
                      | Some v => Ok v
                      | None => Ok (JString "unknown")
                      end).
  assert (Hname : exists v, server_name = Ok v)
    by (subst server_name; destruct (assoc "name" members); eauto).
  destruct Hname as [v ->].
  set (server_config := match assoc "config" members with
                        | Some v => Ok v
                        | None => Ok (JObject [])
                        end).
  assert (Hconfig : exists c, server_config = Ok c)
    by (subst server_config; destruct (assoc "config" members); eauto).
  destruct Hconfig as [c ->].
  destruct (prepare_env getenv c) as [[u|e] c'] eqn:Hprepare.
  - set (server' := match assoc "config" members with
                    | Some _ => JObject (dict_set "config" c' members)
                    | None => JObject members
                    end).
    assert (Hdict : exists members', server' = JObject members')
      by (subst server'; destruct (assoc "config" members); eauto).
    destruct Hdict as [members' ->]. exists members'. cbn [dict_get].
    destruct (assoc "description" members');
      destruct (MCPTool_init lib _) eqn:Hinit; cbn [fst snd];
      (split; [reflexivity|]); intros e' [= <-]; eauto.
  - apply only_prepare_env in Hprepare.
    destruct (assoc "config" members); eexists; (split; [reflexivity|]);
      intros e' [= <-]; auto.
Qed.

Lemma create_loop_dicts (lib : library) (getenv : string -> option string)
    (servers : list json) :
  (forall tool e, MCPTool_init lib tool = Some e -> is_Exception e = true) ->
  Forall (fun server => is_dict server = true) servers ->
  forall mcp_tools,
    fst (create_loop lib getenv servers mcp_tools) =
    Ok (mcp_tools ++ omap (tool_of lib getenv) servers)%list.
Proof.
  intros Hinit. induction servers as [|server rest IH]; intros Hdicts mcp_tools.
  - cbn. now rewrite app_nil_r.
  - apply Forall_cons in Hdicts as [Hdict Hdicts].
    destruct server as [| | | | | |members]; try discriminate.
    change (omap (tool_of lib getenv) (JObject members :: rest))
      with (match tool_of lib getenv (JObject members) with
            | Some y => y :: omap (tool_of lib getenv) rest
            | None => omap (tool_of lib getenv) rest
            end).
    cbn [create_loop]. unfold tool_of at 1.
    destruct (process_server_dict lib getenv members) as (members' & Hafter & Hraise).
    destruct (process_server lib getenv (JObject members)) as [[tool|e] server'].
    + cbn [fst snd] in *. specialize (IH Hdicts (mcp_tools ++ [tool])%list).
      destruct (create_loop lib getenv rest (mcp_tools ++ [tool])) as [r rest'].
      cbn [fst] in *. rewrite IH. now rewrite <- app_assoc.
    + cbn [fst snd] in *. subst server'.
      assert (He : is_Exception e = true).
      { destruct (Hraise e eq_refl) as [He|[tool Htool]]; [exact He|eauto]. }
      rewrite He. cbn [dict_get].
      specialize (IH Hdicts mcp_tools).
      destruct (assoc "name" members');
        destruct (create_loop lib getenv rest mcp_tools) as [r rest']; exact IH.
Qed.

(** X24.  The servers are taken one by one.  With MCP enabled and a list
    of servers that are dicts, [_create_mcp_tools] returns whatever the
    servers hold: a server whose block fails, on its configuration or in the
    constructor of the tool, is passed over, and the tools of the others come
    in the order of the servers.  A server that is no dict ends the call
    with an [AttributeError], raised by the handler that was to log the
    failure. *)
Theorem servers_taken_one_by_one (lib : library) (getenv : string -> option string)
    (members : list (string * json)) (enabled : json) (servers : list json) :
  assoc "enabled" members = Some enabled ->
  truthy enabled = true ->
  assoc "servers" members = Some (JArray servers) ->
  (forall tool e, MCPTool_init lib tool = Some e -> is_Exception e = true) ->
  (Forall (fun server => is_dict server = true) servers ->
   fst (_create_mcp_tools lib getenv (JObject members))
   = Ok (omap (tool_of lib getenv) servers)) /\
  (forall before server after,
     servers = (before ++ server :: after)%list ->
     Forall (fun server => is_dict server = true) before ->
     is_dict server = false ->
     exists e,
       fst (_create_mcp_tools lib getenv (JObject members)) = Raise e /\
       exc_cls e = AttributeError).
Proof.
  intros Henabled Htruthy Hservers Hinit.
  assert (Hcall : fst (_create_mcp_tools lib getenv (JObject members)) =
                  match servers with
                  | [] => Ok []
                  | _ :: _ => fst (create_loop lib getenv servers [])
                  end).
  { unfold _create_mcp_tools. cbn [dict_get]. rewrite Henabled, Htruthy, Hservers.
    cbn [negb truthy iterate]. destruct servers as [|server rest]; [reflexivity|].
    cbn [negb]. destruct (create_loop lib getenv (server :: rest) []). reflexivity. }
  split.
  - intros Hdicts. rewrite Hcall. destruct servers as [|server rest]; [reflexivity|].
    now rewrite (create_loop_dicts lib getenv _ Hinit Hdicts).
  - intros before server after -> Hdicts Hnot. rewrite Hcall.
    assert (Hloop : forall mcp_tools,
              exists e,
                fst (create_loop lib getenv (before ++ server :: after) mcp_tools) = Raise e /\
                exc_cls e = AttributeError).
    { clear Hcall Hservers. induction before as [|b before IH]; intros mcp_tools.
      - cbn [List.app create_loop].
        assert (Hget : forall default,
                  exists e, dict_get server "name" default = Raise e /\
                            exc_cls e = AttributeError /\ is_Exception e = true)
          by (intros default; destruct server; try discriminate; cbn; eauto).
        unfold process_server. destruct (Hget (JString "unknown")) as (e & -> & Hcls & Hexc).
        rewrite Hexc. destruct (Hget (JString "unknown")) as (e' & -> & Hcls' & _).
        cbn [fst]. eauto.
      - apply Forall_cons in Hdicts as [Hb Hdicts].
        destruct b as [| | | | | |bm]; try discriminate.
        cbn [List.app create_loop].
        destruct (process_server_dict lib getenv bm) as (bm' & Hafter & Hraise).
        destruct (process_server lib getenv (JObject bm)) as [[tool|e] server'].
        + destruct (IH Hdicts (mcp_tools ++ [tool])%list) as (e & He & Hcls).
          destruct (create_loop lib getenv (before ++ server :: after) (mcp_tools ++ [tool]))
            as [r rest']. cbn [fst] in *. eauto.
        + cbn [fst snd] in *. subst server'.
          assert (He : is_Exception e = true).
          { destruct (Hraise e eq_refl) as [He|[tool Htool]]; [exact He|eauto]. }
          rewrite He. cbn [dict_get].
          destruct (IH Hdicts mcp_tools) as (e' & He' & Hcls).
          destruct (assoc "name" bm');
            destruct (create_loop lib getenv (before ++ server :: after) mcp_tools)
              as [r rest']; cbn [fst] in *; eauto. }
    destruct (before ++ server :: after)%list eqn:Hlist;
      [destruct before; discriminate|]. apply Hloop.
Qed.

Lemma servers_taken_one_by_one_witness :
  let lib := mk_library (fun _ => "search")
               (fun tool => match ConfigManager.lookup_path ["broken"] (mcp_config tool) with
                            | Some _ => Some (mk_exception ValueError "bad config")
                            | None => None
                            end) in
  let members :=
    [("enabled", JBool true);
     ("servers", JArray [JObject [("name", JString "a"); ("config", JObject [("broken", JNull)])];
                         JObject [("name", JString "b")]])] in
  map name (returned_list (fst (_create_mcp_tools lib (fun _ => None) (JObject members))))
  = [JString "b"].
Proof.
  cbv zeta.
  assert (Hinit : forall tool e,
            match ConfigManager.lookup_path ["broken"] (mcp_config tool) with
            | Some _ => Some (mk_exception ValueError "bad config")
            | None => None
            end = Some e -> is_Exception e = true).
  { intros tool e. destruct (ConfigManager.lookup_path ["broken"] (mcp_config tool));
      [intros [= <-]; reflexivity|discriminate]. }
  rewrite (proj1 (servers_taken_one_by_one
                    (mk_library (fun _ => "search")
                       (fun tool =>
                          match ConfigManager.lookup_path ["broken"] (mcp_config tool) with
                          | Some _ => Some (mk_exception ValueError "bad config")
                          | None => None
                          end))
                    (fun _ => None)
                    [("enabled", JBool true);
                     ("servers",
                      JArray [JObject [("name", JString "a");
                                       ("config", JObject [("broken", JNull)])];
                              JObject [("name", JString "b")]])]
                    (JBool true)
                    [JObject [("name", JString "a"); ("config", JObject [("broken", JNull)])];
                     JObject [("name", JString "b")]]
                    eq_refl eq_refl eq_refl Hinit)).
  - reflexivity.
  - repeat constructor.
Defined.

End McpProperties.

(** ** Expandable sections *)

Lemma str_of_nat_inj (n m : nat) : str_of_nat n = str_of_nat m -> n = m.
Proof.
  unfold str_of_nat. intros H.
  assert (Hnil : forall k, Nat.to_uint k <> Decimal.Nil).
  { intros k Hk. pose proof (DecimalNat.Unsigned.to_of (Nat.to_uint k)) as Hto.
    rewrite DecimalNat.Unsigned.of_to, Hk in Hto. discriminate Hto. }
  apply DecimalNat.Unsigned.to_uint_inj.
  pose proof (NilZero.usu _ (Hnil n)) as Hn.
  pose proof (NilZero.usu _ (Hnil m)) as Hm.
  rewrite H in Hn. congruence.
Qed.

Lemma str_of_nat_digits (n : nat) : str_contains_char "_" (str_of_nat n) = false.
Proof.
  unfold str_of_nat.
  assert (Hd : forall d, str_contains_char "_" (NilEmpty.string_of_uint d) = false).
  { induction d; simpl; auto. }
  unfold NilZero.string_of_uint.
  destruct (Nat.to_uint n) as [|d|d|d|d|d|d|d|d|d|d]; [reflexivity|..];
    match goal with |- context [NilEmpty.string_of_uint ?u] => apply (Hd u) end.
Qed.

Lemma underscore_absent (b d : string) :
  str_contains_char "_" (b ++ String "_" d) = true.
Proof.
  induction b as [|z b IH]; [reflexivity|].
  rewrite str_app_cons. simpl. rewrite IH. apply orb_true_r.
Qed.

Lemma underscore_suffix (a b c d : string) :
  str_contains_char "_" c = false -> str_contains_char "_" d = false ->
  a ++ "_" ++ c = b ++ "_" ++ d -> c = d.
Proof.
  change ("_" ++ c) with (String "_" c). change ("_" ++ d) with (String "_" d).
  intros Hc Hd. revert b. induction a as [|x a IH]; intros [|y b];
    rewrite ?str_app_cons, ?str_app_nil_l; intros [= H].
  - exact H.
  - subst c. now rewrite underscore_absent in Hc.
  - subst d. now rewrite underscore_absent in Hd.
  - eauto.
Qed.

Module SectionsProperties.
Import Sections.

Lemma sections_get_set_eq (key : string) (value : ExpandableSection)
    (members : list (string * ExpandableSection)) :
  sections_get key (sections_set key value members) = Some value.
Proof.
  induction members as [|[k v] rest IH]; simpl.
  - now rewrite String.eqb_refl.
  - destruct (String.eqb key k) eqn:E; simpl; rewrite E; auto.
Qed.

Lemma sections_get_set_ne (key other : string) (value : ExpandableSection)
    (members : list (string * ExpandableSection)) :
  other <> key -> sections_get other (sections_set key value members) = sections_get other members.
Proof.
  intros Hne. induction members as [|[k v] rest IH]; simpl.
  - apply String.eqb_neq in Hne. now rewrite Hne.
  - destruct (String.eqb key k) eqn:E; simpl.
    + apply String.eqb_eq in E. subst k.
      apply String.eqb_neq in Hne. now rewrite Hne.
    + destruct (String.eqb other k); auto.
Qed.

Lemma sections_set_keys (key : string) (value : ExpandableSection)
    (members : list (string * ExpandableSection)) :
  map fst (sections_set key value members) =
  match sections_get key members with
  | Some _ => map fst members
  | None => (map fst members ++ [key])%list
  end.
Proof.
  induction members as [|[k v] rest IH]; simpl; [reflexivity|].
  destruct (String.eqb key k); simpl; [reflexivity|].
  rewrite IH. now destruct (sections_get key rest).
Qed.

Lemma sections_set_new (key : string) (value : ExpandableSection)
    (members : list (string * ExpandableSection)) :
  sections_get key members = None ->
  sections_set key value members = (members ++ [(key, value)])%list.
Proof.
  induction members as [|[k v] rest IH]; simpl; [reflexivity|].
  destruct (String.eqb key k); [discriminate|]. intros H. now rewrite IH.
Qed.

Lemma sections_get_In (key : string) (members : list (string * ExpandableSection)) :
  sections_get key members <> None -> In key (map fst members).
Proof.
  induction members as [|[k v] rest IH]; simpl; [congruence|].
  destruct (String.eqb key k) eqn:E.
  - apply String.eqb_eq in E. auto.
  - auto.
Qed.

(** The id that the counter gives next is not among issued ids. *)
Lemma counter_id_unused (self : SectionManager) (section_type : string) :
  (forall key, In key (map fst (sections self)) -> issued self key) ->
  sections_get (section_type ++ "_" ++ str_of_nat (_id_counter self)) (sections self) = None.
Proof.
  intros Hkeys. destruct (sections_get _ (sections self)) eqn:Hget; [|reflexivity].
  exfalso.
  assert (Hin : In (section_type ++ "_" ++ str_of_nat (_id_counter self))
                   (map fst (sections self))).
  { apply sections_get_In. congruence. }
  apply Hkeys in Hin as (t & n & Heq & Hn).
  apply underscore_suffix in Heq; try apply str_of_nat_digits.
  apply str_of_nat_inj in Heq. lia.
Qed.

(** What every manager made by the calls satisfies: the keys are issued
    ids, and the counter counts the sections. *)
Lemma after_calls_issued (calls : list call) (self : SectionManager) :
  (forall key, In key (map fst (sections self)) -> issued self key) ->
  length (sections self) = _id_counter self ->
  let self' := after_calls calls self in
  (forall key, In key (map fst (sections self')) -> issued self' key) /\
  length (sections self') = _id_counter self'.
Proof.
  revert self. induction calls as [|c calls IH]; intros self Hkeys Hlen; [now split|].
  destruct c as [content ty md|id]; cbn [after_calls fold_left]; apply IH; simpl.
  - intros key. rewrite sections_set_keys.
    assert (Hweak : forall k, issued self k -> issued
              (mk_manager (sections_set (ty ++ "_" ++ str_of_nat (_id_counter self))
                  (ExpandableSection_init (ty ++ "_" ++ str_of_nat (_id_counter self))
                     content ty md) (sections self)) (S (_id_counter self))) k).
    { intros k (t & n & -> & Hn). exists t, n. simpl. split; [reflexivity|lia]. }
    destruct (sections_get _ (sections self)); intros Hin.
    + auto.
    + apply in_app_or in Hin as [Hin|[<-|[]]]; [auto|].
      exists ty, (_id_counter self). simpl. split; [reflexivity|lia].
  - rewrite sections_set_new by now apply counter_id_unused.
    rewrite length_app. simpl. lia.
  - unfold toggle. destruct (sections_get id (sections self)) eqn:Hget; simpl; [|assumption].
    intros key. rewrite sections_set_keys, Hget. intros Hin.
    destruct (Hkeys key Hin) as (t & n & -> & Hn). exists t, n. now split.
  - unfold toggle. destruct (sections_get id (sections self)) eqn:Hget; simpl; [|assumption].
    rewrite <- Hlen. rewrite <- !(length_map fst), sections_set_keys, Hget. reflexivity.
Qed.

(** X25. Whatever calls of [register] and [toggle] a manager has seen since
    it was made, the next [register] gives an id that no section has: the
    section it stores is new, it is the last one, it is collapsed and holds
    the content given, every other id still gives what it gave before, and
    the number of sections, which is the counter, has grown by one. *)
Theorem registered_section_is_new (calls : list call) (content section_type : string)
    (metadata : json) :
  let self := after_calls calls SectionManager_init in
  let id := fst (register content section_type metadata self) in
  let self' := snd (register content section_type metadata self) in
  get id self = None /\
  get id self' = Some (ExpandableSection_init id content section_type metadata) /\
  get_last_section self' = get id self' /\
  (forall other, other <> id -> get other self' = get other self) /\
  length (sections self') = S (length (sections self)) /\
  _id_counter self' = length (sections self').
Proof.
  intros self id self'.
  destruct (after_calls_issued calls SectionManager_init) as [Hkeys Hlen];
    [intros key []|reflexivity|].
  fold self in Hkeys, Hlen.
  assert (Hnew : get id self = None).
  { unfold get, id. simpl. now apply counter_id_unused. }
  assert (Hset : sections self' =
                 (sections self ++
                  [(id, ExpandableSection_init id content section_type metadata)])%list).
  { unfold self'. simpl. now apply sections_set_new. }
  split; [exact Hnew|].
  assert (Hget : get id self' = Some (ExpandableSection_init id content section_type metadata)).
  { unfold get, self'. simpl. apply sections_get_set_eq. }
  split; [exact Hget|].
  split.
  { rewrite Hget. unfold get_last_section. rewrite Hset.
    destruct (sections self ++ _)%list eqn:E; [now destruct (sections self)|]. rewrite <- E.
    rewrite map_app, length_app. simpl.
    rewrite nth_error_app2; rewrite length_map; [|lia].
    replace (length (sections self) + 1 - 1 - length (sections self)) with 0 by lia.
    reflexivity. }
  split.
  { intros other Hne. unfold get, self'. simpl. now apply sections_get_set_ne. }
  split.
  { rewrite Hset, length_app. simpl. lia. }
  rewrite Hset, length_app. simpl. unfold self'. simpl. lia.
Qed.

End SectionsProperties.

(** ** The list of saved sessions *)

(** The order of strings, which is that of their characters. *)
Lemma str_compare_cons_same (c : ascii) (a b : string) :
  String.compare (String c a) (String c b) = String.compare a b.
Proof. simpl. unfold Ascii.compare. now rewrite N.compare_refl. Qed.

Lemma str_compare_literal (c : ascii) (a b : string) :
  String.compare (String c "" ++ a) (String c "" ++ b) = String.compare a b.
Proof. rewrite !str_app_cons, !str_app_nil_l. apply str_compare_cons_same. Qed.

Lemma str_lt_trans (a b c : string) :
  String.compare a b = Lt -> String.compare b c = Lt -> String.compare a c = Lt.
Proof.
  revert b c. induction a as [|x a IH]; intros [|y b] [|z c]; simpl; try congruence.
  unfold Ascii.compare.
  destruct (N.compare_spec (N_of_ascii x) (N_of_ascii y)) as [Hxy|Hxy|Hxy];
    destruct (N.compare_spec (N_of_ascii y) (N_of_ascii z)) as [Hyz|Hyz|Hyz];
    try congruence; intros Hab Hbc.
  - rewrite Hxy, Hyz, N.compare_refl. eauto.
  - rewrite Hxy. now apply N.compare_lt_iff in Hyz as ->.
  - rewrite <- Hyz. now apply N.compare_lt_iff in Hxy as ->.
  - assert (H : (N_of_ascii x < N_of_ascii z)%N) by lia.
    now apply N.compare_lt_iff in H as ->.
Qed.

Lemma str_lt_asym (a b : string) :
  String.ltb a b = true -> String.ltb b a = false.
Proof.
  unfold String.ltb. rewrite (String.compare_antisym a b).
  now destruct (String.compare b a).
Qed.

Lemma str_ltb_trans (a b c : string) :
  String.ltb a b = true -> String.ltb b c = true -> String.ltb a c = true.
Proof.
  unfold String.ltb. intros Hab Hbc.
  destruct (String.compare a b) eqn:E1; try discriminate.
  destruct (String.compare b c) eqn:E2; try discriminate.
  now rewrite (str_lt_trans _ _ _ E1 E2).
Qed.

Lemma then_compare_eq (c : comparison) : SessionListing.then_compare c Eq = c.
Proof. now destruct c. Qed.

Lemma digit_compare (a b : N) :
  Ascii.compare (digit a) (digit b) = (a mod 10 ?= b mod 10)%N.
Proof.
  unfold Ascii.compare, digit.
  assert (Ha : (a mod 10 < 10)%N) by (apply N.mod_lt; discriminate).
  assert (Hb : (b mod 10 < 10)%N) by (apply N.mod_lt; discriminate).
  generalize dependent (a mod 10)%N. generalize dependent (b mod 10)%N.
  intros q Hq r Hr. rewrite !N_ascii_embedding by lia.
  destruct (N.compare_spec r q) as [H|H|H].
  - subst. apply N.compare_refl.
  - apply N.compare_lt_iff. lia.
  - apply N.compare_gt_iff. lia.
Qed.

Lemma compare_digits (p a b a' b' : N) :
  (a < p)%N -> (a' < p)%N ->
  (a + p * b ?= a' + p * b')%N = SessionListing.then_compare (b ?= b')%N (a ?= a')%N.
Proof.
  intros Ha Ha'.
  destruct (N.compare_spec b b') as [H|H|H]; simpl.
  - subst b'. destruct (N.compare_spec a a') as [H|H|H].
    + subst. apply N.compare_refl.
    + apply N.compare_lt_iff. lia.
    + apply N.compare_gt_iff. lia.
  - apply N.compare_lt_iff. nia.
  - apply N.compare_gt_iff. nia.
Qed.

Lemma zfill_compare (w : nat) (n m : N) (r1 r2 : string) :
  String.compare (zfill w n ++ r1) (zfill w m ++ r2) =
  SessionListing.then_compare (n mod 10 ^ N.of_nat w ?= m mod 10 ^ N.of_nat w)%N
    (String.compare r1 r2).
Proof.
  induction w as [|w IH].
  - simpl. now rewrite !str_app_nil_l, !N.mod_1_r.
  - cbn [zfill]. rewrite !str_app_cons. cbn [String.compare].
    rewrite digit_compare, IH.
    rewrite Nat2N.inj_succ, N.pow_succ_r'.
    rewrite !(N.mul_comm 10 (10 ^ N.of_nat w)).
    rewrite !N.Div0.mod_mul_r.
    assert (Hp : (10 ^ N.of_nat w <> 0)%N) by (apply N.pow_nonzero; discriminate).
    pose proof (N.mod_lt n _ Hp) as Hn. pose proof (N.mod_lt m _ Hp) as Hm.
    rewrite compare_digits by assumption.
    now destruct ((n / 10 ^ N.of_nat w) mod 10 ?= (m / 10 ^ N.of_nat w) mod 10)%N.
Qed.

Lemma zfill_compare_small (w : nat) (n m : N) (r1 r2 : string) :
  (n < 10 ^ N.of_nat w)%N -> (m < 10 ^ N.of_nat w)%N ->
  String.compare (zfill w n ++ r1) (zfill w m ++ r2) =
  SessionListing.then_compare (n ?= m)%N (String.compare r1 r2).
Proof. intros Hn Hm. rewrite zfill_compare. now rewrite !N.mod_small. Qed.

(** [isoformat] keeps the order: the texts of two datetimes compare as the
    datetimes do. *)
Lemma isoformat_compare (a b : datetime) :
  valid_datetime a = true -> valid_datetime b = true ->
  String.compare (isoformat a) (isoformat b) = SessionListing.datetime_compare a b.
Proof.
  unfold valid_datetime. intros H1 H2.
  repeat (apply andb_true_iff in H1 as [H1 ?]).
  repeat (apply andb_true_iff in H2 as [H2 ?]).
  repeat match goal with
         | H : (_ <=? _)%N = true |- _ => apply N.leb_le in H
         | H : (_ <? _)%N = true |- _ => apply N.ltb_lt in H
         end.
  pose proof (days_in_month_le (year a) (month a)).
  pose proof (days_in_month_le (year b) (month b)).
  unfold isoformat, SessionListing.datetime_compare.
  rewrite zfill_compare_small by (simpl; lia). f_equal. rewrite str_compare_literal.
  rewrite zfill_compare_small by (simpl; lia). f_equal. rewrite str_compare_literal.
  rewrite zfill_compare_small by (simpl; lia). f_equal. rewrite str_compare_literal.
  rewrite zfill_compare_small by (simpl; lia). f_equal. rewrite str_compare_literal.
  rewrite zfill_compare_small by (simpl; lia). f_equal. rewrite str_compare_literal.
  rewrite zfill_compare_small by (simpl; lia). f_equal.
  destruct (microsecond a =? 0)%N eqn:Ea; destruct (microsecond b =? 0)%N eqn:Eb.
  - apply N.eqb_eq in Ea, Eb. rewrite Ea, Eb. reflexivity.
  - apply N.eqb_eq in Ea. apply N.eqb_neq in Eb. rewrite Ea.
    rewrite str_app_cons. cbn [String.compare]. symmetry. apply N.compare_lt_iff. lia.
  - apply N.eqb_neq in Ea. apply N.eqb_eq in Eb. rewrite Eb.
    rewrite str_app_cons. cbn [String.compare]. symmetry. apply N.compare_gt_iff. lia.
  - rewrite str_compare_literal.
    rewrite <- (str_app_nil_r (zfill 6 (microsecond a))).
    rewrite <- (str_app_nil_r (zfill 6 (microsecond b))).
    rewrite zfill_compare_small by (simpl; lia). apply then_compare_eq.
Qed.

Lemma then_compare_leb (x y : N) (c : comparison) (rest : bool) :
  SessionListing.then_compare (x ?= y)%N c <> Gt ->
  (c <> Gt -> rest = true) ->
  (x <? y)%N || ((x =? y)%N && rest) = true.
Proof.
  destruct (N.compare_spec x y) as [H|H|H]; simpl; intros Hc Hrest.
  - subst. rewrite N.eqb_refl, N.ltb_irrefl. simpl. auto.
  - apply N.ltb_lt in H. now rewrite H.
  - congruence.
Qed.

(** The comparison agrees with [datetime_le]. *)
Lemma datetime_compare_le (a b : datetime) :
  SessionListing.datetime_compare a b <> Gt -> datetime_le a b.
Proof.
  unfold SessionListing.datetime_compare, datetime_le, datetime_leb, datetime_fields.
  cbn [lex_leb]. intros H.
  repeat (eapply then_compare_leb; [eassumption|clear H; intros H]).
  rewrite <- (then_compare_eq (microsecond a ?= microsecond b)%N) in H.
  eapply then_compare_leb; [eassumption|reflexivity].
Qed.

Module ListingProperties.
Import SessionPersistence SessionListing.

(** An entry is put where the order of the keys wants it. *)
Lemma insert_sorted_perm (e : entry) (l : list entry) :
  Permutation (insert_sorted e l) (e :: l).
Proof.
  induction l as [|e' l IH]; simpl; [reflexivity|].
  destruct (String.ltb _ _); [reflexivity|].
  rewrite IH. apply perm_swap.
Qed.

Lemma sort_fold_perm (l acc : list entry) :
  Permutation (fold_left (fun sorted e => insert_sorted e sorted) l acc) (acc ++ l)%list.
Proof.
  revert acc. induction l as [|e l IH]; intros acc; simpl.
  - now rewrite app_nil_r.
  - rewrite IH, insert_sorted_perm. apply Permutation_middle.
Qed.

Lemma sort_newest_first_perm (l : list entry) : Permutation (sort_newest_first l) l.
Proof. apply (sort_fold_perm l []). Qed.

Lemma insert_sorted_sorted (e : entry) (l : list entry) :
  Sorted.StronglySorted (fun a b => String.ltb (key_text a) (key_text b) = false) l ->
  Sorted.StronglySorted (fun a b => String.ltb (key_text a) (key_text b) = false)
    (insert_sorted e l).
Proof.
  induction l as [|e' l IH]; intros Hl; simpl.
  - constructor; constructor.
  - apply Sorted.StronglySorted_inv in Hl as [Hl Hall].
    destruct (String.ltb (key_text e') (key_text e)) eqn:Hlt.
    + constructor; [constructor; assumption|].
      constructor; [now apply str_lt_asym|].
      rewrite List.Forall_forall in *. intros z Hz. specialize (Hall z Hz).
      destruct (String.ltb (key_text e) (key_text z)) eqn:Hez; [|reflexivity].
      now rewrite (str_ltb_trans _ _ _ Hlt Hez) in Hall.
    + constructor; [auto|].
      rewrite List.Forall_forall in *. intros z Hz.
      apply (Permutation_in _ (insert_sorted_perm e l)) in Hz as [<-|Hz]; auto.
Qed.

Lemma sort_fold_sorted (l acc : list entry) :
  Sorted.StronglySorted (fun a b => String.ltb (key_text a) (key_text b) = false) acc ->
  Sorted.StronglySorted (fun a b => String.ltb (key_text a) (key_text b) = false)
    (fold_left (fun sorted e => insert_sorted e sorted) l acc).
Proof.
  revert acc. induction l as [|e l IH]; intros acc Hacc; simpl; [assumption|].
  apply IH. now apply insert_sorted_sorted.
Qed.

Lemma sort_newest_first_sorted (l : list entry) :
  Sorted.StronglySorted (fun a b => String.ltb (key_text a) (key_text b) = false)
    (sort_newest_first l).
Proof. apply sort_fold_sorted. constructor. Qed.

(** With [str] keys the sort is the sort of the strings. *)
Lemma sort_sessions_strings (sort_mixed : list entry -> outcome (list entry))
    (l : list entry) :
  (forall e, In e l -> string_key e <> None) ->
  sort_sessions sort_mixed l = Ok (sort_newest_first l).
Proof.
  intros Hkeys.
  assert (Hmap : mapM string_key l <> None).
  { induction l as [|e l IH]; [discriminate|].
    cbn [mapM]. destruct (string_key e) eqn:He; [|now destruct (Hkeys e (or_introl eq_refl))].
    simpl. destruct (mapM string_key l) eqn:Hl; [discriminate|].
    exfalso. apply IH; [|reflexivity]. intros e' He'. apply Hkeys. now right. }
  unfold sort_sessions. destruct l as [|e1 [|e2 l]]; [reflexivity..|].
  destruct (mapM string_key (e1 :: e2 :: l)); [reflexivity|congruence].
Qed.

(** What the loop does with one file. *)
Lemma scan_text (p text : string) (rest : list string) (acc : list entry)
    (fs : gmap string file) :
  fs !! p = Some (TextFile text) -> scan (p :: rest) acc fs = scan rest acc fs.
Proof.
  intros Hp. cbn [scan]. unfold open_read, bind, try_except, get, id. now rewrite Hp.
Qed.

Lemma summary_raises (p : string) (data : json) (e : exception) :
  summary p data = Raise e -> list_sessions_catches e = false.
Proof.
  unfold summary. destruct data; try (intros [= <-]; reflexivity).
  cbn [dict_get].
  repeat match goal with
         | |- context [assoc ?k members] => destruct (assoc k members)
         end; cbn;
    repeat match goal with
           | |- context [json_len ?v] => destruct v; cbn
           end; try discriminate; intros [= <-]; reflexivity.
Qed.

Lemma scan_json (p : string) (data : json) (rest : list string) (acc : list entry)
    (fs : gmap string file) :
  fs !! p = Some (JsonFile data) ->
  scan (p :: rest) acc fs =
  match summary p data with
  | Ok e => scan rest (acc ++ [e])%list fs
  | Raise e => (Raise e, fs)
  end.
Proof.
  intros Hp. cbn [scan]. unfold open_read, bind, try_except, get, id, lift. rewrite Hp.
  cbn. destruct (summary p data) eqn:Hs; [reflexivity|].
  now rewrite (summary_raises _ _ _ Hs).
Qed.

Lemma summary_listable (p : string) (data : json) :
  listable (JsonFile data) = true -> exists e, summary p data = Ok e.
Proof.
  destruct data; try discriminate. unfold listable, summary. cbn [dict_get].
  intros H.
  assert (Hlen : exists n, json_len (default (JArray []) (assoc "messages" members)) = Ok n).
  { destruct (json_len _); [eauto|discriminate]. }
  destruct Hlen as [n Hn]. clear H.
  destruct (assoc "messages" members) as [v|]; cbn in Hn;
    destruct (assoc "session_id" members), (assoc "created_at" members),
      (assoc "updated_at" members), (assoc "current_agent" members),
      (assoc "current_model" members);
    unfold mbind, outcome_bind; try rewrite Hn; cbn; eauto.
Qed.

Lemma scan_listable (fs : gmap string file) (paths : list string) (acc : list entry) :
  (forall p, In p paths -> exists f, fs !! p = Some f /\ listable f = true) ->
  scan paths acc fs = (Ok (acc ++ entries_of fs paths)%list, fs).
Proof.
  revert acc. induction paths as [|p rest IH]; intros acc Hall.
  - simpl. now rewrite app_nil_r.
  - destruct (Hall p (or_introl eq_refl)) as (f & Hp & Hf).
    assert (Hrest : forall q, In q rest -> exists f, fs !! q = Some f /\ listable f = true)
      by (intros q Hq; apply Hall; now right).
    unfold entries_of. cbn [omap list_omap]. fold (entries_of fs rest).
    rewrite Hp. destruct f as [text|data].
    + rewrite (scan_text _ _ _ _ _ Hp). now apply IH.
    + rewrite (scan_json _ _ _ _ _ Hp).
      destruct (summary_listable p data Hf) as [e He]. rewrite He.
      rewrite IH by assumption. now rewrite <- app_assoc.
Qed.

Lemma scan_listable_app (fs : gmap string file) (before rest : list string)
    (acc : list entry) :
  (forall p, In p before -> exists f, fs !! p = Some f /\ listable f = true) ->
  scan (before ++ rest) acc fs = scan rest (acc ++ entries_of fs before)%list fs.
Proof.
  revert acc. induction before as [|p before IH]; intros acc Hall.
  - simpl. now rewrite app_nil_r.
  - destruct (Hall p (or_introl eq_refl)) as (f & Hp & Hf).
    assert (Hrest : forall q, In q before -> exists f, fs !! q = Some f /\ listable f = true)
      by (intros q Hq; apply Hall; now right).
    unfold entries_of. cbn [omap list_omap]. fold (entries_of fs before).
    rewrite Hp. rewrite <- app_comm_cons. destruct f as [text|data].
    + rewrite (scan_text _ _ _ _ _ Hp). now apply IH.
    + rewrite (scan_json _ _ _ _ _ Hp).
      destruct (summary_listable p data Hf) as [e He]. rewrite He.
      rewrite IH by assumption. now rewrite <- app_assoc.
Qed.

Lemma summary_unlistable (p : string) (data : json) :
  listable (JsonFile data) = false ->
  exists e, summary p data = Raise e /\
    exc_cls e = match data with
                | JObject _ => TypeError
                | _ => AttributeError
                end /\
    (match data with
     | JObject _ => True
     | _ => exc_str e = repr (type_name data) ++ " object has no attribute 'get'"
     end).
Proof.
  destruct data; try (intros _; eexists; repeat split; reflexivity).
  unfold listable, summary. cbn [dict_get]. intros H.
  assert (Hlen : exists e, json_len (default (JArray []) (assoc "messages" members)) = Raise e
                           /\ exc_cls e = TypeError).
  { destruct (assoc "messages" members) as [v|]; [|discriminate].
    cbn in *. destruct v; try discriminate; eexists; split; reflexivity. }
  destruct Hlen as (e & Hn & Hcls). clear H. exists e.
  destruct (assoc "messages" members) as [v|]; cbn in Hn;
    destruct (assoc "session_id" members), (assoc "created_at" members),
      (assoc "updated_at" members);
    unfold mbind, outcome_bind; try rewrite Hn; cbn; auto; discriminate.
Qed.

(** X26.  One file that matches the pattern and holds JSON that is not a
    session ends the listing: when the files before it in the order of the
    glob are texts or dicts that can be listed, a document that is not a
    dict makes [list_sessions] raise [AttributeError] (the handler names
    [JSONDecodeError] and [KeyError] only), and a dict whose [messages]
    have no length makes it raise [TypeError], whatever files come after;
    no session is listed and no file is touched. *)
Theorem stray_document_ends_listing (sort_mixed : list entry -> outcome (list entry))
    (glob : string -> list string) (self : t) (directory : option string)
    (fs : gmap string file) (before after : list string) (p : string) (data : json) :
  glob (scan_dir self directory) = (before ++ p :: after)%list ->
  (forall q, In q before -> exists f, fs !! q = Some f /\ listable f = true) ->
  fs !! p = Some (JsonFile data) ->
  listable (JsonFile data) = false ->
  exists e,
    list_sessions sort_mixed glob self directory fs = (Raise e, fs) /\
    exc_cls e = match data with
                | JObject _ => TypeError
                | _ => AttributeError
                end /\
    (match data with
     | JObject _ => True
     | _ => exc_str e = repr (type_name data) ++ " object has no attribute 'get'"
     end).
Proof.
  intros Hglob Hbefore Hp Hdata.
  destruct (summary_unlistable p data Hdata) as (e & Hs & Hcls & Hstr).
  exists e. split; [|split; assumption].
  unfold list_sessions, bind. rewrite Hglob.
  rewrite (scan_listable_app fs before (p :: after) [] Hbefore).
  rewrite (scan_json _ _ _ _ _ Hp), Hs. reflexivity.
Qed.

Lemma stray_document_ends_listing_witness :
  let fs : gmap string file :=
    <["/h/session_index.json" := JsonFile (JArray [])]>
      (<["/h/session_0f8fad5b_20240105_090000.json" :=
           JsonFile (SessionState.to_dict Scenario.hello_state)]> ∅) in
  exists e,
    list_sessions (fun l => Ok l)
      (fun _ => ["/h/session_0f8fad5b_20240105_090000.json"; "/h/session_index.json"])
      (mk "/h") None fs = (Raise e, fs) /\
    exc_cls e = AttributeError /\
    exc_str e = "'list' object has no attribute 'get'".
Proof.
  cbv zeta.
  apply (stray_document_ends_listing (fun l => Ok l)
           (fun _ => ["/h/session_0f8fad5b_20240105_090000.json"; "/h/session_index.json"])
           (mk "/h") None _ ["/h/session_0f8fad5b_20240105_090000.json"] []
           "/h/session_index.json" (JArray [])).
  - reflexivity.
  - intros q [<-|[]]. eexists. split; reflexivity.
  - reflexivity.
  - reflexivity.
Defined.

Lemma summary_saved (p : string) (st : SessionState.t) :
  summary p (SessionState.to_dict st) = Ok (saved_entry (p, st)).
Proof. unfold summary, saved_entry. cbn. now rewrite length_map. Qed.

(** The entries of saved sessions. *)
Lemma entries_saved (fs : gmap string file) (contents : list (string * option SessionState.t)) :
  (forall p st, In (p, Some st) contents ->
     fs !! p = Some (JsonFile (SessionState.to_dict st))) ->
  (forall p, In (p, None) contents -> exists text, fs !! p = Some (TextFile text)) ->
  entries_of fs (map fst contents) = map saved_entry (sessions_among contents) /\
  (forall p, In p (map fst contents) -> exists f, fs !! p = Some f /\ listable f = true).
Proof.
  intros Hsaved Htext. induction contents as [|[p [st|]] contents IH].
  - split; [reflexivity|intros p []].
  - destruct IH as [IH1 IH2].
    + intros q st' Hq. apply Hsaved. now right.
    + intros q Hq. apply Htext. now right.
    + pose proof (Hsaved p st (or_introl eq_refl)) as Hp. split.
      * unfold entries_of, sessions_among. cbn [map fst snd omap list_omap].
        fold (entries_of fs (map fst contents)). fold (sessions_among contents).
        rewrite Hp, summary_saved, IH1. reflexivity.
      * intros q [<-|Hq]; [|auto]. eexists. split; [exact Hp|reflexivity].
  - destruct IH as [IH1 IH2].
    + intros q st' Hq. apply Hsaved. now right.
    + intros q Hq. apply Htext. now right.
    + destruct (Htext p (or_introl eq_refl)) as [text Hp]. split.
      * unfold entries_of, sessions_among. cbn [map fst snd omap list_omap].
        fold (entries_of fs (map fst contents)). fold (sessions_among contents).
        rewrite Hp, IH1. reflexivity.
      * intros q [<-|Hq]; [|auto]. eexists. split; [exact Hp|reflexivity].
Qed.

Lemma sessions_among_In (contents : list (string * option SessionState.t))
    (p : string) (st : SessionState.t) :
  In (p, st) (sessions_among contents) -> In (p, Some st) contents.
Proof.
  induction contents as [|[q [st'|]] contents IH]; cbn; [tauto| |auto].
  intros [[= <- <-]|H]; auto.
Qed.

(** The order of the texts is the order of the datetimes. *)
Lemma saved_order (listed : list (string * SessionState.t)) :
  (forall p st, In (p, st) listed -> valid_datetime (SessionState.updated_at st) = true) ->
  Sorted.StronglySorted (fun a b => String.ltb (key_text a) (key_text b) = false)
    (map saved_entry listed) ->
  Sorted.StronglySorted
    (fun a b => datetime_le (SessionState.updated_at (snd b))
                  (SessionState.updated_at (snd a))) listed.
Proof.
  induction listed as [|[p st] listed IH]; intros Hvalid Hsorted; [constructor|].
  cbn [map] in Hsorted. apply Sorted.StronglySorted_inv in Hsorted as [Hrest Hall].
  constructor.
  - apply IH; [|assumption]. intros q st' Hq. apply (Hvalid q). now right.
  - rewrite List.Forall_forall in *. intros [q st'] Hq.
    specialize (Hall (saved_entry (q, st')) (in_map _ _ _ Hq)).
    cbn in Hall. cbn [snd]. unfold String.ltb in Hall.
    assert (H1 : valid_datetime (SessionState.updated_at st) = true)
      by (apply (Hvalid p); now left).
    assert (H2 : valid_datetime (SessionState.updated_at st') = true)
      by (apply (Hvalid q); now right).
    apply datetime_compare_le.
    rewrite <- (isoformat_compare _ _ H2 H1), String.compare_antisym.
    now destruct (String.compare _ _).
Qed.

(** X27.  A directory of sessions that [save_session] wrote, among files
    that are not JSON: [list_sessions] returns one entry for each session
    and none for the other files, with the path, the id, the two dates,
    the number of messages, the agent and the model of the session, and the
    session that was updated last comes first.  The sort compares the texts
    of [isoformat], which keep the order of the datetimes. *)
Theorem saved_sessions_newest_first (sort_mixed : list entry -> outcome (list entry))
    (glob : string -> list string) (self : t) (directory : option string)
    (fs : gmap string file) (contents : list (string * option SessionState.t)) :
  glob (scan_dir self directory) = map fst contents ->
  (forall p st, In (p, Some st) contents ->
     fs !! p = Some (JsonFile (SessionState.to_dict st)) /\
     valid_datetime (SessionState.updated_at st) = true) ->
  (forall p, In (p, None) contents -> exists text, fs !! p = Some (TextFile text)) ->
  exists listed,
    Permutation listed (sessions_among contents) /\
    list_sessions sort_mixed glob self directory fs = (Ok (map saved_entry listed), fs) /\
    Sorted.StronglySorted
      (fun a b => datetime_le (SessionState.updated_at (snd b))
                    (SessionState.updated_at (snd a))) listed.
Proof.
  intros Hglob Hsaved Htext.
  destruct (entries_saved fs contents) as [Hentries Hlistable];
    [intros p st Hp; now apply Hsaved|assumption|].
  pose proof (sort_newest_first_perm (map saved_entry (sessions_among contents))) as Hperm.
  destruct (Permutation_map_inv _ _ Hperm) as (listed & Hlisted & Hperm').
  exists listed. split; [now symmetry|]. split.
  - unfold list_sessions, bind. rewrite Hglob.
    rewrite (scan_listable fs _ [] Hlistable). cbn [app]. rewrite Hentries.
    unfold lift. rewrite sort_sessions_strings; [now rewrite Hlisted|].
    intros e He. apply in_map_iff in He as ([p st] & <- & _). discriminate.
  - apply saved_order.
    + intros p st Hp. apply (Hsaved p).
      apply sessions_among_In. now apply (Permutation_in _ (Permutation_sym Hperm')).
    + rewrite <- Hlisted. apply sort_newest_first_sorted.
Qed.

Lemma saved_sessions_newest_first_witness :
  let older := Scenario.hello_state in
  let newer := SessionState.mk "7c9e6679-0000-4000-8000-000000000000"
                 (Scenario.clock 9 0 0) (Scenario.clock 9 30 0) [] [] "react" "gpt-4"
                 (JObject []) in
  let fs : gmap string file :=
    <["/h/session_7c9e6679_20240105_090000.json" := JsonFile (SessionState.to_dict newer)]>
      (<["/h/session_notes.json" := TextFile "# notes"]>
         (<["/h/session_0f8fad5b_20240105_090000.json" :=
              JsonFile (SessionState.to_dict older)]> ∅)) in
  exists listed,
    Permutation listed
      [("/h/session_0f8fad5b_20240105_090000.json", older);
       ("/h/session_7c9e6679_20240105_090000.json", newer)] /\
    list_sessions (fun l => Ok l)
      (fun _ => ["/h/session_0f8fad5b_20240105_090000.json"; "/h/session_notes.json";
                 "/h/session_7c9e6679_20240105_090000.json"])
      (mk "/h") None fs = (Ok (map saved_entry listed), fs) /\
    Sorted.StronglySorted
      (fun a b => datetime_le (SessionState.updated_at (snd b))
                    (SessionState.updated_at (snd a))) listed.
Proof.
  cbv zeta.
  apply (saved_sessions_newest_first (fun l => Ok l)
           (fun _ => ["/h/session_0f8fad5b_20240105_090000.json"; "/h/session_notes.json";
                      "/h/session_7c9e6679_20240105_090000.json"])
           (mk "/h") None _
           [("/h/session_0f8fad5b_20240105_090000.json", Some Scenario.hello_state);
            ("/h/session_notes.json", None);
            ("/h/session_7c9e6679_20240105_090000.json",
             Some (SessionState.mk "7c9e6679-0000-4000-8000-000000000000"
                     (Scenario.clock 9 0 0) (Scenario.clock 9 30 0) [] [] "react" "gpt-4"
                     (JObject [])))]).
  - reflexivity.
  - intros p st [[= <- <-]|[[=]|[[= <- <-]|[]]]]; split; reflexivity.
  - intros p [[=]|[[= <-]|[[=]|[]]]]. eexists. reflexivity.
Defined.

End ListingProperties.

(** ** Validation of a configuration *)

Module ValidationProperties.
Import ConfigValidation.

(** [validate] depends on the configuration through what it reads. *)
Lemma validate_read (py_str : json -> string) (config config' : json) :
  read config = read config' -> validate py_str config = validate py_str config'.
Proof.
  unfold read, validate. intros [= H1 H2 H3 H4 H5].
  cbn [fold_left required_fields]. now rewrite H1, H2, H3, H4, H5.
Qed.

Lemma validate_accepted (py_str : json -> string) (config : json) (errors : list string) :
  validate py_str config = Ok (true, errors) <->
  errors = [] /\ accepted (read config) = true.
Proof.
  unfold validate, accepted, read. cbn [fold_left required_fields default_provider
    default_model temperature max_tokens agent_type].
  generalize (ConfigManager.get "llm.default_provider" JNull config) as provider.
  generalize (ConfigManager.get "llm.default_model" JNull config) as model.
  generalize (ConfigManager.get "llm.temperature" JNull config) as temp.
  generalize (ConfigManager.get "llm.max_tokens" JNull config) as tokens.
  generalize (ConfigManager.get "agent.type" JNull config) as ty.
  intros ty tokens temp model provider.
  match goal with
  | |- context [mbind _ (if is_none temp then Ok ?e else _)] => set (e0 := e)
  end.
  set (b0 := negb (is_none provider) && negb (is_none model) && negb (is_none ty)).
  assert (He0 : e0 = [] <-> b0 = true).
  { subst e0 b0. destruct (is_none provider), (is_none model), (is_none ty); cbn;
      split; first [discriminate|reflexivity]. }
  clearbody e0 b0.
  destruct (is_none temp), (is_none tokens);
    cbn [negb andb orb app];
    repeat (match goal with
            | |- context [py_le ?a ?b] => destruct (py_le a b) as [[|]|]
            | |- context [py_lt ?a ?b] => destruct (py_lt a b) as [[|]|]
            end; cbn [mbind outcome_bind negb andb orb]);
    destruct (truthy ty && not_in ty valid_agent_types);
    destruct e0 as [|first_error more]; destruct b0;
    try (exfalso; destruct He0 as [H1 H2]; first [now discriminate H1|now discriminate H2]);
    cbn; (split; [intros H; inversion H; subst; auto
                 |intros [-> H]; first [reflexivity|discriminate H]]).
Qed.

(** The paths of what [validate] reads. *)
Lemma read_paths (config : json) :
  read config =
    mk_readings
      (default JNull (ConfigManager.lookup_path ["llm"; "default_provider"] config))
      (default JNull (ConfigManager.lookup_path ["llm"; "default_model"] config))
      (default JNull (ConfigManager.lookup_path ["llm"; "temperature"] config))
      (default JNull (ConfigManager.lookup_path ["llm"; "max_tokens"] config))
      (default JNull (ConfigManager.lookup_path ["agent"; "type"] config)).
Proof.
  unfold read, ConfigManager.get.
  change (split_dots "llm.default_provider") with ["llm"; "default_provider"].
  change (split_dots "llm.default_model") with ["llm"; "default_model"].
  change (split_dots "llm.temperature") with ["llm"; "temperature"].
  change (split_dots "llm.max_tokens") with ["llm"; "max_tokens"].
  change (split_dots "agent.type") with ["agent"; "type"].
  f_equal; now destruct (ConfigManager.lookup_path _ config).
Qed.

(** The configuration after [set("agent.type", "")]: what [validate] reads
    of it. *)
Lemma read_blank_type (config config' : json) :
  ConfigManager.set "agent.type" (JString "") config = (Ok tt, config') ->
  read config' =
    mk_readings (default_provider (read config)) (default_model (read config))
      (temperature (read config)) (max_tokens (read config)) (JString "").
Proof.
  change (ConfigManager.set "agent.type" (JString "") config)
    with (ConfigManager._set_nested ["agent"; "type"] (JString "") config).
  intros Hset.
  destruct (ConfigProperties._set_nested_ok _ _ _ _ Hset) as [Hget Hframe].
  assert (Hllm : forall key, ConfigManager.lookup_path ["llm"; key] config' =
                             ConfigManager.lookup_path ["llm"; key] config).
  { intros key. apply Hframe. exists [], "llm", "agent", [key], ["type"].
    repeat split; discriminate. }
  rewrite !read_paths. cbn [default_provider default_model temperature max_tokens].
  now rewrite !Hllm, Hget.
Qed.

(** X28.  A configuration that [validate] accepts names an agent type, and
    when that type is not empty it is one the factory knows, so that
    [create_agent] goes on to build the agent.  But [validate] tests the type
    only when it is true: with the type made empty the configuration is still
    accepted, and [create_agent] rejects it with [ValueError]. *)
Theorem valid_configuration_and_the_factory (py_str : json -> string) (config : json)
    (errors : list string) :
  validate py_str config = Ok (true, errors) ->
  errors = [] /\
  (exists ty,
     ConfigManager.lookup_path ["agent"; "type"] config = Some ty /\ ty <> JNull /\
     (truthy ty = true ->
      exists s, ty = JString s /\ (s = "react" \/ s = "react-mcp") /\
        forall env,
          Console.create_agent env s config =
          match Console.build env s config with
          | (Ok agent, config') =>
              (Ok (if String.eqb s "react" then Console.SpoonReactAI
                   else Console.SpoonReactMCP, agent), config')
          | (Raise e, config') => (Raise e, config')
          end)) /\
  (exists config',
     ConfigManager.set "agent.type" (JString "") config = (Ok tt, config') /\
     validate py_str config' = Ok (true, []) /\
     forall env,
       Console.create_agent env "" config' =
       (Raise (mk_exception ValueError
                 "Unknown agent type: . Valid types: ['react', 'react-mcp']"), config')).
Proof.
  intros Hvalid. apply validate_accepted in Hvalid as [-> Hacc].
  split; [reflexivity|].
  assert (Hparts := Hacc). unfold accepted in Hparts.
  repeat (apply andb_true_iff in Hparts as [Hparts ?]).
  assert (Hty : exists ty, ConfigManager.lookup_path ["agent"; "type"] config = Some ty /\
                           ty <> JNull /\ agent_type (read config) = ty).
  { rewrite read_paths in *. cbn [agent_type] in *.
    destruct (ConfigManager.lookup_path ["agent"; "type"] config) as [ty|]; [|discriminate].
    exists ty. split; [reflexivity|]. split; [|reflexivity]. intros ->. discriminate. }
  destruct Hty as (ty & Hlookup & Hnone & Hread). split.
  - exists ty. split; [exact Hlookup|]. split; [exact Hnone|]. intros Htruthy.
    rewrite Hread, Htruthy in *. cbn [andb negb] in *.
    destruct ty as [| | | |s| |]; try discriminate.
    exists s. split; [reflexivity|].
    assert (Hs : String.eqb s "react" || String.eqb s "react-mcp" = true).
    { unfold not_in, valid_agent_types in *. cbn [existsb] in *.
      rewrite orb_false_r in *. now destruct (String.eqb s "react" || String.eqb s "react-mcp"). }
    split.
    + apply orb_true_iff in Hs as [Hs|Hs]; apply String.eqb_eq in Hs; auto.
    + intros env. unfold Console.create_agent. now rewrite Hs.
  - assert (Hsettable : ConfigManager.settable ["agent"; "type"] config = true).
    { destruct config as [| | | | | |members]; try discriminate. cbn in Hlookup |- *.
      destruct (assoc "agent" members) as [child|]; [|reflexivity].
      now destruct child. }
    destruct (ConfigProperties._set_nested_cases ["agent"; "type"] (JString "") config)
      as [Hyes _].
    destruct (Hyes Hsettable) as [config' Hset].
    change (ConfigManager._set_nested ["agent"; "type"] (JString "") config)
      with (ConfigManager.set "agent.type" (JString "") config) in Hset.
    exists config'. split; [exact Hset|]. split; [|reflexivity].
    apply validate_accepted. split; [reflexivity|].
    rewrite (read_blank_type config config' Hset).
    unfold accepted in *. cbn [default_provider default_model temperature max_tokens
      agent_type] in *.
    repeat (apply andb_true_iff; split); try assumption; reflexivity.
Qed.

Lemma valid_configuration_and_the_factory_witness :
  let config :=
    JObject [("llm", JObject [("default_provider", JString "anthropic");
                              ("default_model", JString "claude-sonnet-4");
                              ("temperature", JFloat (mk_float 6305039478318694 (-53)));
                              ("max_tokens", JInt 4096)]);
             ("agent", JObject [("type", JString "react"); ("max_iterations", JInt 10)])] in
  validate (fun _ => "") config = Ok (true, []) /\
  exists config',
    ConfigManager.set "agent.type" (JString "") config = (Ok tt, config') /\
    validate (fun _ => "") config' = Ok (true, []) /\
    forall env,
      Console.create_agent env "" config' =
      (Raise (mk_exception ValueError
                "Unknown agent type: . Valid types: ['react', 'react-mcp']"), config').
Proof.
  cbv zeta. split; [vm_compute; reflexivity|].
  refine (proj2 (proj2 (valid_configuration_and_the_factory (fun _ => "")
    (JObject [("llm", JObject [("default_provider", JString "anthropic");
                               ("default_model", JString "claude-sonnet-4");
                               ("temperature", JFloat (mk_float 6305039478318694 (-53)));
                               ("max_tokens", JInt 4096)]);
              ("agent", JObject [("type", JString "react"); ("max_iterations", JInt 10)])])
    [] _))).
  vm_compute. reflexivity.
Defined.

(** X29.  [validate] reports a number out of range and raises on a value
    that is no number: a temperature that is there and is a [str], a [list]
    or a [dict] ends the call with the [TypeError] of [0.0 <= temp], and so
    does such a [max_tokens] with that of [max_tokens < 1] when the
    temperature is absent or a number; in every other case the call returns
    its pair, whose flag says whether the list is empty. *)
Theorem validate_raises_on_unordered (py_str : json -> string) (config : json) :
  let temp := ConfigManager.get "llm.temperature" JNull config in
  let tokens := ConfigManager.get "llm.max_tokens" JNull config in
  (is_none temp = false -> number_of temp = None ->
   validate py_str config = Raise (not_supported "<=" (JFloat (mk_float 0 0)) temp)) /\
  (is_none temp = true \/ number_of temp <> None ->
   is_none tokens = false -> number_of tokens = None ->
   validate py_str config = Raise (not_supported "<" tokens (JInt 1))) /\
  (is_none temp = true \/ number_of temp <> None ->
   is_none tokens = true \/ number_of tokens <> None ->
   exists errors,
     validate py_str config = Ok (match errors with [] => true | _ => false end, errors)).
Proof.
  intros temp tokens. unfold validate. fold temp. fold tokens.
  generalize (fold_left
      (fun (errors : list string) (field : string) =>
         if is_none (ConfigManager.get field JNull config)
         then (errors ++ [("Required field missing: " ++ field)%string])%list
         else errors) required_fields []) as e0.
  generalize (ConfigManager.get "agent.type" JNull config) as ty.
  intros ty e0.
  assert (Hflag : forall l : list string,
            Nat.eqb (length l) 0 = match l with [] => true | _ => false end)
    by (now intros [|]).
  assert (Hstage : is_none temp = true \/ number_of temp <> None ->
            exists e1,
              (if is_none temp then Ok e0
               else above ← py_le (JFloat (mk_float 0 0)) temp;
                    in_range ← (if above : bool then py_le temp (JFloat (mk_float 1 0))
                                else Ok false);
                    Ok (if in_range : bool then e0
                        else (e0 ++ [("Invalid temperature: " ++ py_str temp ++
                                      " (must be between 0.0 and 1.0)")%string])%list))
              = Ok e1).
  { intros Htemp. destruct (is_none temp); [eauto|].
    destruct Htemp as [?|Htemp]; [discriminate|].
    unfold py_le. cbn [number_of]. destruct (number_of temp); [|congruence].
    cbn. destruct (number_leb _ _); cbn; [destruct (number_leb _ _)|]; eauto. }
  split; [|split].
  - intros Hnone Hnum. rewrite Hnone.
    assert (Hle : py_le (JFloat (mk_float 0 0)) temp =
                  Raise (not_supported "<=" (JFloat (mk_float 0 0)) temp))
      by (unfold py_le; cbn [number_of]; now rewrite Hnum).
    now rewrite Hle.
  - intros Htemp Hnone Hnum.
    destruct (Hstage Htemp) as [e1 ->]. cbn. rewrite Hnone. unfold py_lt. now rewrite Hnum.
  - intros Htemp Htokens.
    destruct (Hstage Htemp) as [e1 ->]. cbn.
    destruct (is_none tokens).
    + cbn. eexists. now rewrite Hflag.
    + destruct Htokens as [?|Htokens]; [discriminate|].
      unfold py_lt. cbn [number_of]. destruct (number_of tokens); [|congruence].
      cbn. eexists. now rewrite Hflag.
Qed.

End ValidationProperties.
